(** * humanify: checkpointed, scope-ordered identifier renaming

    A shallow embedding of
      - src/checkpoint.ts                       (CheckpointManager)
      - src/unminify-with-checkpoint.ts         (unminifyWithCheckpoint)
      - src/plugins/local-llm-rename/visit-all-identifiers-with-checkpoint.ts
      - the three checkpoint-aware rename plugins (openai, gemini, local)
    together with the properties the specification states about them.

    Babel (parser, traversal, scopes, generator), the naming oracle, the
    clock and the file system are not part of the repository.  Babel and the
    oracle are taken as parameters (record [Babel], section variable
    [visitor]); the clock is an arbitrary sequence of readings; the
    checkpoint directory is a record of the files the code reads and writes
    there.  A write fails when the file name is longer than the file system
    takes (the code catches and logs that); the directory and the checkpoint
    file itself are taken to be writable.

    A string is the sequence of bytes of a text in UTF-8, as the files hold
    it; on ASCII text its length and its offsets are those of the JavaScript
    string. *)

From Stdlib Require Import String Ascii List ZArith Lia Bool Arith.
From Stdlib Require Import Permutation Sorted FinFun.
From Stdlib Require Import DecimalString.
Import ListNotations.

Local Open Scope string_scope.
Local Open Scope list_scope.

Set Implicit Arguments.

(* ====================================================================== *)
(** * JavaScript values used by the code *)
(* ====================================================================== *)

(** A thrown JavaScript value: the message of the [Error]. *)
Definition JsError := string.

(** What an [await]ed call comes back with: a value, or a thrown error. *)
Inductive Outcome (A : Type) : Type :=
| Returned (a : A)
| Thrown (e : JsError).
Arguments Returned {A} a.
Arguments Thrown {A} e.

Module JsString.

(** [String.prototype.slice(b, e)] on integer arguments: a negative index
    counts from the end, both indices are clamped to the string. *)
Definition slice (s : string) (b e : Z) : string :=
  let len := Z.of_nat (String.length s) in
  let from := if (b <? 0)%Z then Z.max (len + b) 0 else Z.min b len in
  let to := if (e <? 0)%Z then Z.max (len + e) 0 else Z.min e len in
  substring (Z.to_nat from) (Z.to_nat (Z.max (to - from) 0)) s.

(** [s.slice(b)]: the end index defaults to the length. *)
Definition slice_from (s : string) (b : Z) : string :=
  slice s b (Z.of_nat (String.length s)).

(** [`${n}`] for an integer [n]. *)
Definition of_number (n : Z) : string :=
  NilZero.string_of_int (Z.to_int n).

(** [s.startsWith(p)]. *)
Definition startsWith (p s : string) : bool := String.prefix p s.

(** What [String.prototype.trim] removes: the white space and the line
    terminators of ECMAScript.  Of one byte: tab, line feed, vertical tab,
    form feed, carriage return, space. *)
Definition isWhiteSpace (c : ascii) : bool :=
  let n := nat_of_ascii c in
  ((9 <=? n)%nat && (n <=? 13)%nat) || (n =? 32)%nat.

(** Of two bytes: U+00A0 (C2 A0). *)
Definition isWhiteSpace2 (c1 c2 : ascii) : bool :=
  (nat_of_ascii c1 =? 194)%nat && (nat_of_ascii c2 =? 160)%nat.

(** Of three bytes: U+1680 (E1 9A 80), U+2000 to U+200A (E2 80 80 to
    E2 80 8A), U+2028 and U+2029 (E2 80 A8, E2 80 A9), U+202F (E2 80 AF),
    U+205F (E2 81 9F), U+3000 (E3 80 80) and U+FEFF (EF BB BF). *)
Definition isWhiteSpace3 (c1 c2 c3 : ascii) : bool :=
  let n1 := nat_of_ascii c1 in
  let n2 := nat_of_ascii c2 in
  let n3 := nat_of_ascii c3 in
  ((n1 =? 225) && (n2 =? 154) && (n3 =? 128))%nat
  || ((n1 =? 226) && (n2 =? 128)
      && (((128 <=? n3) && (n3 <=? 138)) || (n3 =? 168) || (n3 =? 169)
          || (n3 =? 175)))%nat
  || ((n1 =? 226) && (n2 =? 129) && (n3 =? 159))%nat
  || ((n1 =? 227) && (n2 =? 128) && (n3 =? 128))%nat
  || ((n1 =? 239) && (n2 =? 187) && (n3 =? 191))%nat.

(** [s.trim().length === 0]: nothing but white space.  A byte that starts
    none of these characters is not white space (a byte that is not valid
    UTF-8 is read as U+FFFD). *)
Fixpoint trimIsEmpty (s : string) : bool :=
  match s with
  | EmptyString => true
  | String c1 s1 =>
      if isWhiteSpace c1 then trimIsEmpty s1
      else
        match s1 with
        | EmptyString => false
        | String c2 s2 =>
            if isWhiteSpace2 c1 c2 then trimIsEmpty s2
            else
              match s2 with
              | EmptyString => false
              | String c3 s3 =>
                  if isWhiteSpace3 c1 c2 c3 then trimIsEmpty s3 else false
              end
        end
  end.

(** [strcmp]: the order of the bytes. *)
Definition strcmp (a b : string) : Z :=
  match String.compare a b with
  | Lt => (-1)%Z
  | Eq => 0%Z
  | Gt => 1%Z
  end.

(** [n] underscores in front of [s]: [n] rounds of [`_${s}`]. *)
Fixpoint underscores (n : nat) (s : string) : string :=
  match n with
  | O => s
  | S k => String.append "_" (underscores k s)
  end.

End JsString.

(** [Set<string>]: iteration follows insertion order, [add] of a present
    element changes nothing. *)
Module JsSet.

Definition t := list string.

Definition empty : t := [].

Definition has (s : t) (x : string) : bool := existsb (String.eqb x) s.

Definition add (s : t) (x : string) : t :=
  if has s x then s else s ++ [x].

(** [new Set(iterable)]. *)
Definition of_list (l : list string) : t := fold_left add l empty.

Definition size (s : t) : nat := length s.

End JsSet.

(** [Map<string, string>]: iteration follows the insertion order of the
    keys, [set] on a present key replaces the value in place. *)
Module JsMap.

Definition t := list (string * string).

Definition empty : t := [].

Fixpoint get (m : t) (k : string) : option string :=
  match m with
  | [] => None
  | (k', v) :: m' => if String.eqb k' k then Some v else get m' k
  end.

Definition has (m : t) (k : string) : bool :=
  match get m k with Some _ => true | None => false end.

Fixpoint set (m : t) (k v : string) : t :=
  match m with
  | [] => [(k, v)]
  | (k', v') :: m' =>
      if String.eqb k' k then (k', v) :: m' else (k', v') :: set m' k v
  end.

(** [new Map(entries)]. *)
Definition of_entries (l : list (string * string)) : t :=
  fold_left (fun m kv => set m (fst kv) (snd kv)) l empty.

Definition entries (m : t) : list (string * string) := m.

Definition values (m : t) : list string := map snd m.

Definition size (m : t) : nat := length m.

End JsMap.

(** JavaScript's [Array.prototype.sort(cmp)]: stable, and for a consistent
    comparator [x] ends up before [y] whenever [cmp x y < 0].  Written as the
    stable insertion sort: an element stays in front of the later elements
    it does not compare greater than. *)
Module JsArray.

Section Sort.
Variable A : Type.
Variable cmp : A -> A -> Z.

Fixpoint insert (x : A) (l : list A) : list A :=
  match l with
  | [] => [x]
  | y :: l' => if (cmp x y <=? 0)%Z then x :: l else y :: insert x l'
  end.

Fixpoint sort (l : list A) : list A :=
  match l with
  | [] => []
  | x :: l' => insert x (sort l')
  end.

(** [arr.find(pred)]. *)
Definition find (pred : A -> bool) (l : list A) : option A := List.find pred l.

End Sort.

End JsArray.

(* ====================================================================== *)
(** * src/checkpoint.ts *)
(* ====================================================================== *)

(** [interface CheckpointData] *)
Module CheckpointData.
Record t : Type := make {
  processedIdentifiers : JsSet.t;
  renames : JsMap.t;
  currentFileIndex : nat;
  currentIdentifierIndex : nat;
  timestamp : Z
}.
End CheckpointData.

(** The [serializedData] object [saveCheckpoint] writes as JSON, and what
    [JSON.parse] gives back in [loadCheckpoint]: the set and the map as
    arrays. *)
Module SerializedCheckpoint.
Record t : Type := make {
  processedIdentifiers : list string;
  renames : list (string * string);
  currentFileIndex : nat;
  currentIdentifierIndex : nat;
  timestamp : Z
}.
End SerializedCheckpoint.

(** The JSON object of a shard file.  The source uses the types
    [PartialResultsData] and [PartialResult] without declaring them; the
    fields are those its writers and readers touch:
    [renames] and [processedCount] (checkpoint.test.ts and
    [mergePartialResults]), [originalName], [newName] and [timestamp]
    (visit-all-identifiers-with-checkpoint.ts).  An absent field is [None]. *)
Module PartialResult.
Record t : Type := make {
  renames : option (list (string * string));
  processedCount : option Z;
  originalName : option string;
  newName : option string;
  timestamp : option Z
}.
End PartialResult.

(** The files the code touches under the output directory: the checkpoint
    file [.checkpoints/checkpoint.json] (absent, or its parsed content), the
    other entries of [.checkpoints], each with its [JSON.parse]d content
    ([None]: not valid JSON), and [rename-mappings.json]. *)
Record Store : Type := mkStore {
  checkpointFile : option SerializedCheckpoint.t;
  dirEntries : list (string * option PartialResult.t);
  mappingsFile : option (list (string * string))
}.

(** What the run does to the outside, in the order it happens. *)
Inductive Event : Type :=
| OracleCalled (name surroundingCode : string)
| ShardWritten (file : string) (data : PartialResult.t)
| CheckpointWritten (data : SerializedCheckpoint.t)
| CheckpointCleared
| ProgressReported (processedCount numRenamesExpected : nat)
| ProgressDone
| MappingsWritten (entries : list (string * string)).

(** The world outside the process: the store, how many times the clock has
    been read, and the events so far. *)
Record World : Type := mkWorld {
  store : Store;
  ticks : nat;
  trace : list Event
}.

Definition emit (ev : Event) (w : World) : World :=
  mkWorld (store w) (ticks w) (trace w ++ [ev]).

Definition withStore (f : Store -> Store) (w : World) : World :=
  mkWorld (f (store w)) (ticks w) (trace w).

(** [fs.writeFile] on an entry of the checkpoint directory: an existing
    file is overwritten, a new one is added.  The order of the list is not
    the order [fs.readdir] lists the entries in, see [readdir]. *)
Fixpoint writeEntry (name : string) (data : option PartialResult.t)
    (l : list (string * option PartialResult.t))
  : list (string * option PartialResult.t) :=
  match l with
  | [] => [(name, data)]
  | (n, d) :: l' =>
      if String.eqb n name then (n, data) :: l' else (n, d) :: writeEntry name data l'
  end.

Fixpoint onlySlashes (s : string) : bool :=
  match s with
  | EmptyString => true
  | String c s' => Ascii.eqb c "/"%char && onlySlashes s'
  end.

(** [path.basename] (POSIX): the last non-empty segment between slashes. *)
Fixpoint basenameAux (seg : string) (s : string) : string :=
  match s with
  | EmptyString => seg
  | String c s' =>
      if Ascii.eqb c "/"%char
      then (if onlySlashes s' then seg else basenameAux EmptyString s')
      else basenameAux (String.append seg (String c EmptyString)) s'
  end.

Definition basename (p : string) : string := basenameAux EmptyString p.

Module CheckpointManager.

(** The manager is its output directory; the two paths of the constructor
    name the checkpoint directory and file that [Store] holds. *)
Record t : Type := make { outputDir : string }.

Section Clock.

(** [Date.now()]: the [n]-th reading of the clock. *)
Variable clock : nat -> Z.

Definition dateNow (w : World) : Z * World :=
  (clock (ticks w), mkWorld (store w) (S (ticks w)) (trace w)).

(** [ensureCheckpointDir]: [mkdir] with [recursive]; nothing to record. *)
Definition ensureCheckpointDir (w : World) : World := w.

Definition serialize (data : CheckpointData.t) : SerializedCheckpoint.t :=
  SerializedCheckpoint.make
    (CheckpointData.processedIdentifiers data)
    (JsMap.entries (CheckpointData.renames data))
    (CheckpointData.currentFileIndex data)
    (CheckpointData.currentIdentifierIndex data)
    (CheckpointData.timestamp data).

Definition saveCheckpoint (data : CheckpointData.t) (w : World) : World :=
  let w := ensureCheckpointDir w in
  let serializedData := serialize data in
  emit (CheckpointWritten serializedData)
    (withStore (fun s => mkStore (Some serializedData) (dirEntries s) (mappingsFile s)) w).

Definition loadCheckpoint (w : World) : option CheckpointData.t :=
  match checkpointFile (store w) with
  | Some parsed =>
      Some (CheckpointData.make
              (JsSet.of_list (SerializedCheckpoint.processedIdentifiers parsed))
              (JsMap.of_entries (SerializedCheckpoint.renames parsed))
              (SerializedCheckpoint.currentFileIndex parsed)
              (SerializedCheckpoint.currentIdentifierIndex parsed)
              (SerializedCheckpoint.timestamp parsed))
  | None => None
  end.

Definition hasCheckpoint (w : World) : bool :=
  match checkpointFile (store w) with Some _ => true | None => false end.

Definition clearCheckpoint (w : World) : World :=
  emit CheckpointCleared
    (withStore (fun s => mkStore None (dirEntries s) (mappingsFile s)) w).

(** [`partial_${path.basename(filename)}_${Date.now()}.json`] *)
Definition resultsFile (filename : string) (t : Z) : string :=
  String.append "partial_"
    (String.append (basename filename)
       (String.append "_" (String.append (JsString.of_number t) ".json"))).

(** [fs.writeFile] fails with ENAMETOOLONG when the name of the file has
    more bytes than the file system takes, 255 on the usual ones. *)
Definition NAME_MAX : nat := 255.

Definition writable (name : string) : bool :=
  (String.length name <=? NAME_MAX)%nat.

(** [savePartialResults]: when the write fails the [catch] block logs the
    error and the call returns as usual; nothing is written. *)
Definition savePartialResults (filename : string) (data : PartialResult.t)
    (w : World) : World :=
  let w := ensureCheckpointDir w in
  let (t, w) := dateNow w in
  let resultsFile := resultsFile filename t in
  if writable resultsFile then
    emit (ShardWritten resultsFile data)
      (withStore (fun s => mkStore (checkpointFile s)
                             (writeEntry resultsFile (Some data) (dirEntries s))
                             (mappingsFile s)) w)
  else w.

(** [fs.readdir]: the names come sorted by their bytes (libuv's [scandir]
    sorts with [strcmp]). *)
Definition readdir (entries : list (string * option PartialResult.t))
  : list (string * option PartialResult.t) :=
  JsArray.sort (fun a b => JsString.strcmp (fst a) (fst b)) entries.

(** [loadPartialResults]: every entry named [partial_...]; one unreadable
    entry makes the [catch] return the empty list. *)
Fixpoint parseAll (l : list (string * option PartialResult.t))
  : option (list PartialResult.t) :=
  match l with
  | [] => Some []
  | (_, Some r) :: l' =>
      match parseAll l' with Some rs => Some (r :: rs) | None => None end
  | (_, None) :: _ => None
  end.

Definition loadPartialResults (w : World) : list PartialResult.t :=
  let files := readdir (dirEntries (store w)) in
  let partialFiles := filter (fun f => JsString.startsWith "partial_" (fst f)) files in
  match parseAll partialFiles with
  | Some results => results
  | None => []
  end.

(** The two nested loops of [mergePartialResults], on the loaded list. *)
Definition mergeResult (mergedRenames : JsMap.t) (result : PartialResult.t) : JsMap.t :=
  match PartialResult.renames result with
  | Some pairs => fold_left (fun m kv => JsMap.set m (fst kv) (snd kv)) pairs mergedRenames
  | None => mergedRenames
  end.

Definition mergePartialResults (w : World) : JsMap.t :=
  let partialResults := loadPartialResults w in
  fold_left mergeResult partialResults JsMap.empty.

End Clock.

End CheckpointManager.

(* ====================================================================== *)
(** * Sequencing: state and exceptions *)
(* ====================================================================== *)

(** A computation that updates a state [S] and returns or throws.  What was
    updated before a [throw] stays updated, as a [catch] block sees it. *)
Definition Prog (S A : Type) : Type := S -> Outcome A * S.

Section Prog.
Variable S : Type.

Definition ret {A : Type} (a : A) : Prog S A := fun st => (Returned a, st).

Definition bind {A C : Type} (m : Prog S A) (f : A -> Prog S C) : Prog S C :=
  fun st =>
    match m st with
    | (Returned a, st') => f a st'
    | (Thrown e, st') => (Thrown e, st')
    end.

Definition throw {A : Type} (e : JsError) : Prog S A := fun st => (Thrown e, st).

Definition tryCatch {A : Type} (body : Prog S A) (handler : JsError -> Prog S A)
  : Prog S A :=
  fun st =>
    match body st with
    | (Returned a, st') => (Returned a, st')
    | (Thrown e, st') => handler e st'
    end.

Definition getState : Prog S S := fun st => (Returned st, st).

Definition modify (f : S -> S) : Prog S unit := fun st => (Returned tt, f st).

Definition when (b : bool) (m : Prog S unit) : Prog S unit :=
  if b then m else ret tt.

End Prog.

Arguments ret {S A} a.
Arguments bind {S A C} m f.
Arguments throw {S A} e.
Arguments tryCatch {S A} body handler.
Arguments getState {S}.
Arguments modify {S} f.
Arguments when {S} b m.

Declare Scope prog_scope.
Delimit Scope prog_scope with prog.
Notation "x <- m ;; k" := (bind m (fun x => k))
  (at level 100, m at next level, right associativity) : prog_scope.
Notation "m ;;; k" := (bind m (fun _ => k))
  (at level 100, right associativity) : prog_scope.
Local Open Scope prog_scope.

(* ====================================================================== *)
(** * Babel, as the code uses it *)
(* ====================================================================== *)

(** The part of @babel/core, @babel/traverse and @babel/types the
    orchestrator calls.  The AST is mutable in the source; here every
    mutation returns the new AST, and every read takes the AST it reads
    from.  A [NodePath] names a node of the AST and stays valid across
    renames. *)
Record Babel : Type := mkBabel {
  Ast : Type;
  NodePath : Type;
  (** [parseAsync(code, ...)]: the AST, [null], or a thrown syntax error. *)
  parseAsync : string -> Outcome (option Ast);
  (** [transformFromAstAsync(ast)] and then [?.code]. *)
  transformFromAstAsync : Ast -> Outcome (option string);
  (** The paths [traverse] hands to [BindingIdentifier], in visiting order. *)
  bindingIdentifiers : Ast -> list NodePath;
  (** [path.node.name], [path.node.type === "Identifier"],
      [path.node.start], [path.node.end]. *)
  node_name : Ast -> NodePath -> string;
  node_isIdentifier : Ast -> NodePath -> bool;
  node_start : Ast -> NodePath -> option Z;
  node_end : Ast -> NodePath -> option Z;
  (** What [closestSurroundingContextPath] asks of a path [p]: the paths
      [findParent] goes through (the parents, nearest first),
      [p.isProgram()], the names of [p.getOuterBindingIdentifiers()],
      [p.scope.path], and of the path it returns: [`${p}`],
      [p.scope.block.start] and [p.scope.block.end]. *)
  path_parents : Ast -> NodePath -> list NodePath;
  path_isProgram : Ast -> NodePath -> bool;
  path_outerBindingIdentifiers : Ast -> NodePath -> list string;
  path_scopePath : Ast -> NodePath -> NodePath;
  path_toString : Ast -> NodePath -> string;
  path_blockStart : Ast -> NodePath -> Z;
  path_blockEnd : Ast -> NodePath -> Z;
  (** The names [path.scope.hasBinding] answers [true] for: those bound
      along the scope chain, and Babel's global names. *)
  scope_bindingNames : Ast -> NodePath -> list string;
  (** [path.scope.rename(oldName, newName)]; it may throw. *)
  scope_rename : Ast -> NodePath -> string -> string -> Outcome Ast;
  (** [toIdentifier(name)] of @babel/types. *)
  toIdentifier : string -> string
}.

Definition scope_hasBinding (B : Babel) (a : Ast B) (path : NodePath B)
    (name : string) : bool :=
  existsb (String.eqb name) (scope_bindingNames B a path).

(* ====================================================================== *)
(** * src/plugins/local-llm-rename/visit-all-identifiers-with-checkpoint.ts *)
(* ====================================================================== *)

(** [interface VisitOptions] *)
Record VisitOptions : Type := mkVisitOptions {
  checkpointManager : option CheckpointManager.t;
  saveInterval : option nat
}.

Section Visit.

Variable B : Babel.

(** [function closestSurroundingContextPath(path)] *)
Definition closestSurroundingContextPath (ast : Ast B) (path : NodePath B)
  : NodePath B :=
  let programOrBindingNode :=
    option_map (path_scopePath B ast)
      (find (fun p =>
               path_isProgram B ast p
               || existsb (String.eqb (node_name B ast path))
                    (path_outerBindingIdentifiers B ast p))
            (path_parents B ast path)) in
  match programOrBindingNode with
  | Some p => p
  | None => path_scopePath B ast path
  end.

(** [function findScopes(ast)] *)
Definition findScopes (ast : Ast B) : list (NodePath B) :=
  let scopes :=
    map (fun path =>
           let surroundingPath := closestSurroundingContextPath ast path in
           let pathSize :=
             (path_blockEnd B ast surroundingPath
              - path_blockStart B ast surroundingPath)%Z in
           (path, pathSize))
        (bindingIdentifiers B ast) in
  let scopes := JsArray.sort (fun a b => (snd b - snd a)%Z) scopes in
  map fst scopes.

(** [function hasVisited(path, visited)] *)
Definition hasVisited (ast : Ast B) (path : NodePath B) (visited : JsSet.t) : bool :=
  JsSet.has visited (node_name B ast path).

(** [function markVisited(path, newName, visited)] *)
Definition markVisited (path : NodePath B) (newName : string) (visited : JsSet.t)
  : JsSet.t :=
  JsSet.add visited newName.

(** [async function scopeToString(path, contextWindowSize)].
    [contextWindowSize / 2] is a fraction when the size is odd: the
    comparisons are taken on the doubled values, and [slice] truncates its
    arguments toward zero ([Z.quot]). *)
Definition scopeToString (ast : Ast B) (path : NodePath B) (contextWindowSize : Z)
  : string :=
  let surroundingPath := closestSurroundingContextPath ast path in
  let code := path_toString B ast surroundingPath in
  let len := Z.of_nat (String.length code) in
  if (len <? contextWindowSize)%Z then code
  else if path_isProgram B ast surroundingPath then
    let start := match node_start B ast path with Some s => s | None => 0%Z end in
    let end_ := match node_end B ast path with Some e => e | None => len end in
    if (2 * end_ <? contextWindowSize)%Z then
      JsString.slice code 0 contextWindowSize
    else if (2 * start >? 2 * len - contextWindowSize)%Z then
      JsString.slice_from code (- contextWindowSize)
    else
      JsString.slice code
        (Z.quot (2 * start - contextWindowSize) 2)
        (Z.quot (2 * end_ + contextWindowSize) 2)
  else
    JsString.slice code 0 contextWindowSize.

(** The [while] loop of the collision check: [`_${safeRenamed}`] as long as
    the candidate is taken.  [fuel] bounds the rounds. *)
Fixpoint prefixWhileTaken (fuel : nat) (taken : string -> bool) (safeRenamed : string)
  : string :=
  match fuel with
  | O => safeRenamed
  | S fuel' =>
      if taken safeRenamed
      then prefixWhileTaken fuel' taken (String.append "_" safeRenamed)
      else safeRenamed
  end.

End Visit.

(** ** The run of [visitAllIdentifiersWithCheckpoint] *)

Section Orchestrator.

Variable B : Babel.

(** The oracle: [type Visitor = (name, scope) => Promise<string>].  It may
    answer differently from one call to the next and it may throw, so it
    reads and updates a state [O] of its own. *)
Variable O : Type.
Definition Visitor : Type := string -> string -> O -> Outcome string * O.
Variable visitor : Visitor.

Variable clock : nat -> Z.

(** The local variables of the function that the loop reads and updates,
    the AST they refer to, and the outside. *)
Record VisitState : Type := mkVisitState {
  ast : Ast B;
  processedIdentifiers : JsSet.t;
  renamesMap : JsMap.t;
  renames : JsSet.t;
  visited : JsSet.t;
  processedCount : nat;
  oracle : O;
  world : World
}.

Definition M (A : Type) : Type := Prog VisitState A.

Definition get : M VisitState := getState.

Definition setWorld (w : World) (st : VisitState) : VisitState :=
  mkVisitState (ast st) (processedIdentifiers st) (renamesMap st) (renames st)
    (visited st) (processedCount st) (oracle st) w.

Definition setAst (a : Ast B) (st : VisitState) : VisitState :=
  mkVisitState a (processedIdentifiers st) (renamesMap st) (renames st)
    (visited st) (processedCount st) (oracle st) (world st).

Definition setOracle (o : O) (st : VisitState) : VisitState :=
  mkVisitState (ast st) (processedIdentifiers st) (renamesMap st) (renames st)
    (visited st) (processedCount st) o (world st).

(** [renames.add(safeRenamed); renamesMap.set(name, safeRenamed)] *)
Definition recordRename (name safeRenamed : string) (st : VisitState) : VisitState :=
  mkVisitState (ast st) (processedIdentifiers st)
    (JsMap.set (renamesMap st) name safeRenamed)
    (JsSet.add (renames st) safeRenamed)
    (visited st) (processedCount st) (oracle st) (world st).

(** [markVisited(...); processedIdentifiers.add(name); processedCount++] *)
Definition recordVisited (path : NodePath B) (name : string) (st : VisitState)
  : VisitState :=
  mkVisitState (ast st)
    (JsSet.add (processedIdentifiers st) name)
    (renamesMap st) (renames st)
    (markVisited B path name (visited st))
    (S (processedCount st)) (oracle st) (world st).

Definition onWorld (f : World -> World) : M unit :=
  modify (fun st => setWorld (f (world st)) st).

(** [Date.now()] *)
Definition dateNow : M Z :=
  fun st =>
    let (t, w) := CheckpointManager.dateNow clock (world st) in
    (Returned t, setWorld w st).

(** [await visitor(name, surroundingCode)] *)
Definition callVisitor (name surroundingCode : string) : M string :=
  fun st =>
    let (r, o) := visitor name surroundingCode (oracle st) in
    (r, setOracle o (setWorld (emit (OracleCalled name surroundingCode) (world st)) st)).

(** [path.scope.rename(oldName, newName)] on the AST of the state. *)
Definition applyRename (path : NodePath B) (oldName newName : string) : M unit :=
  fun st =>
    match scope_rename B (ast st) path oldName newName with
    | Returned a => (Returned tt, setAst a st)
    | Thrown e => (Thrown e, st)
    end.

(** The [while] loop of lines 90 to 95.  A candidate is taken when it is an
    accepted rename target or bound in the scope; each round makes the
    candidate longer, so the loop ends within as many rounds as there are
    taken names. *)
Definition isTaken (st : VisitState) (path : NodePath B) (candidate : string) : bool :=
  JsSet.has (renames st) candidate || scope_hasBinding B (ast st) path candidate.

Definition resolveCollisions (st : VisitState) (path : NodePath B)
    (safeRenamed : string) : string :=
  prefixWhileTaken
    (S (length (renames st) + length (scope_bindingNames B (ast st) path)))
    (isTaken st path) safeRenamed.

(** The checkpoint both [saveCheckpoint] calls of the function pass. *)
Definition saveProgress : M unit :=
  t <- dateNow ;;
  st <- get ;;
  onWorld (CheckpointManager.saveCheckpoint
             (CheckpointData.make (processedIdentifiers st) (renamesMap st)
                0 (processedCount st) t)).

Section Run.

(** The arguments of the function besides the code and the visitor.  The
    progress callback is given or not; a call of it is recorded as an
    event. *)
Variable contextWindowSize : Z.
Variable onProgress : bool.
Variable options : option VisitOptions.

(** [const { checkpointManager, saveInterval = 10 } = options || {}].
    The function does not mention [saveInterval] again. *)
Definition theCheckpointManager : option CheckpointManager.t :=
  match options with
  | Some o => checkpointManager o
  | None => None
  end.

Definition theSaveInterval : nat :=
  match options with
  | Some o => match saveInterval o with Some n => n | None => 10 end
  | None => 10
  end.

Definition hasManager : bool :=
  match theCheckpointManager with Some _ => true | None => false end.

(** Lines 89 to 107: the proposal differs from the name.  The name is
    read again for the shard, after the rename. *)
Definition acceptRename (smallestScope : NodePath B) (renamed : string) : M unit :=
  st <- get ;;
  let name := node_name B (ast st) smallestScope in
  let safeRenamed := resolveCollisions st smallestScope (toIdentifier B renamed) in
  modify (recordRename name safeRenamed) ;;;
  applyRename smallestScope name safeRenamed ;;;
  when hasManager
    (t1 <- dateNow ;;
     st <- get ;;
     let name := node_name B (ast st) smallestScope in
     t2 <- dateNow ;;
     onWorld (CheckpointManager.savePartialResults clock
                (String.append "rename_"
                   (String.append (JsString.of_number t1) (String.append "_" name)))
                (PartialResult.make None None (Some name) (Some safeRenamed)
                   (Some t2)))).

(** Lines 110 to 126: the binding is marked and counted, progress is
    reported, and the checkpoint is saved when the count is a multiple of 5.
    The name is the one the node has now. *)
Definition account (numRenamesExpected : nat) (smallestScope : NodePath B) : M unit :=
  st <- get ;;
  modify (recordVisited smallestScope (node_name B (ast st) smallestScope)) ;;;
  st <- get ;;
  when onProgress
    (onWorld (emit (ProgressReported (processedCount st) numRenamesExpected))) ;;;
  when (hasManager && (processedCount st mod 5 =? 0)%nat) saveProgress.

(** The body of the [for] loop, lines 72 to 126, for [scopes[i]]. *)
Definition visitBinding (numRenamesExpected : nat) (smallestScope : NodePath B)
  : M unit :=
  st <- get ;;
  if hasVisited B (ast st) smallestScope (visited st) then ret tt
  else if negb (node_isIdentifier B (ast st) smallestScope)
  then throw "No identifiers found"
  else
    let name := node_name B (ast st) smallestScope in
    let surroundingCode := scopeToString B (ast st) smallestScope contextWindowSize in
    renamed <- callVisitor name surroundingCode ;;
    when (negb (String.eqb renamed name)) (acceptRename smallestScope renamed) ;;;
    account numRenamesExpected smallestScope.

(** [for (let i = startIndex; i < scopes.length; i++)] over the paths from
    [startIndex] on. *)
Fixpoint visitFrom (numRenamesExpected : nat) (scopes : list (NodePath B)) : M unit :=
  match scopes with
  | [] => ret tt
  | smallestScope :: rest =>
      visitBinding numRenamesExpected smallestScope ;;;
      visitFrom numRenamesExpected rest
  end.

(** Lines 70 to 141: the loop in its [try], and the [catch]. *)
Definition visitLoop (scopes : list (NodePath B)) (startIndex : nat) : M unit :=
  tryCatch
    (visitFrom (length scopes) (skipn startIndex scopes))
    (fun error => when hasManager saveProgress ;;; throw error).

(** Lines 57 to 64: the renames of the checkpoint, applied again. *)
Definition reapplyOne (scopes : list (NodePath B)) (entry : string * string) : M unit :=
  let (originalName, newName) := entry in
  st <- get ;;
  match JsArray.find (fun s => String.eqb (node_name B (ast st) s) originalName) scopes with
  | Some scopePath =>
      if scope_hasBinding B (ast st) scopePath originalName
      then applyRename scopePath originalName newName
      else ret tt
  | None => ret tt
  end.

Fixpoint reapplyRenames (scopes : list (NodePath B)) (entries : list (string * string))
  : M unit :=
  match entries with
  | [] => ret tt
  | entry :: rest => reapplyOne scopes entry ;;; reapplyRenames scopes rest
  end.

(** Lines 143 to 155. *)
Definition finish : M string :=
  when onProgress (onWorld (emit ProgressDone)) ;;;
  st <- get ;;
  match transformFromAstAsync B (ast st) with
  | Thrown e => throw e
  | Returned None => throw "Failed to stringify code"
  | Returned (Some code) =>
      when hasManager (onWorld CheckpointManager.clearCheckpoint) ;;;
      ret code
  end.

(** What is left when the function returns or throws: the final values of
    its local bookkeeping, and the outside. *)
Record Exit : Type := mkExit {
  exit_processedIdentifiers : JsSet.t;
  exit_renamesMap : JsMap.t;
  exit_processedCount : nat;
  exit_oracle : O;
  exit_world : World
}.

Definition exitOf (st : VisitState) : Exit :=
  mkExit (processedIdentifiers st) (renamesMap st) (processedCount st)
    (oracle st) (world st).

(** [export async function visitAllIdentifiersWithCheckpoint(code, visitor,
    contextWindowSize, onProgress, options)] *)
Definition visitAllIdentifiersWithCheckpoint (code : string) (o : O) (w : World)
  : Outcome string * Exit :=
  let checkpoint :=
    if hasManager then CheckpointManager.loadCheckpoint w else None in
  let processedIdentifiers0 :=
    match checkpoint with
    | Some c => CheckpointData.processedIdentifiers c
    | None => JsSet.empty
    end in
  let renamesMap0 :=
    match checkpoint with
    | Some c => CheckpointData.renames c
    | None => JsMap.empty
    end in
  let startIndex :=
    match checkpoint with
    | Some c => CheckpointData.currentIdentifierIndex c
    | None => 0
    end in
  let early := mkExit processedIdentifiers0 renamesMap0 startIndex o w in
  match parseAsync B code with
  | Thrown e => (Thrown e, early)
  | Returned None => (Thrown "Failed to parse code", early)
  | Returned (Some ast0) =>
      let renames0 := JsSet.of_list (JsMap.values renamesMap0) in
      let visited0 := JsSet.of_list processedIdentifiers0 in
      let scopes := findScopes B ast0 in
      let st0 :=
        mkVisitState ast0 processedIdentifiers0 renamesMap0 renames0 visited0
          startIndex o w in
      let run : M string :=
        when (match checkpoint with
              | Some _ => (0 <? JsMap.size renamesMap0)%nat
              | None => false
              end)
          (reapplyRenames scopes (JsMap.entries renamesMap0)) ;;;
        visitLoop scopes startIndex ;;;
        finish in
      let (r, st) := run st0 in
      (r, exitOf st)
  end.

End Run.

(** [export async function visitAllIdentifiers(code, visitor,
    contextWindowSize, onProgress)] *)
Definition visitAllIdentifiers (contextWindowSize : Z) (onProgress : bool)
    (code : string) (o : O) (w : World) : Outcome string * Exit :=
  visitAllIdentifiersWithCheckpoint contextWindowSize onProgress None code o w.

End Orchestrator.

(* ====================================================================== *)
(** * The checkpoint-aware rename plugins *)
(* ====================================================================== *)

Section Plugins.

Variable B : Babel.
Variable O : Type.
Variable clock : nat -> Z.

(** The oracle closures the plugins hand to the orchestrator: the chat
    completion of the OpenAI client, the Gemini model, and the local model
    ([defineFilename], then [unminifyVariableName] with that file name). *)
Variable openaiVisitor : Visitor O.
Variable geminiVisitor : Visitor O.
Variable defineFilename : string -> O -> Outcome string * O.
Variable unminifyVariableName : string -> Visitor O.

(** What a stage leaves behind: its result, the oracle and the world. *)
Definition stageResult (r : Outcome string * Exit O) : Outcome string * (O * World) :=
  (fst r, (exit_oracle (snd r), exit_world (snd r))).

(** openai-rename-with-checkpoint.ts: [openaiRenameWithCheckpoint] *)
Definition openaiRenameWithCheckpoint (contextWindowSize : Z)
    (checkpointManager : option CheckpointManager.t)
    (code : string) (o : O) (w : World) : Outcome string * Exit O :=
  visitAllIdentifiersWithCheckpoint B openaiVisitor clock contextWindowSize true
    (Some (mkVisitOptions checkpointManager (Some 5))) code o w.

(** gemini-rename-with-checkpoint.ts: [geminiRenameWithCheckpoint] *)
Definition geminiRenameWithCheckpoint (contextWindowSize : Z)
    (checkpointManager : option CheckpointManager.t)
    (code : string) (o : O) (w : World) : Outcome string * Exit O :=
  visitAllIdentifiersWithCheckpoint B geminiVisitor clock contextWindowSize true
    (Some (mkVisitOptions checkpointManager (Some 5))) code o w.

Definition PADDING_CHARS : Z := 200.

(** local-llm-rename-with-checkpoint.ts: [localRenameWithCheckpoint] *)
Definition localRenameWithCheckpoint (contextWindowSize : Z)
    (checkpointManager : option CheckpointManager.t)
    (code : string) (o : O) (w : World) : Outcome string * (O * World) :=
  match defineFilename (JsString.slice code 0 (PADDING_CHARS * 2)) o with
  | (Thrown e, o') => (Thrown e, (o', w))
  | (Returned filename, o') =>
      stageResult
        (visitAllIdentifiersWithCheckpoint B (unminifyVariableName filename) clock
           contextWindowSize true
           (Some (mkVisitOptions checkpointManager (Some 10))) code o' w)
  end.

(* ====================================================================== *)
(** * src/unminify-with-checkpoint.ts *)
(* ====================================================================== *)

(** [interface UnminifyOptions] *)
Record UnminifyOptions : Type := mkUnminifyOptions {
  enableCheckpoint : option bool;
  resumeFromCheckpoint : option bool
}.

(** The [__config] the commands attach to the rename plugin; the API key,
    the model and the prompt are the oracle's business. *)
Record PluginConfig : Type := mkPluginConfig {
  config_contextWindowSize : Z
}.

(** A stage [(code) => Promise<string>] with its function name and its
    [__config], if it has one. *)
Record Plugin : Type := mkPlugin {
  plugin_name : string;
  plugin_config : option PluginConfig;
  plugin_call : string -> O -> Outcome string * O
}.

(** The files on disk by path, and the rest of the outside. *)
Record DriverState : Type := mkDriverState {
  d_files : list (string * string);
  d_oracle : O;
  d_world : World
}.

Definition D (A : Type) : Type := Prog DriverState A.

(** [webcrack(bundledCode, outputDir)]: the paths of the extracted files,
    which it has written. *)
Variable webcrack :
  string -> string -> list (string * string)
  -> Outcome (list string) * list (string * string).

Fixpoint lookupFile (path : string) (files : list (string * string)) : option string :=
  match files with
  | [] => None
  | (p, c) :: files' => if String.eqb p path then Some c else lookupFile path files'
  end.

Fixpoint storeFile (path content : string) (files : list (string * string))
  : list (string * string) :=
  match files with
  | [] => [(path, content)]
  | (p, c) :: files' =>
      if String.eqb p path then (p, content) :: files'
      else (p, c) :: storeFile path content files'
  end.

(** [fs.readFile(path, "utf-8")] *)
Definition readFile (path : string) : D string :=
  fun st =>
    match lookupFile path (d_files st) with
    | Some c => (Returned c, st)
    | None => (Thrown "ENOENT", st)
    end.

(** [fs.writeFile(path, content)] *)
Definition writeFile (path content : string) : D unit :=
  modify (fun st => mkDriverState (storeFile path content (d_files st))
                      (d_oracle st) (d_world st)).

Definition onDriverWorld (f : World -> World) : D unit :=
  modify (fun st => mkDriverState (d_files st) (d_oracle st) (f (d_world st))).

Definition driverNow : D Z :=
  fun st =>
    let (t, w) := CheckpointManager.dateNow clock (d_world st) in
    (Returned t, mkDriverState (d_files st) (d_oracle st) w).

(** Run a stage that works on the oracle and the world. *)
Definition runStage (f : O -> World -> Outcome string * (O * World)) : D string :=
  fun st =>
    let (r, ow) := f (d_oracle st) (d_world st) in
    (r, mkDriverState (d_files st) (fst ow) (snd ow)).

Definition runPlain (f : O -> Outcome string * O) : D string :=
  fun st =>
    let (r, o) := f (d_oracle st) in
    (r, mkDriverState (d_files st) o (d_world st)).

(** The file-level checkpoint: empty set and map, identifier index 0. *)
Definition saveFileCheckpoint (fileIndex : nat) : D unit :=
  t <- driverNow ;;
  onDriverWorld (CheckpointManager.saveCheckpoint
                   (CheckpointData.make JsSet.empty JsMap.empty fileIndex 0 t)).

Section Driver.

Variable outputDir : string.
Variable plugins : list Plugin.
Variable options : UnminifyOptions.

Definition theEnableCheckpoint : bool :=
  match enableCheckpoint options with Some b => b | None => true end.

Definition theResumeFromCheckpoint : bool :=
  match resumeFromCheckpoint options with Some b => b | None => false end.

Definition driverManager : option CheckpointManager.t :=
  if theEnableCheckpoint then Some (CheckpointManager.make outputDir) else None.

Definition driverHasManager : bool :=
  match driverManager with Some _ => true | None => false end.

(** Where the loop over the files starts: [startIndex]. *)
Definition driverStartIndex (w : World) : nat :=
  if driverHasManager && theResumeFromCheckpoint then
    match CheckpointManager.loadCheckpoint w with
    | Some checkpoint => CheckpointData.currentFileIndex checkpoint
    | None => 0
    end
  else 0.

(** The [try] block of a wrapped plugin: the checkpoint-aware variant for
    the three rename plugins, the plugin itself otherwise. *)
Definition dispatchPlugin (plugin : Plugin) (currentCode : string) : D string :=
  match driverManager, plugin_config plugin with
  | Some _, Some pluginConfig =>
      if String.eqb (plugin_name plugin) "openaiRename" then
        runStage (fun o w =>
          stageResult (openaiRenameWithCheckpoint
                         (config_contextWindowSize pluginConfig) driverManager
                         currentCode o w))
      else if String.eqb (plugin_name plugin) "geminiRename" then
        runStage (fun o w =>
          stageResult (geminiRenameWithCheckpoint
                         (config_contextWindowSize pluginConfig) driverManager
                         currentCode o w))
      else if String.eqb (plugin_name plugin) "localReanme"
              || String.eqb (plugin_name plugin) "localRename" then
        runStage (localRenameWithCheckpoint
                    (config_contextWindowSize pluginConfig) driverManager currentCode)
      else runPlain (plugin_call plugin currentCode)
  | _, _ => runPlain (plugin_call plugin currentCode)
  end.

(** One element of [pluginsWithCheckpoint], for file [i]. *)
Definition pluginWithCheckpoint (i : nat) (plugin : Plugin) (currentCode : string)
  : D string :=
  tryCatch (dispatchPlugin plugin currentCode)
    (fun error => when driverHasManager (saveFileCheckpoint i) ;;; throw error).

(** [pluginsWithCheckpoint.reduce((p, next) => p.then(next), Promise.resolve(code))] *)
Fixpoint runChain (i : nat) (chain : list Plugin) (code : string) : D string :=
  match chain with
  | [] => ret code
  | plugin :: rest =>
      code' <- pluginWithCheckpoint i plugin code ;;
      runChain i rest code'
  end.

(** The body of the loop over the extracted files, for file [i]. *)
Definition processFile (i : nat) (filePath : string) : D unit :=
  code <- readFile filePath ;;
  if JsString.trimIsEmpty code then ret tt
  else
    tryCatch
      (formattedCode <- runChain i plugins code ;;
       writeFile filePath formattedCode ;;;
       when driverHasManager (saveFileCheckpoint (S i)))
      (fun error => throw error).

Fixpoint processFiles (i : nat) (files : list string) : D unit :=
  match files with
  | [] => ret tt
  | filePath :: rest => processFile i filePath ;;; processFiles (S i) rest
  end.

(** What the driver does once every file is done: the checkpoint is
    cleared, the shards are merged, the mapping is written if it is not
    empty. *)
Definition completeRun : D unit :=
  when driverHasManager (onDriverWorld CheckpointManager.clearCheckpoint) ;;;
  when driverHasManager
    (st <- getState ;;
     let mergedRenames := CheckpointManager.mergePartialResults (d_world st) in
     when (0 <? JsMap.size mergedRenames)%nat
       (onDriverWorld (fun w =>
          emit (MappingsWritten (JsMap.entries mergedRenames))
            (withStore (fun s => mkStore (checkpointFile s) (dirEntries s)
                                   (Some (JsMap.entries mergedRenames))) w)))).

(** [export async function unminifyWithCheckpoint(filename, outputDir,
    plugins, options)] *)
Definition unminifyWithCheckpoint (filename : string) : D unit :=
  bundledCode <- readFile filename ;;
  extractedFiles <-
    (fun st =>
       let (r, files) := webcrack bundledCode outputDir (d_files st) in
       (r, mkDriverState files (d_oracle st) (d_world st))) ;;
  st <- getState ;;
  let startIndex := driverStartIndex (d_world st) in
  processFiles startIndex (skipn startIndex extractedFiles) ;;;
  completeRun.

End Driver.

End Plugins.

(* ====================================================================== *)
(** * A small Babel to run the code on *)
(* ====================================================================== *)

(** An explicit index of nodes and bindings in place of Babel's AST: the
    nodes that matter to [closestSurroundingContextPath] (program,
    functions, declarations) with their parents and scopes, and every
    binding identifier with its current name, its parent node, the scope
    that owns it and its span.  A lookup goes up the scope chain; a rename
    changes the name of the binding the lookup finds.  A [locked] binding
    is one whose renaming throws. *)
Module Toy.

(** A piece of the code Babel generates for a node: text that the
    generator writes itself, or the current name of a binding (where the
    binding is declared or referred to). *)
Inductive Piece : Type :=
| Lit (s : string)
| Ref (i : nat).

(** A node that is not an identifier (the program, a function, a
    declaration): its parent, whether it is the program, the bindings among
    its outer binding identifiers, the node of its [scope.path] (itself when
    it opens a scope), the code the generator writes for it, and the span
    of its scope's block in the source text. *)
Record Node : Type := mkNode {
  parent : option nat;
  isProgram : bool;
  outerIds : list nat;
  scopeNode : nat;
  text : list Piece;
  block : Z * Z
}.

(** A binding identifier: its current name, its parent node, the scope
    node that owns the binding, its span, and whether renaming it throws. *)
Record Binding : Type := mkBinding {
  name : string;
  parentNode : nat;
  boundIn : nat;
  span : Z * Z;
  locked : bool
}.

Record Program : Type := mkProgram {
  source : string;
  nodes : list Node;
  bindings : list Binding
}.

Inductive Path : Type :=
| Identifier (i : nat)
| NodeAt (k : nat).

Definition nowhere : Binding := mkBinding "" 0 0 (0, 0)%Z false.

Definition noNode : Node := mkNode None false [] 0 [] (0, 0)%Z.

Definition at_ (a : Program) (i : nat) : Binding := nth i (bindings a) nowhere.

Definition nodeAt (a : Program) (k : nat) : Node := nth k (nodes a) noNode.

(** A node and its parents, nearest first. *)
Fixpoint chain (a : Program) (fuel : nat) (k : nat) : list nat :=
  match fuel with
  | O => []
  | S fuel' =>
      k :: match parent (nodeAt a k) with
           | Some p => chain a fuel' p
           | None => []
           end
  end.

Definition parents (a : Program) (path : Path) : list Path :=
  match path with
  | Identifier i => map NodeAt (chain a (length (nodes a)) (parentNode (at_ a i)))
  | NodeAt k =>
      match parent (nodeAt a k) with
      | Some p => map NodeAt (chain a (length (nodes a)) p)
      | None => []
      end
  end.

Definition nodeOf (a : Program) (path : Path) : nat :=
  match path with
  | Identifier i => parentNode (at_ a i)
  | NodeAt k => k
  end.

(** The scopes a lookup from the path goes through, innermost first. *)
Definition scopeChain (a : Program) (path : Path) : list nat :=
  map (fun k => scopeNode (nodeAt a k)) (chain a (length (nodes a)) (nodeOf a path)).

Definition visible (a : Program) (path : Path) (b : Binding) : bool :=
  existsb (Nat.eqb (boundIn b)) (scopeChain a path).

(** The names [hasBinding] knows without a declaration: [Scope.globals]
    (the built-in names of the [globals] package of Babel 7) and
    [Scope.contextVariables]. *)
Definition globals : list string :=
  [ "Array"; "ArrayBuffer"; "Atomics"; "BigInt"; "BigInt64Array"; "BigUint64Array";
    "Boolean"; "constructor"; "DataView"; "Date"; "decodeURI"; "decodeURIComponent";
    "encodeURI"; "encodeURIComponent"; "Error"; "escape"; "eval"; "EvalError";
    "Float32Array"; "Float64Array"; "Function"; "globalThis"; "hasOwnProperty";
    "Infinity"; "Int16Array"; "Int32Array"; "Int8Array"; "isFinite"; "isNaN";
    "isPrototypeOf"; "JSON"; "Map"; "Math"; "NaN"; "Number"; "Object"; "parseFloat";
    "parseInt"; "Promise"; "propertyIsEnumerable"; "Proxy"; "RangeError";
    "ReferenceError"; "Reflect"; "RegExp"; "Set"; "SharedArrayBuffer"; "String";
    "Symbol"; "SyntaxError"; "toLocaleString"; "toString"; "TypeError"; "Uint16Array";
    "Uint32Array"; "Uint8Array"; "Uint8ClampedArray"; "undefined"; "unescape";
    "URIError"; "valueOf"; "WeakMap"; "WeakSet" ].

Definition contextVariables : list string :=
  [ "arguments"; "undefined"; "Infinity"; "NaN" ].

Definition bindingNames (a : Program) (path : Path) : list string :=
  map name (filter (visible a path) (bindings a)) ++ globals ++ contextVariables.

(** The scope whose binding a lookup of the name finds. *)
Definition ownerOf (a : Program) (path : Path) (n : string) : option nat :=
  find (fun s => existsb (fun b => (boundIn b =? s)%nat && String.eqb (name b) n)
                   (bindings a))
       (scopeChain a path).

Definition renameBinding (owner : nat) (oldName newName : string) (b : Binding)
  : Binding :=
  if (boundIn b =? owner)%nat && String.eqb (name b) oldName
  then mkBinding newName (parentNode b) (boundIn b) (span b) (locked b)
  else b.

Definition rename (a : Program) (path : Path) (oldName newName : string)
  : Outcome Program :=
  match ownerOf a path oldName with
  | None => Returned a
  | Some owner =>
      if existsb (fun b => (boundIn b =? owner)%nat && String.eqb (name b) oldName
                           && locked b)
           (bindings a)
      then Thrown "cannot rename"
      else Returned (mkProgram (source a) (nodes a)
                       (map (renameBinding owner oldName newName) (bindings a)))
  end.

(** The code of a node, with the names the bindings have now. *)
Definition render (a : Program) (pieces : list Piece) : string :=
  String.concat ""
    (map (fun piece => match piece with
                       | Lit s => s
                       | Ref i => name (at_ a i)
                       end)
       pieces).

(** The generated code of the whole program. *)
Definition generate (a : Program) : string := render a (text (nodeAt a 0)).

(** [toIdentifier] of @babel/types, on ASCII input: every character that
    cannot be part of an identifier becomes a dash; leading dashes and
    digits go; a run of dashes goes and the character after it is put in
    upper case; a reserved word or an empty result gets an underscore in
    front. *)
Definition oneOf (chars : string) (c : ascii) : bool :=
  existsb (Ascii.eqb c) (list_ascii_of_string chars).

Definition isLowerCase : ascii -> bool := oneOf "abcdefghijklmnopqrstuvwxyz".

Definition isDigit : ascii -> bool := oneOf "0123456789".

(** A byte of a character that is not ASCII is taken as part of an
    identifier. *)
Definition isIdentifierChar (c : ascii) : bool :=
  isLowerCase c || oneOf "ABCDEFGHIJKLMNOPQRSTUVWXYZ" c || isDigit c || oneOf "$_" c
  || match c with Ascii _ _ _ _ _ _ _ high => high end.

Definition isDashOrDigit (c : ascii) : bool := oneOf "-" c || isDigit c.

(** A lower-case letter differs from its upper-case letter in one bit. *)
Definition toUpperCase (c : ascii) : ascii :=
  if isLowerCase c
  then match c with Ascii b0 b1 b2 b3 b4 _ b6 b7 => Ascii b0 b1 b2 b3 b4 false b6 b7 end
  else c.

Fixpoint dashed (s : string) : string :=
  match s with
  | EmptyString => EmptyString
  | String c s' => String (if isIdentifierChar c then c else "-"%char) (dashed s')
  end.

Fixpoint dropLeading (s : string) : string :=
  match s with
  | EmptyString => EmptyString
  | String c s' => if isDashOrDigit c then dropLeading s' else s
  end.

Fixpoint camelCase (upper : bool) (s : string) : string :=
  match s with
  | EmptyString => EmptyString
  | String c s' =>
      if Ascii.eqb c "-"%char then camelCase true s'
      else String (if upper then toUpperCase c else c) (camelCase false s')
  end.

Definition reservedWords : list string :=
  [ "break"; "case"; "catch"; "continue"; "debugger"; "default"; "do"; "else";
    "finally"; "for"; "function"; "if"; "return"; "switch"; "throw"; "try"; "var";
    "const"; "while"; "with"; "new"; "this"; "super"; "class"; "extends"; "export";
    "import"; "null"; "true"; "false"; "in"; "instanceof"; "typeof"; "void";
    "delete"; "await"; "enum"; "implements"; "interface"; "let"; "package";
    "private"; "protected"; "public"; "static"; "yield" ].

Definition isValidIdentifier (s : string) : bool :=
  match s with
  | EmptyString => false
  | _ => negb (existsb (String.eqb s) reservedWords)
  end.

Definition toIdentifier (input : string) : string :=
  let name := camelCase false (dropLeading (dashed input)) in
  if isValidIdentifier name then name else String.append "_" name.

Definition nameOf (a : Program) (path : Path) : string :=
  match path with
  | Identifier i => name (at_ a i)
  | NodeAt _ => ""
  end.

Definition spanOf (a : Program) (path : Path) : Z * Z :=
  match path with
  | Identifier i => span (at_ a i)
  | NodeAt k => block (nodeAt a k)
  end.

(** Babel over known programs: [parseAsync] gives the first one that has
    the source text, and [null] when there is none.  The text of a path is
    the code generated for its node from the AST as it is now; the spans
    are offsets into the source text. *)
Definition library (ps : list Program) : Babel :=
  mkBabel
    (fun code => Returned (find (fun p => String.eqb code (source p)) ps))
    (fun a => Returned (Some (generate a)))
    (fun a => map Identifier (seq 0 (length (bindings a))))
    nameOf
    (fun _ path => match path with Identifier _ => true | NodeAt _ => false end)
    (fun a path => Some (fst (spanOf a path)))
    (fun a path => Some (snd (spanOf a path)))
    parents
    (fun a path => match path with
                   | Identifier _ => false
                   | NodeAt k => isProgram (nodeAt a k)
                   end)
    (fun a path => match path with
                   | Identifier _ => []
                   | NodeAt k => map (fun i => name (at_ a i)) (outerIds (nodeAt a k))
                   end)
    (fun a path => NodeAt (scopeNode (nodeAt a (nodeOf a path))))
    (fun a path => match path with
                   | Identifier i => name (at_ a i)
                   | NodeAt k => render a (text (nodeAt a k))
                   end)
    (fun a path => fst (block (nodeAt a (scopeNode (nodeAt a (nodeOf a path))))))
    (fun a path => snd (block (nodeAt a (scopeNode (nodeAt a (nodeOf a path))))))
    bindingNames
    rename
    toIdentifier.

Definition babel (p : Program) : Babel := library [p].

(** An oracle that answers from a table, by name; it throws for a name it
    does not know.  Its state counts the calls. *)
Fixpoint answer (table : list (string * Outcome string)) (n : string) : Outcome string :=
  match table with
  | [] => Thrown "oracle failure"
  | (k, r) :: table' => if String.eqb k n then r else answer table' n
  end.

Definition tableVisitor (table : list (string * Outcome string)) : Visitor nat :=
  fun n _ calls => (answer table n, S calls).

Definition clock (n : nat) : Z := (1000 + Z.of_nat n)%Z.

Definition emptyStore : Store := mkStore None [] None.

Definition freshWorld : World := mkWorld emptyStore 0 [].

Definition manager : option CheckpointManager.t :=
  Some (CheckpointManager.make "out").

End Toy.

(* ====================================================================== *)
(** * Vocabulary of the properties *)
(* ====================================================================== *)

(** The comparator of [findScopes], [(a, b) => b[1] - a[1]], on a key. *)
Definition byKeyDescending (A : Type) (key : A -> Z) (a b : A) : Z :=
  (key b - key a)%Z.

Definition descending (A : Type) (key : A -> Z) (a b : A) : Prop :=
  (key b <= key a)%Z.

(** [pathSize] in [findScopes]: [bindingBlock.end - bindingBlock.start] for
    the block of the scope of the path [closestSurroundingContextPath]
    returns. *)
Definition pathSize (B : Babel) (ast : Ast B) (path : NodePath B) : Z :=
  (path_blockEnd B ast (closestSurroundingContextPath B ast path)
   - path_blockStart B ast (closestSurroundingContextPath B ast path))%Z.

(** [`${surroundingPath}`] and [surroundingPath.isProgram()] in
    [scopeToString]: the generated code of the path
    [closestSurroundingContextPath] returns, and whether that path is the
    program. *)
Definition surroundingPathCode (B : Babel) (ast : Ast B) (path : NodePath B) : string :=
  path_toString B ast (closestSurroundingContextPath B ast path).

Definition surroundingPathIsProgram (B : Babel) (ast : Ast B) (path : NodePath B) : bool :=
  path_isProgram B ast (closestSurroundingContextPath B ast path).

(** [path.node.start ?? 0] and [path.node.end ?? code.length] in
    [scopeToString]. *)
Definition spanStart (B : Babel) (ast : Ast B) (path : NodePath B) : Z :=
  match node_start B ast path with Some s => s | None => 0%Z end.

Definition spanEnd (B : Babel) (ast : Ast B) (path : NodePath B) : Z :=
  match node_end B ast path with
  | Some e => e
  | None => Z.of_nat (String.length (surroundingPathCode B ast path))
  end.

(** ** Programs for the small Babel *)

Module Programs.

Import Toy.

(** A line feed, and the start of a continuation line of the generator. *)
Definition nl : string := String "010"%char EmptyString.

Definition indent : string := String.append nl "  ".

(** [function f(a){return a} function g(a){return a}]: the program and the
    two function declarations; [f] and [g] are bound in the program and are
    the outer binding identifiers of their declarations, each [a] is bound
    in its function.  The generator writes each function on three lines. *)
Definition twoFunctionsSource : string :=
  "function f(a){return a} function g(a){return a}".

Definition functionText (f a : nat) : list Piece :=
  [ Lit "function "; Ref f; Lit "("; Ref a; Lit ") {"; Lit indent; Lit "return ";
    Ref a; Lit ";"; Lit nl; Lit "}" ].

Definition twoFunctions : Program :=
  mkProgram twoFunctionsSource
    [ mkNode None true [] 0 (functionText 0 1 ++ [Lit nl] ++ functionText 2 3)
        (0, 47)%Z;
      mkNode (Some 0) false [0] 1 (functionText 0 1) (0, 23)%Z;
      mkNode (Some 0) false [2] 2 (functionText 2 3) (24, 47)%Z ]
    [ mkBinding "f" 1 0 (9, 10)%Z false;
      mkBinding "a" 1 1 (11, 12)%Z false;
      mkBinding "g" 2 0 (33, 34)%Z false;
      mkBinding "a" 2 2 (35, 36)%Z false ].

(** A program of top-level variables in one declaration: the program node
    and the declaration node, whose scope is the program's. *)
Definition declaration (src : string) (generated : list Piece)
    (spans : list (string * (Z * Z))) (lockedNames : list string) : Program :=
  mkProgram src
    [ mkNode None true [] 0 generated (0, Z.of_nat (String.length src))%Z;
      mkNode (Some 0) false (seq 0 (length spans)) 0 generated
        (0, Z.of_nat (String.length src))%Z ]
    (map (fun ns => mkBinding (fst ns) 1 0 (snd ns)
                      (existsb (String.eqb (fst ns)) lockedNames))
         spans).

(** [var a=1,b=a+1,c=b;]: three top-level bindings.  The generator writes
    one declarator per line. *)
Definition threeVarsSource : string := "var a=1,b=a+1,c=b;".

Definition threeVarsText : list Piece :=
  [ Lit "var "; Ref 0; Lit " = 1,"; Lit indent; Ref 1; Lit " = "; Ref 0; Lit " + 1,";
    Lit indent; Ref 2; Lit " = "; Ref 1; Lit ";" ].

Definition threeVars : Program :=
  declaration threeVarsSource threeVarsText
    [("a", (4, 5)%Z); ("b", (8, 9)%Z); ("c", (14, 15)%Z)] [].

(** [var a,b,c,d,e;]: five top-level bindings, generated on one line. *)
Definition fiveVarsSource : string := "var a,b,c,d,e;".

Definition fiveVarsText : list Piece :=
  [ Lit "var "; Ref 0; Lit ", "; Ref 1; Lit ", "; Ref 2; Lit ", "; Ref 3; Lit ", ";
    Ref 4; Lit ";" ].

Definition fiveVars : Program :=
  declaration fiveVarsSource fiveVarsText
    [("a", (4, 5)%Z); ("b", (6, 7)%Z); ("c", (8, 9)%Z); ("d", (10, 11)%Z);
     ("e", (12, 13)%Z)] [].

(** [var a=1,b=2;] where renaming [b] throws. *)
Definition lockedSource : string := "var a=1,b=2;".

Definition lockedText : list Piece :=
  [ Lit "var "; Ref 0; Lit " = 1,"; Lit indent; Ref 1; Lit " = 2;" ].

Definition lockedVars : Program :=
  declaration lockedSource lockedText [("a", (4, 5)%Z); ("b", (8, 9)%Z)] ["b"].

End Programs.

(** ** The owning scope, following the spec's words

    The specification says of a binding: "the owning scope is the nearest
    enclosing block/function/program that declares it; scope size is the
    textual length of that owning construct", and it calls a binding whose
    owning scope is the whole program a top-level binding.  On the small
    Babel the scope that declares a binding is the one it is bound in. *)
Definition specOwningScope (a : Toy.Program) (path : Toy.Path) : nat :=
  match path with
  | Toy.Identifier i => Toy.boundIn (Toy.at_ a i)
  | Toy.NodeAt k => Toy.scopeNode (Toy.nodeAt a k)
  end.

Definition specOwnerScopeSize (a : Toy.Program) (path : Toy.Path) : Z :=
  (snd (Toy.block (Toy.nodeAt a (specOwningScope a path)))
   - fst (Toy.block (Toy.nodeAt a (specOwningScope a path))))%Z.



(** ** What the orchestrator writes *)

Section Records.

Variable B : Babel.
Variable O : Type.

(** The record [saveProgress] writes when the clock reads [t] in state
    [st]: the file index is the literal 0. *)
Definition progressRecord (st : VisitState B O) (t : Z) : SerializedCheckpoint.t :=
  SerializedCheckpoint.make (processedIdentifiers st)
    (JsMap.entries (renamesMap st)) 0 (processedCount st) t.

(** The shard of lines 102 to 106 and the file it goes to, for the node's
    name [name] (read after the rename), the stored name, and the three
    clock readings [t1], [t2], [t3]. *)
Definition renameShard (name safeRenamed : string) (t2 : Z) : PartialResult.t :=
  PartialResult.make None None (Some name) (Some safeRenamed) (Some t2).

Definition renameShardFile (name : string) (t1 t3 : Z) : string :=
  String.append "partial_"
    (String.append
       (basename (String.append "rename_"
                    (String.append (JsString.of_number t1) (String.append "_" name))))
       (String.append "_" (String.append (JsString.of_number t3) ".json"))).

(** The state right after the oracle has answered. *)
Definition afterOracle (st : VisitState B O) (name surroundingCode : string) (o : O)
  : VisitState B O :=
  setOracle o (setWorld (emit (OracleCalled name surroundingCode) (world st)) st).

Definition isShard (ev : Event) : bool :=
  match ev with ShardWritten _ _ => true | _ => false end.

(** The names the oracle was asked about, in a list of events. *)
Fixpoint oracleNames (evs : list Event) : list string :=
  match evs with
  | [] => []
  | OracleCalled name _ :: evs' => name :: oracleNames evs'
  | _ :: evs' => oracleNames evs'
  end.

(** The checkpoint records written, in a list of events. *)
Fixpoint checkpointsWritten (evs : list Event) : list SerializedCheckpoint.t :=
  match evs with
  | [] => []
  | CheckpointWritten data :: evs' => data :: checkpointsWritten evs'
  | _ :: evs' => checkpointsWritten evs'
  end.

End Records.

(** ** Runs on the small Babel *)

Module Runs.

Import Toy Programs.

(** The shard shape of checkpoint.test.ts: a list of pairs. *)
Definition pairsShard (pairs : list (string * string)) : PartialResult.t :=
  PartialResult.make (Some pairs) None None None None.

Definition withManager (interval : nat) : option VisitOptions :=
  Some (mkVisitOptions manager (Some interval)).

(** An oracle for [var a=1,b=a+1,c=b;]: [a] and [b] get new names, [c]
    keeps its name. *)
Definition namesOracle : Visitor nat :=
  tableVisitor [("a", Returned "alpha"); ("b", Returned "beta"); ("c", Returned "c")].

Definition threeVarsRun : Outcome string * Exit nat :=
  visitAllIdentifiersWithCheckpoint (babel threeVars) namesOracle clock 1000 true
    (withManager 10) threeVarsSource 0 freshWorld.

(** An oracle that proposes [x] for [a]. *)
Definition xOracle : Visitor nat := tableVisitor [("a", Returned "x")].

(** The state in which the loop starts on a program without a checkpoint. *)
Definition freshState (p : Program) : VisitState (babel p) nat :=
  @mkVisitState (babel p) nat p [] [] [] [] 0 0 freshWorld.

(** The local plugin (save interval 10) on the five variables, with a
    model that names the file and answers every name with itself. *)
Definition echoOracle : Visitor nat := fun n _ calls => (Returned n, S calls).

Definition fiveVarsLocalRun : Outcome string * (nat * World) :=
  localRenameWithCheckpoint (babel fiveVars) clock
    (fun _ calls => (Returned "vars.js", S calls)) (fun _ => echoOracle)
    1000 manager fiveVarsSource 0 freshWorld.

(** The run on [var a=1,b=2;]: [a] is renamed, the rename of [b] throws. *)
Definition lockedRun : Outcome string * Exit nat :=
  visitAllIdentifiersWithCheckpoint (babel lockedVars) namesOracle clock 1000 true
    (withManager 5) lockedSource 0 freshWorld.

(** The run on [var a=1,b=a+1,c=b;] with an oracle that knows [a] only:
    it throws at [b]. *)
Definition oracleFailureRun : Outcome string * Exit nat :=
  visitAllIdentifiersWithCheckpoint (babel threeVars)
    (tableVisitor [("a", Returned "alpha")]) clock 1000 true
    (withManager 5) threeVarsSource 0 freshWorld.

(** An interrupted run on the two functions and its resumption.  The
    oracle of the first run answers [x] once and then fails; the oracle of
    the second run proposes [y] for [a]. *)
Definition flakyOracle : Visitor nat :=
  fun _ _ calls =>
    if (calls =? 0)%nat then (Returned "x", S calls)
    else (Thrown "network error", S calls).

Definition interruptedRun : Outcome string * Exit nat :=
  visitAllIdentifiersWithCheckpoint (babel twoFunctions) flakyOracle clock 1000 true
    (withManager 5) twoFunctionsSource 0 freshWorld.

Definition yOracle : Visitor nat :=
  tableVisitor [("a", Returned "y"); ("f", Returned "f"); ("g", Returned "g")].

Definition resumedRun : Outcome string * Exit nat :=
  visitAllIdentifiersWithCheckpoint (babel twoFunctions) yOracle clock 1000 true
    (withManager 5) twoFunctionsSource 0 (exit_world (snd interruptedRun)).

Definition interruptedCheckpoint : CheckpointData.t :=
  CheckpointData.make ["x"] [("a", "x")] 0 1 1003.

(** A whole run of the driver: the bundle holds the one file
    [out/a.js] with the text [var a=1,b=a+1,c=b;], and the only stage is the
    OpenAI rename plugin with its [__config]. *)
Definition bundleFiles : list (string * string) :=
  [("bundle.js", "bundle"); ("out/a.js", threeVarsSource)].

Definition unpack (bundledCode outputDir : string) (files : list (string * string))
  : Outcome (list string) * list (string * string) :=
  (Returned ["out/a.js"], files).

Definition openaiPlugin : Plugin nat :=
  mkPlugin "openaiRename" (Some (mkPluginConfig 1000)) (fun code o => (Returned code, o)).

Definition checkpointing : UnminifyOptions := mkUnminifyOptions (Some true) (Some false).

Definition driverRun : Outcome unit * DriverState nat :=
  unminifyWithCheckpoint (babel threeVars) clock namesOracle namesOracle
    (fun _ calls => (Returned "vars.js", S calls)) (fun _ => namesOracle)
    unpack "out" [openaiPlugin] checkpointing "bundle.js"
    (mkDriverState bundleFiles 0 freshWorld).

(** A run of the driver over two files: [out/a.js] holds
    [var a,b,c,d,e;] and [out/b.js] holds [var a=1,b=a+1,c=b;].  The oracle
    answers every name with itself, except [c] in a text that has an [=],
    where it fails. *)
Definition twoFiles : list (string * string) :=
  [("bundle.js", "bundle"); ("out/a.js", fiveVarsSource); ("out/b.js", threeVarsSource)].

Definition unpackTwo (bundledCode outputDir : string) (files : list (string * string))
  : Outcome (list string) * list (string * string) :=
  (Returned ["out/a.js"; "out/b.js"], files).

Definition failsInSecondFile : Visitor nat :=
  fun n code calls =>
    if String.eqb n "c" && String.eqb code (generate threeVars)
    then (Thrown "oracle failure", S calls)
    else (Returned n, S calls).

Definition twoFilesRun : Outcome unit * DriverState nat :=
  unminifyWithCheckpoint (library [fiveVars; threeVars]) clock
    failsInSecondFile failsInSecondFile
    (fun _ calls => (Returned "vars.js", S calls)) (fun _ => failsInSecondFile)
    unpackTwo "out" [openaiPlugin] checkpointing "bundle.js"
    (mkDriverState twoFiles 0 freshWorld).

(** The data of checkpoint.test.ts. *)
Definition testData : CheckpointData.t :=
  CheckpointData.make ["a"; "b"; "c"] [("a", "array"); ("b", "buffer")] 2 10 1700.

Definition twoShardsWorld : World :=
  CheckpointManager.savePartialResults clock "file2.js"
    (pairsShard [("c", "cache"); ("d", "data")])
    (CheckpointManager.savePartialResults clock "file1.js"
       (pairsShard [("a", "array"); ("b", "buffer")]) freshWorld).

End Runs.

(** ** How a run moves on *)

Section Progress.

Variable B : Babel.
Variable O : Type.

(** From [st] to [st'] the run has moved on: the trace has grown by some
    events; every checkpoint record among them has file index 0; nothing
    has left the visited set; the names the oracle was asked about were not
    in the visited set of [st]; the rename map has kept its keys, and its
    value at every key other than those names. *)
Definition movedOn (st st' : VisitState B O) : Prop :=
  exists evs,
    trace (world st') = trace (world st) ++ evs
    /\ Forall (fun data => SerializedCheckpoint.currentFileIndex data = 0)
         (checkpointsWritten evs)
    /\ (forall x, JsSet.has (visited st) x = true -> JsSet.has (visited st') x = true)
    /\ (forall name, In name (oracleNames evs) -> JsSet.has (visited st) name = false)
    /\ (forall k, ~ In k (oracleNames evs) ->
          JsMap.get (renamesMap st') k = JsMap.get (renamesMap st) k)
    /\ (forall k, JsMap.has (renamesMap st) k = true ->
          JsMap.has (renamesMap st') k = true).

End Progress.

(** ** Vocabulary of further properties *)

(** The pairs of all loaded shards, in the order the merge sets them. *)
Definition shardPairs (results : list PartialResult.t) : list (string * string) :=
  flat_map (fun r => match PartialResult.renames r with
                     | Some pairs => pairs
                     | None => []
                     end)
    results.

(** The value of the last pair with key [k]. *)
Fixpoint lastValue (k : string) (pairs : list (string * string)) : option string :=
  match pairs with
  | [] => None
  | (k', v) :: rest =>
      match lastValue k rest with
      | Some v' => Some v'
      | None => if String.eqb k' k then Some v else None
      end
  end.

(** A shard entry as the orchestrator leaves it: readable, without a
    [renames] field. *)
Definition plainShardEntry (entry : string * option PartialResult.t) : Prop :=
  exists r, snd entry = Some r /\ PartialResult.renames r = None.

(** What [loadCheckpoint] makes of a record on disk whose arrays have no
    repeated element and no repeated key. *)
Definition recordAsData (data : SerializedCheckpoint.t) : CheckpointData.t :=
  CheckpointData.make
    (SerializedCheckpoint.processedIdentifiers data)
    (SerializedCheckpoint.renames data)
    (SerializedCheckpoint.currentFileIndex data)
    (SerializedCheckpoint.currentIdentifierIndex data)
    (SerializedCheckpoint.timestamp data).

Section MoreVocabulary.

Variable B : Babel.
Variable O : Type.
Variable options : option VisitOptions.

(** The checkpoint the function starts from, and the state in which it
    enters the loop once the code is parsed. *)
Definition loadedCheckpoint (w : World) : option CheckpointData.t :=
  if hasManager options then CheckpointManager.loadCheckpoint w else None.

Definition loadedProcessed (w : World) : JsSet.t :=
  match loadedCheckpoint w with
  | Some c => CheckpointData.processedIdentifiers c
  | None => JsSet.empty
  end.

Definition loadedRenames (w : World) : JsMap.t :=
  match loadedCheckpoint w with
  | Some c => CheckpointData.renames c
  | None => JsMap.empty
  end.

Definition loadedIndex (w : World) : nat :=
  match loadedCheckpoint w with
  | Some c => CheckpointData.currentIdentifierIndex c
  | None => 0
  end.

Definition initialState (ast0 : Ast B) (o : O) (w : World) : VisitState B O :=
  @mkVisitState B O ast0 (loadedProcessed w) (loadedRenames w)
    (JsSet.of_list (JsMap.values (loadedRenames w)))
    (JsSet.of_list (loadedProcessed w)) (loadedIndex w) o w.

End MoreVocabulary.

Section AfterParse.

Variable B : Babel.
Variable O : Type.
Variable visitor : Visitor O.
Variable clock : nat -> Z.
Variable contextWindowSize : Z.
Variable onProgress : bool.
Variable options : option VisitOptions.

(** What [visitAllIdentifiersWithCheckpoint] does once the code is parsed:
    the renames of the checkpoint again, the loop, and the end. *)
Definition afterParse (ast0 : Ast B) (w : World) : M B O string :=
  bind
    (when (match loadedCheckpoint options w with
           | Some _ => (0 <? JsMap.size (loadedRenames options w))%nat
           | None => false
           end)
       (reapplyRenames (findScopes B ast0) (JsMap.entries (loadedRenames options w))))
    (fun _ =>
       bind
         (visitLoop visitor clock contextWindowSize onProgress options
            (findScopes B ast0) (loadedIndex options w))
         (fun _ => finish onProgress options)).

(** What the function leaves when the code does not parse. *)
Definition earlyExit (o : O) (w : World) : Exit O :=
  mkExit (loadedProcessed options w) (loadedRenames options w)
    (loadedIndex options w) o w.

End AfterParse.

(** ** What a run does to the outside, and what it keeps *)

(** Events that leave the checkpoint directory alone. *)
Definition offDisk (ev : Event) : bool :=
  match ev with
  | OracleCalled _ _ | ProgressReported _ _ | ProgressDone => true
  | _ => false
  end.

(** A progress report of at most the whole. *)
Definition progressWithin (ev : Event) : Prop :=
  match ev with
  | ProgressReported processed expected => processed <= expected
  | _ => True
  end.

(** A record whose arrays have no element and no key twice. *)
Definition wellFormedRecord (data : SerializedCheckpoint.t) : Prop :=
  NoDup (SerializedCheckpoint.processedIdentifiers data)
  /\ NoDup (map fst (SerializedCheckpoint.renames data)).

Section RunVocabulary.

Variable B : Babel.
Variable O : Type.

(** From [st] to [st'] the files and the clock are as they were, and the
    events in between are oracle calls and progress reports. *)
Definition undisturbed (st st' : VisitState B O) : Prop :=
  store (world st') = store (world st)
  /\ ticks (world st') = ticks (world st)
  /\ exists evs,
       trace (world st') = trace (world st) ++ evs /\ forallb offDisk evs = true.

(** No two keys of the rename map have the same value, and every value is
    in the set of accepted targets. *)
Definition distinctTargets (st : VisitState B O) : Prop :=
  NoDup (JsMap.values (renamesMap st))
  /\ forall v, In v (JsMap.values (renamesMap st)) -> JsSet.has (renames st) v = true.

(** The processed set and the rename map as a [Set] and a [Map] are. *)
Definition wellFormed (st : VisitState B O) : Prop :=
  NoDup (processedIdentifiers st) /\ NoDup (map fst (renamesMap st)).

(** From [st] to [st'] the oracle was called at most [calls] times, the
    count went up by at most [counted], and no progress report exceeds the
    whole. *)
Definition spent (calls counted : nat) (st st' : VisitState B O) : Prop :=
  exists evs,
    trace (world st') = trace (world st) ++ evs
    /\ length (oracleNames evs) <= calls
    /\ processedCount st' <= processedCount st + counted
    /\ Forall progressWithin evs.

(** Only the AST may differ. *)
Definition sameBookkeeping (st st' : VisitState B O) : Prop :=
  world st' = world st
  /\ oracle st' = oracle st
  /\ processedIdentifiers st' = processedIdentifiers st
  /\ renamesMap st' = renamesMap st
  /\ processedCount st' = processedCount st.

End RunVocabulary.

(** ** The targets a run has accepted *)

Section AcceptedTargets.

Variable B : Babel.
Variable O : Type.
Variable visitor : Visitor O.
Variable clock : nat -> Z.
Variable contextWindowSize : Z.
Variable onProgress : bool.
Variable options : option VisitOptions.

(** The target the body of the loop accepts for the binding at [path] in
    state [st], if it accepts one: the name the rename map holds for the
    binding's name after the body, when the binding was visited and the
    oracle proposed another name for it. *)
Definition acceptedTarget (numRenamesExpected : nat) (path : NodePath B)
    (st : VisitState B O) : list string :=
  let name := node_name B (ast st) path in
  if hasVisited B (ast st) path (visited st) then []
  else if negb (node_isIdentifier B (ast st) path) then []
  else
    match visitor name (scopeToString B (ast st) path contextWindowSize) (oracle st) with
    | (Returned renamed, _) =>
        if String.eqb renamed name then []
        else
          match JsMap.get
                  (renamesMap
                     (snd (visitBinding visitor clock contextWindowSize onProgress
                             options numRenamesExpected path st)))
                  name with
          | Some target => [target]
          | None => []
          end
    | (Thrown _, _) => []
    end.

(** The targets accepted while the loop goes through [scopes] from state
    [st], in the order it accepts them. *)
Fixpoint acceptedTargets (numRenamesExpected : nat) (scopes : list (NodePath B))
    (st : VisitState B O) : list string :=
  match scopes with
  | [] => []
  | path :: rest =>
      acceptedTarget numRenamesExpected path st
      ++ match visitBinding visitor clock contextWindowSize onProgress options
                 numRenamesExpected path st with
         | (Returned _, st') => acceptedTargets numRenamesExpected rest st'
         | (Thrown _, _) => []
         end
  end.

End AcceptedTargets.

(** ** Further cases for the small Babel *)

Module Cases.

Import Toy Programs Runs.

(** A clock that does not advance between two readings. *)
Definition stoppedClock (n : nat) : Z := 1000%Z.

(** A checkpoint directory with one readable and one unreadable shard. *)
Definition corruptWorld : World :=
  mkWorld
    (mkStore None
       [("partial_file1.js_1000.json", Some (pairsShard [("a", "array")]));
        ("partial_file2.js_1001.json", None)]
       None)
    0 [].

(** [var abcdefgh=1;] and a comment: the binding is 8 characters long and
    starts at offset 4. *)
Definition longNameSource : string := "var abcdefgh=1; /* pad pad pad */".

Definition longName : Program :=
  declaration longNameSource [Lit "var "; Ref 0; Lit " = 1; /* pad pad pad */"]
    [("abcdefgh", (4, 12)%Z)] [].

(** The state of the run on [var a=1,b=a+1,c=b;] when the oracle that
    knows [a] only has done [a]. *)
Definition aOnlyOracle : Visitor nat := tableVisitor [("a", Returned "alpha")].

Definition afterFirstBinding : VisitState (babel threeVars) nat :=
  snd (visitFrom aOnlyOracle clock 1000 true (withManager 5) 3
         [Identifier 0 : NodePath (babel threeVars)] (freshState threeVars)).

(** The driver's state before it works on the one file of the bundle, and
    a stage that is not a rename plugin. *)
Definition bundleState : DriverState nat := mkDriverState bundleFiles 0 freshWorld.

Definition upperPlugin : Plugin nat :=
  mkPlugin "prettier" None (fun code o => (Returned (String.append code ";"), S o)).

Definition failingPlugin : Plugin nat :=
  mkPlugin "babel" None (fun code o => (Thrown "stage failure", S o)).

Definition noCheckpointing : UnminifyOptions := mkUnminifyOptions (Some false) (Some false).

Definition resuming : UnminifyOptions := mkUnminifyOptions (Some true) (Some true).

(** A no-break space (U+00A0), a line separator (U+2028) and a byte order
    mark (U+FEFF), in UTF-8, between a space and a line feed. *)
Definition unicodeBlank : string :=
  string_of_list_ascii
    (map ascii_of_nat [32; 194; 160; 226; 128; 168; 239; 187; 191; 10]).

Definition blankFiles : list (string * string) :=
  [("bundle.js", "bundle"); ("out/a.js", "  "); ("out/b.js", "");
   ("out/c.js", unicodeBlank)].

(** The state of the run on the two functions with the oracle that
    proposes [x] for [a], when the parameter of [f] has been done. *)
Definition afterFirstParameter : VisitState (babel twoFunctions) nat :=
  snd (visitFrom xOracle clock 1000 true (withManager 10) 4
         [Identifier 1 : NodePath (babel twoFunctions)] (freshState twoFunctions)).

(** An oracle that proposes a name of 250 characters for [a]. *)
Definition longProposal : string := string_of_list_ascii (repeat "x"%char 250).

Definition longOracle : Visitor nat := tableVisitor [("a", Returned longProposal)].

End Cases.

(* ====================================================================== *)
(** * Facts about the JavaScript values *)
(* ====================================================================== *)

Section StringFacts.

Lemma length_substring (s : string) (n m : nat) :
  String.length (substring n m s) = Nat.min m (String.length s - n).
Proof.
  revert n m; induction s as [|c s IH]; intros n m.
  - destruct n, m; reflexivity.
  - destruct n as [|n].
    + destruct m as [|m]; [reflexivity|].
      simpl. rewrite IH. rewrite Nat.sub_0_r. reflexivity.
    + simpl. apply IH.
Qed.

Lemma length_append (s t : string) :
  String.length (String.append s t) = String.length s + String.length t.
Proof. induction s as [|c s IH]; simpl; [reflexivity | now rewrite IH]. Qed.



Lemma underscores_shift (k : nat) (s : string) :
  JsString.underscores k (String.append "_" s)
  = String.append "_" (JsString.underscores k s).
Proof. induction k as [|k IH]; simpl in *; [reflexivity | now rewrite IH]. Qed.

Lemma length_underscores (k : nat) (s : string) :
  String.length (JsString.underscores k s) = k + String.length s.
Proof. induction k as [|k IH]; simpl; [reflexivity | now rewrite IH]. Qed.

Lemma underscores_inj (j k : nat) (s : string) :
  JsString.underscores j s = JsString.underscores k s -> j = k.
Proof.
  intros H. apply (f_equal String.length) in H.
  rewrite !length_underscores in H. lia.
Qed.

End StringFacts.

Section SetFacts.

Lemma set_has_In (s : JsSet.t) (x : string) :
  JsSet.has s x = true <-> In x s.
Proof.
  unfold JsSet.has. rewrite existsb_exists. split.
  - intros [y [Hy Heq]]. apply String.eqb_eq in Heq. now subst.
  - intros H. exists x. split; [assumption | apply String.eqb_refl].
Qed.

Lemma set_has_add (s : JsSet.t) (x y : string) :
  JsSet.has (JsSet.add s x) y = JsSet.has s y || String.eqb y x.
Proof.
  unfold JsSet.add. destruct (JsSet.has s x) eqn:Hx.
  - destruct (String.eqb_spec y x) as [->|]; [now rewrite Hx | now rewrite orb_false_r].
  - unfold JsSet.has. rewrite existsb_app. simpl. now rewrite orb_false_r.
Qed.

Lemma set_has_add_mono (s : JsSet.t) (x y : string) :
  JsSet.has s y = true -> JsSet.has (JsSet.add s x) y = true.
Proof. intros H. rewrite set_has_add, H. reflexivity. Qed.

Lemma set_has_fold_add (l : list string) (s : JsSet.t) (y : string) :
  JsSet.has (fold_left JsSet.add l s) y = JsSet.has s y || existsb (String.eqb y) l.
Proof.
  revert s; induction l as [|x l IH]; intros s; simpl.
  - now rewrite orb_false_r.
  - rewrite IH, set_has_add. now rewrite orb_assoc.
Qed.

Lemma set_has_of_list (l : list string) (y : string) :
  JsSet.has (JsSet.of_list l) y = existsb (String.eqb y) l.
Proof. unfold JsSet.of_list. now rewrite set_has_fold_add. Qed.

End SetFacts.

Section MapFacts.

Lemma map_get_set_same (m : JsMap.t) (k v : string) :
  JsMap.get (JsMap.set m k v) k = Some v.
Proof.
  induction m as [|[k' v'] m IH]; simpl.
  - now rewrite String.eqb_refl.
  - destruct (String.eqb k' k) eqn:E; simpl; rewrite E; [reflexivity | exact IH].
Qed.

Lemma map_get_set_other (m : JsMap.t) (k v k0 : string) :
  k0 <> k -> JsMap.get (JsMap.set m k v) k0 = JsMap.get m k0.
Proof.
  intros Hne. induction m as [|[k' v'] m IH]; simpl.
  - destruct (String.eqb_spec k k0); [congruence | reflexivity].
  - destruct (String.eqb_spec k' k) as [->|Hk]; simpl.
    + destruct (String.eqb_spec k k0); [congruence | reflexivity].
    + destruct (String.eqb_spec k' k0); [reflexivity | exact IH].
Qed.

Lemma map_has_set (m : JsMap.t) (k v k0 : string) :
  JsMap.has m k0 = true -> JsMap.has (JsMap.set m k v) k0 = true.
Proof.
  unfold JsMap.has. intros H.
  destruct (String.eqb_spec k0 k) as [->|Hne].
  - now rewrite map_get_set_same.
  - now rewrite map_get_set_other.
Qed.

End MapFacts.

Section SortFacts.

Variable A : Type.
Variable key : A -> Z.

Lemma insert_perm (x : A) (l : list A) :
  Permutation (JsArray.insert (byKeyDescending key) x l) (x :: l).
Proof.
  induction l as [|y l IH]; simpl; [reflexivity|].
  destruct (byKeyDescending key x y <=? 0)%Z; [reflexivity|].
  rewrite IH. apply perm_swap.
Qed.

Lemma sort_perm (l : list A) : Permutation (JsArray.sort (byKeyDescending key) l) l.
Proof.
  induction l as [|x l IH]; simpl; [reflexivity|].
  rewrite insert_perm. now constructor.
Qed.

Lemma insert_sorted (x : A) (l : list A) :
  StronglySorted (descending key) l ->
  StronglySorted (descending key) (JsArray.insert (byKeyDescending key) x l).
Proof.
  induction 1 as [|y l Hs IH Hall]; simpl.
  - repeat constructor.
  - unfold byKeyDescending at 1.
    destruct (Z.leb_spec (key y - key x) 0) as [Hle|Hgt].
    + constructor; [now constructor|].
      constructor; [unfold descending; lia|].
      eapply Forall_impl; [|exact Hall].
      unfold descending; intros; lia.
    + constructor; [exact IH|].
      eapply Permutation_Forall; [symmetry; apply insert_perm|].
      constructor; [unfold descending; lia | exact Hall].
Qed.

Lemma sort_sorted (l : list A) :
  StronglySorted (descending key) (JsArray.sort (byKeyDescending key) l).
Proof.
  induction l as [|x l IH]; simpl; [constructor | now apply insert_sorted].
Qed.

Lemma insert_stable (s : Z) (x : A) (l : list A) :
  filter (fun a => (key a =? s)%Z) (JsArray.insert (byKeyDescending key) x l)
  = filter (fun a => (key a =? s)%Z) (x :: l).
Proof.
  induction l as [|y l IH]; [reflexivity|].
  simpl JsArray.insert. unfold byKeyDescending at 1.
  destruct (Z.leb_spec (key y - key x) 0) as [Hle|Hgt]; [reflexivity|].
  simpl in *. rewrite IH.
  destruct (Z.eqb_spec (key y) s), (Z.eqb_spec (key x) s); try reflexivity.
  lia.
Qed.

Lemma sort_stable (s : Z) (l : list A) :
  filter (fun a => (key a =? s)%Z) (JsArray.sort (byKeyDescending key) l)
  = filter (fun a => (key a =? s)%Z) l.
Proof.
  induction l as [|x l IH]; [reflexivity|].
  simpl JsArray.sort. rewrite insert_stable. simpl. now rewrite IH.
Qed.

(** Sorting pairs [(a, key a)] on the second component sorts on the key. *)
Lemma sort_decorated (l : list A) :
  map fst (JsArray.sort (fun a b : A * Z => (snd b - snd a)%Z)
             (map (fun a => (a, key a)) l))
  = JsArray.sort (byKeyDescending key) l.
Proof.
  assert (Hins : forall x l',
    JsArray.insert (fun a b : A * Z => (snd b - snd a)%Z) (x, key x)
      (map (fun a => (a, key a)) l')
    = map (fun a => (a, key a)) (JsArray.insert (byKeyDescending key) x l')).
  { intros x l'. induction l' as [|y l' IH]; [reflexivity|].
    simpl. unfold byKeyDescending at 1.
    destruct (key y - key x <=? 0)%Z; [reflexivity|].
    simpl. now rewrite IH. }
  assert (Hsort :
    JsArray.sort (fun a b : A * Z => (snd b - snd a)%Z) (map (fun a => (a, key a)) l)
    = map (fun a => (a, key a)) (JsArray.sort (byKeyDescending key) l)).
  { induction l as [|x l IH]; [reflexivity|].
    simpl. rewrite IH. apply Hins. }
  rewrite Hsort, map_map. simpl. apply map_id.
Qed.

End SortFacts.

(* ====================================================================== *)
(** * The visitation order ([findScopes]) *)
(* ====================================================================== *)

Section VisitationOrder.

Variable B : Babel.

Lemma findScopes_sort (ast : Ast B) :
  findScopes B ast
  = JsArray.sort (byKeyDescending (pathSize B ast)) (bindingIdentifiers B ast).
Proof.
  unfold findScopes.
  exact (sort_decorated (pathSize B ast) (bindingIdentifiers B ast)).
Qed.

(** C9, as the code has it: the visitation order holds exactly the
    program's binding identifiers, sorted in descending order by [pathSize],
    the length of the block of the scope of the path that
    [closestSurroundingContextPath] returns for the binding (the nearest
    parent that is the program or has the binding's name among its outer
    binding identifiers, and the binding's own scope when there is none);
    bindings of equal [pathSize] stay in the order of their discovery; two
    runs that parse identical source text get identical orders. *)
Theorem findScopes_visitation_order (code1 code2 : string) (ast1 ast2 : Ast B) :
  code1 = code2 ->
  parseAsync B code1 = Returned (Some ast1) ->
  parseAsync B code2 = Returned (Some ast2) ->
  findScopes B ast1 = findScopes B ast2
  /\ Permutation (findScopes B ast1) (bindingIdentifiers B ast1)
  /\ StronglySorted
       (fun p q => (pathSize B ast1 q <= pathSize B ast1 p)%Z)
       (findScopes B ast1)
  /\ (forall size : Z,
        filter (fun p => (pathSize B ast1 p =? size)%Z) (findScopes B ast1)
        = filter (fun p => (pathSize B ast1 p =? size)%Z)
            (bindingIdentifiers B ast1)).
Proof.
  intros Hcode H1 H2. subst code2.
  assert (ast1 = ast2) by congruence. subst ast2.
  rewrite findScopes_sort.
  split; [reflexivity|].
  split; [apply sort_perm|].
  split; [apply sort_sorted | intros size; apply sort_stable].
Qed.

End VisitationOrder.

Lemma findScopes_visitation_order_witness :
  let B := Toy.babel Programs.twoFunctions in
  findScopes B Programs.twoFunctions
  = [Toy.Identifier 1; Toy.Identifier 3; Toy.Identifier 0; Toy.Identifier 2]
  /\ Permutation (findScopes B Programs.twoFunctions)
       (bindingIdentifiers B Programs.twoFunctions).
Proof.
  split; [reflexivity|].
  apply (@findScopes_visitation_order (Toy.babel Programs.twoFunctions)
           Programs.twoFunctionsSource Programs.twoFunctionsSource
           Programs.twoFunctions Programs.twoFunctions);
    reflexivity.
Defined.

(** C9 as stated fails: in
    [function f(a){return a} function g(a){return a}] the scope that
    declares [f] and [g] is the program, of 47 characters, and the scope
    that declares each parameter [a] is its function, of 23 characters, so
    the order by the length of the owning scope has [f] and [g] before the
    parameters.  The code visits the two parameters first: its key is 47
    for a parameter and 23 for a function name. *)
Lemma visitation_order_counterexample :
  let B := Toy.babel Programs.twoFunctions in
  let order := findScopes B Programs.twoFunctions in
  map (node_name B Programs.twoFunctions) order = ["a"; "a"; "f"; "g"]
  /\ map (specOwnerScopeSize Programs.twoFunctions) order = [23; 23; 47; 47]%Z
  /\ map (pathSize B Programs.twoFunctions) order = [47; 47; 23; 23]%Z
  /\ ~ StronglySorted
         (fun p q => (specOwnerScopeSize Programs.twoFunctions q
                      <= specOwnerScopeSize Programs.twoFunctions p)%Z)
         order.
Proof.
  intros B order.
  assert (Horder : order = [Toy.Identifier 1; Toy.Identifier 3; Toy.Identifier 0;
                            Toy.Identifier 2]) by (vm_compute; reflexivity).
  split; [vm_compute; reflexivity|]. split; [vm_compute; reflexivity|].
  split; [vm_compute; reflexivity|].
  rewrite Horder. intros Hsorted.
  apply StronglySorted_inv in Hsorted. destruct Hsorted as [_ Hall].
  apply Forall_inv_tail, Forall_inv in Hall.
  vm_compute in Hall. now apply Hall.
Qed.

(* ====================================================================== *)
(** * The context window ([scopeToString]) *)
(* ====================================================================== *)

Section ContextWindow.

Variable B : Babel.


End ContextWindow.



(* ====================================================================== *)
(** * Merging the shards ([mergePartialResults]) *)
(* ====================================================================== *)

Section Merge.

Lemma mergeResult_without_renames (m : JsMap.t) (r : PartialResult.t) :
  PartialResult.renames r = None -> CheckpointManager.mergeResult m r = m.
Proof. unfold CheckpointManager.mergeResult. now intros ->. Qed.

Lemma merge_without_renames (rs : list PartialResult.t) (m : JsMap.t) :
  Forall (fun r => PartialResult.renames r = None) rs ->
  fold_left CheckpointManager.mergeResult rs m = m.
Proof.
  intros H; revert m; induction H as [|r rs Hr _ IH]; intros m; simpl.
  - reflexivity.
  - rewrite mergeResult_without_renames by exact Hr. apply IH.
Qed.

(** The fold goes through the shards in their order, and a later pair for
    a key replaces the earlier value: this part of the contract holds for
    shards that carry a [renames] list. *)
Lemma fold_set_last (pairs : list (string * string)) (m : JsMap.t) (k v : string) :
  JsMap.get (fold_left (fun m kv => JsMap.set m (fst kv) (snd kv))
               (pairs ++ [(k, v)]) m) k = Some v.
Proof. rewrite fold_left_app. simpl. apply map_get_set_same. Qed.

Lemma fold_set_absent (pairs : list (string * string)) (m : JsMap.t) (k : string) :
  ~ In k (map fst pairs) ->
  JsMap.get (fold_left (fun m kv => JsMap.set m (fst kv) (snd kv)) pairs m) k
  = JsMap.get m k.
Proof.
  revert m; induction pairs as [|[k' v'] pairs IH]; intros m Hk; simpl in *.
  - reflexivity.
  - rewrite IH by tauto. apply map_get_set_other. intros ->. tauto.
Qed.

Lemma merge_later_shard_wins (rs : list PartialResult.t) (r : PartialResult.t)
    (pairs : list (string * string)) (k v : string) :
  PartialResult.renames r = Some (pairs ++ [(k, v)]) ->
  JsMap.get (fold_left CheckpointManager.mergeResult (rs ++ [r]) JsMap.empty) k
  = Some v.
Proof.
  intros Hr. rewrite fold_left_app. simpl.
  unfold CheckpointManager.mergeResult at 1. rewrite Hr. apply fold_set_last.
Qed.

End Merge.

(** The cases of checkpoint.test.ts. *)
Example test_save_and_load_checkpoint :
  CheckpointManager.loadCheckpoint
    (CheckpointManager.saveCheckpoint Runs.testData Toy.freshWorld)
  = Some Runs.testData.
Proof. reflexivity. Qed.

Example test_detect_and_clear_checkpoint :
  CheckpointManager.hasCheckpoint Toy.freshWorld = false
  /\ CheckpointManager.hasCheckpoint
       (CheckpointManager.saveCheckpoint Runs.testData Toy.freshWorld) = true
  /\ CheckpointManager.hasCheckpoint
       (CheckpointManager.clearCheckpoint
          (CheckpointManager.saveCheckpoint Runs.testData Toy.freshWorld)) = false.
Proof. repeat split. Qed.

Example test_merge_partial_results :
  CheckpointManager.loadPartialResults Runs.twoShardsWorld
  = [Runs.pairsShard [("a", "array"); ("b", "buffer")];
     Runs.pairsShard [("c", "cache"); ("d", "data")]]
  /\ CheckpointManager.mergePartialResults Runs.twoShardsWorld
     = [("a", "array"); ("b", "buffer"); ("c", "cache"); ("d", "data")].
Proof. split; vm_compute; reflexivity. Qed.

(** C1, at a failing input: the shards the orchestrator writes after its
    accepted renames (original name, new name, timestamp) have no [renames]
    field, which is the only field [mergePartialResults] reads.  After the
    run on [var a=1,b=a+1,c=b;] the rename map has two entries and two
    shards are on disk, and the merged mapping is empty. *)
Theorem mergePartialResults_misses_rename_shards :
  let w := exit_world (snd Runs.threeVarsRun) in
  exit_renamesMap (snd Runs.threeVarsRun) = [("a", "alpha"); ("b", "beta")]
  /\ map snd (dirEntries (store w))
     = [Some (renameShard "alpha" "alpha" 1001);
        Some (renameShard "beta" "beta" 1004)]
  /\ CheckpointManager.mergePartialResults w = JsMap.empty
  /\ (forall originalName newName t file,
        CheckpointManager.mergePartialResults
          (mkWorld (mkStore None
                      [(String.append "partial_" file,
                        Some (renameShard originalName newName t))] None) 0 [])
        = JsMap.empty).
Proof.
  repeat split.
  intros originalName newName t file.
  unfold CheckpointManager.mergePartialResults, CheckpointManager.loadPartialResults.
  destruct file; reflexivity.
Qed.

(* ====================================================================== *)
(** * One binding: the body of the loop *)
(* ====================================================================== *)

Section Body.

Variable B : Babel.
Variable O : Type.
Variable visitor : Visitor O.
Variable clock : nat -> Z.
Variable W : Z.
Variable onProgress : bool.
Variable options : option VisitOptions.

Abbreviation State := (VisitState B O).

(** [saveProgress] writes the record of the current state and reads the
    clock once. *)
Lemma saveProgress_spec (st : State) :
  exists st',
    saveProgress clock st = (Returned tt, st')
    /\ ast st' = ast st
    /\ processedIdentifiers st' = processedIdentifiers st
    /\ renamesMap st' = renamesMap st
    /\ renames st' = renames st
    /\ visited st' = visited st
    /\ processedCount st' = processedCount st
    /\ oracle st' = oracle st
    /\ trace (world st')
       = trace (world st) ++ [CheckpointWritten (progressRecord st (clock (ticks (world st))))]
    /\ checkpointFile (store (world st'))
       = Some (progressRecord st (clock (ticks (world st))))
    /\ dirEntries (store (world st')) = dirEntries (store (world st))
    /\ mappingsFile (store (world st')) = mappingsFile (store (world st)).
Proof.
  eexists. split; [reflexivity|]. simpl. repeat split; reflexivity.
Qed.

(** Lines 110 to 126. *)
Lemma account_spec (n : nat) (path : NodePath B) (st : State) :
  exists st',
    account clock onProgress options n path st = (Returned tt, st')
    /\ ast st' = ast st
    /\ processedIdentifiers st'
       = JsSet.add (processedIdentifiers st) (node_name B (ast st) path)
    /\ renamesMap st' = renamesMap st
    /\ renames st' = renames st
    /\ visited st' = JsSet.add (visited st) (node_name B (ast st) path)
    /\ processedCount st' = S (processedCount st)
    /\ oracle st' = oracle st
    /\ dirEntries (store (world st')) = dirEntries (store (world st))
    /\ mappingsFile (store (world st')) = mappingsFile (store (world st))
    /\ trace (world st')
       = trace (world st)
         ++ (if onProgress then [ProgressReported (S (processedCount st)) n] else [])
         ++ (if hasManager options && (S (processedCount st) mod 5 =? 0)%nat
             then [CheckpointWritten (progressRecord st' (clock (ticks (world st))))]
             else [])
    /\ checkpointFile (store (world st'))
       = (if hasManager options && (S (processedCount st) mod 5 =? 0)%nat
          then Some (progressRecord st' (clock (ticks (world st))))
          else checkpointFile (store (world st))).
Proof.
  unfold account, bind, get, getState, modify, when, onWorld, saveProgress, dateNow.
  cbn -[Nat.modulo Nat.eqb].
  destruct onProgress, (hasManager options),
    (S (processedCount st) mod 5 =? 0)%nat;
    cbn -[Nat.modulo Nat.eqb];
    (eexists; split; [reflexivity|]);
    cbn -[Nat.modulo Nat.eqb];
    rewrite ?app_nil_r, <- ?app_assoc;
    repeat split; reflexivity.
Qed.

(** Lines 89 to 107, when [scope.rename] throws: the pair is already in
    the rename map. *)
Lemma acceptRename_throws (path : NodePath B) (renamed : string) (st : State) (e : JsError) :
  let name := node_name B (ast st) path in
  let safeRenamed := resolveCollisions st path (toIdentifier B renamed) in
  scope_rename B (ast st) path name safeRenamed = Thrown e ->
  acceptRename clock options path renamed st
  = (Thrown e, recordRename name safeRenamed st).
Proof.
  intros name safeRenamed Hr.
  unfold acceptRename, bind, get, getState, modify, applyRename. simpl.
  fold name. fold safeRenamed. rewrite Hr. reflexivity.
Qed.

(** Lines 89 to 107, when the rename goes through.  The shard is written
    when its file name is one the file system takes. *)
Lemma acceptRename_returns (path : NodePath B) (renamed : string) (st : State)
    (a : Ast B) :
  let name := node_name B (ast st) path in
  let safeRenamed := resolveCollisions st path (toIdentifier B renamed) in
  scope_rename B (ast st) path name safeRenamed = Returned a ->
  exists st',
    acceptRename clock options path renamed st = (Returned tt, st')
    /\ ast st' = a
    /\ processedIdentifiers st' = processedIdentifiers st
    /\ renamesMap st' = JsMap.set (renamesMap st) name safeRenamed
    /\ renames st' = JsSet.add (renames st) safeRenamed
    /\ visited st' = visited st
    /\ processedCount st' = processedCount st
    /\ oracle st' = oracle st
    /\ checkpointFile (store (world st')) = checkpointFile (store (world st))
    /\ mappingsFile (store (world st')) = mappingsFile (store (world st))
    /\ (let t := ticks (world st) in
        let shard := renameShard (node_name B a path) safeRenamed (clock (S t)) in
        let file := renameShardFile (node_name B a path) (clock t) (clock (S (S t))) in
        if hasManager options then
          if CheckpointManager.writable file then
            trace (world st') = trace (world st) ++ [ShardWritten file shard]
            /\ dirEntries (store (world st'))
               = writeEntry file (Some shard) (dirEntries (store (world st)))
          else
            trace (world st') = trace (world st)
            /\ dirEntries (store (world st')) = dirEntries (store (world st))
        else world st' = world st).
Proof.
  intros name safeRenamed Hr.
  unfold acceptRename, bind, get, getState, modify, applyRename, when.
  cbn [fst snd ast recordRename]. fold name. fold safeRenamed. rewrite Hr.
  destruct (hasManager options).
  - unfold dateNow, onWorld, modify, CheckpointManager.dateNow,
      CheckpointManager.savePartialResults, CheckpointManager.ensureCheckpointDir.
    cbn -[CheckpointManager.writable CheckpointManager.resultsFile JsString.of_number
          String.append writeEntry].
    change (CheckpointManager.resultsFile _ _)
      with (renameShardFile (node_name B a path) (clock (ticks (world st)))
              (clock (S (S (ticks (world st)))))).
    destruct (CheckpointManager.writable _);
      (eexists; split; [reflexivity|]); cbn; repeat split; reflexivity.
  - eexists. split; [reflexivity|]. cbn. repeat split; reflexivity.
Qed.

(** The five ways through the body of the loop. *)
Lemma visitBinding_visited (n : nat) (path : NodePath B) (st : State) :
  hasVisited B (ast st) path (visited st) = true ->
  visitBinding visitor clock W onProgress options n path st = (Returned tt, st).
Proof.
  intros H. unfold visitBinding, bind, get, getState. simpl. now rewrite H.
Qed.

Lemma visitBinding_not_identifier (n : nat) (path : NodePath B) (st : State) :
  hasVisited B (ast st) path (visited st) = false ->
  node_isIdentifier B (ast st) path = false ->
  visitBinding visitor clock W onProgress options n path st
  = (Thrown "No identifiers found", st).
Proof.
  intros H1 H2. unfold visitBinding, bind, get, getState. simpl.
  now rewrite H1, H2.
Qed.

Lemma visitBinding_oracle_throws (n : nat) (path : NodePath B) (st : State)
    (e : JsError) (o : O) :
  let name := node_name B (ast st) path in
  let surroundingCode := scopeToString B (ast st) path W in
  hasVisited B (ast st) path (visited st) = false ->
  node_isIdentifier B (ast st) path = true ->
  visitor name surroundingCode (oracle st) = (Thrown e, o) ->
  visitBinding visitor clock W onProgress options n path st
  = (Thrown e, afterOracle st name surroundingCode o).
Proof.
  intros name code H1 H2 Hv.
  unfold visitBinding, bind, get, getState, callVisitor. simpl.
  rewrite H1, H2. simpl. fold name. fold code. rewrite Hv. reflexivity.
Qed.

Lemma visitBinding_oracle_returns (n : nat) (path : NodePath B) (st : State)
    (renamed : string) (o : O) :
  let name := node_name B (ast st) path in
  let surroundingCode := scopeToString B (ast st) path W in
  hasVisited B (ast st) path (visited st) = false ->
  node_isIdentifier B (ast st) path = true ->
  visitor name surroundingCode (oracle st) = (Returned renamed, o) ->
  visitBinding visitor clock W onProgress options n path st
  = bind
      (when (negb (String.eqb renamed name))
         (acceptRename clock options path renamed))
      (fun _ => account clock onProgress options n path)
      (afterOracle st name surroundingCode o).
Proof.
  intros name code H1 H2 Hv.
  unfold visitBinding, get, getState, callVisitor.
  unfold bind at 1. simpl. rewrite H1, H2. simpl.
  unfold bind at 1. fold name. fold code. rewrite Hv. reflexivity.
Qed.

End Body.

(* ====================================================================== *)
(** * Collision resolution (lines 88 to 98) *)
(* ====================================================================== *)

Section Collisions.

(** The loop stops at the first candidate that is not taken. *)
Lemma prefixWhileTaken_first_free (taken : string -> bool) (k : nat) :
  forall (fuel : nat) (s : string),
    k < fuel ->
    taken (JsString.underscores k s) = false ->
    (forall j, j < k -> taken (JsString.underscores j s) = true) ->
    prefixWhileTaken fuel taken s = JsString.underscores k s.
Proof.
  induction k as [|k IH]; intros fuel s Hfuel Hfree Hbelow.
  - destruct fuel as [|fuel]; [lia|]. simpl in *. now rewrite Hfree.
  - destruct fuel as [|fuel]; [lia|].
    pose proof (Hbelow 0 ltac:(lia)) as H0. simpl in H0.
    cbn [prefixWhileTaken]. rewrite H0.
    rewrite (IH fuel (String.append "_" s)).
    + apply underscores_shift.
    + lia.
    + rewrite underscores_shift. exact Hfree.
    + intros j Hj. rewrite underscores_shift. apply (Hbelow (S j)). lia.
Qed.

(** Below any bound, a boolean test on the naturals is true throughout or
    has a least failure. *)
Lemma least_failure (f : nat -> bool) (n : nat) :
  (forall j, j < n -> f j = true)
  \/ (exists k, k < n /\ f k = false /\ forall j, j < k -> f j = true).
Proof.
  induction n as [|n [Hall|(k & Hk & Hf & Hmin)]].
  - left. intros j Hj. lia.
  - destruct (f n) eqn:Hn.
    + left. intros j Hj. destruct (Nat.eq_dec j n) as [->|]; [exact Hn | apply Hall; lia].
    + right. exists n. repeat split; [lia | exact Hn | exact Hall].
  - right. exists k. repeat split; [lia | exact Hf | exact Hmin].
Qed.

(** The candidates grow by one character a round, so more of them than
    there are taken names cannot all be taken. *)
Lemma some_candidate_free (names : list string) (s : string) :
  exists k, k < S (length names)
    /\ existsb (String.eqb (JsString.underscores k s)) names = false
    /\ forall j, j < k -> existsb (String.eqb (JsString.underscores j s)) names = true.
Proof.
  destruct (least_failure
              (fun j => existsb (String.eqb (JsString.underscores j s)) names)
              (S (length names))) as [Hall|Hk]; [exfalso | exact Hk].
  assert (Hincl : incl (map (fun j => JsString.underscores j s) (seq 0 (S (length names))))
                    names).
  { intros x Hx. apply in_map_iff in Hx. destruct Hx as (j & <- & Hj).
    apply in_seq in Hj. specialize (Hall j ltac:(lia)).
    apply existsb_exists in Hall. destruct Hall as (y & Hy & Heq).
    apply String.eqb_eq in Heq. now subst. }
  assert (Hnd : NoDup (map (fun j => JsString.underscores j s) (seq 0 (S (length names))))).
  { apply Injective_map_NoDup; [|apply seq_NoDup].
    intros i j Hij. now apply underscores_inj in Hij. }
  pose proof (NoDup_incl_length Hnd Hincl) as Hlen.
  rewrite length_map, length_seq in Hlen. lia.
Qed.

Variable B : Babel.
Variable O : Type.

Lemma isTaken_existsb (st : VisitState B O) (path : NodePath B) (x : string) :
  isTaken st path x
  = existsb (String.eqb x) (renames st ++ scope_bindingNames B (ast st) path).
Proof. unfold isTaken, JsSet.has, scope_hasBinding. now rewrite existsb_app. Qed.

(** The stored name is the sanitized proposal behind the least number of
    underscores that makes it free: the loop always ends on a free name. *)
Lemma resolveCollisions_spec (st : VisitState B O) (path : NodePath B) (s : string) :
  exists k,
    resolveCollisions st path s = JsString.underscores k s
    /\ isTaken st path (JsString.underscores k s) = false
    /\ forall j, j < k -> isTaken st path (JsString.underscores j s) = true.
Proof.
  destruct (some_candidate_free (renames st ++ scope_bindingNames B (ast st) path) s)
    as (k & Hk & Hfree & Hbelow).
  exists k. rewrite length_app in Hk.
  assert (Hfree' : isTaken st path (JsString.underscores k s) = false)
    by now rewrite isTaken_existsb.
  assert (Hbelow' : forall j, j < k -> isTaken st path (JsString.underscores j s) = true)
    by (intros j Hj; rewrite isTaken_existsb; now apply Hbelow).
  split; [|split; assumption].
  unfold resolveCollisions. now apply prefixWhileTaken_first_free.
Qed.

End Collisions.

Section CollisionSafety.

Variable B : Babel.
Variable O : Type.
Variable visitor : Visitor O.
Variable clock : nat -> Z.
Variable W : Z.
Variable onProgress : bool.
Variable options : option VisitOptions.

(** What the body does to the rename map when the oracle proposes a new
    name: the pair (name, resolved proposal) is set, whether the rename
    then throws or not. *)
Lemma visitBinding_stores (n : nat) (path : NodePath B) (st : VisitState B O)
    (renamed : string) (o : O) :
  let name := node_name B (ast st) path in
  hasVisited B (ast st) path (visited st) = false ->
  node_isIdentifier B (ast st) path = true ->
  visitor name (scopeToString B (ast st) path W) (oracle st) = (Returned renamed, o) ->
  renamed <> name ->
  renamesMap (snd (visitBinding visitor clock W onProgress options n path st))
  = JsMap.set (renamesMap st) name
      (resolveCollisions st path (toIdentifier B renamed)).
Proof.
  intros name Hv Hid Hor Hne.
  rewrite visitBinding_oracle_returns with (renamed := renamed) (o := o) by assumption.
  fold name. apply String.eqb_neq in Hne. rewrite Hne. simpl when.
  set (s1 := afterOracle st name (scopeToString B (ast st) path W) o).
  unfold bind.
  destruct (scope_rename B (ast s1) path (node_name B (ast s1) path)
              (resolveCollisions s1 path (toIdentifier B renamed))) as [a|e] eqn:Hr.
  - destruct (@acceptRename_returns B O clock options path renamed s1 a Hr)
      as (s2 & -> & _ & _ & Hmap & _).
    destruct (@account_spec B O clock onProgress options n path s2)
      as (s3 & -> & _ & _ & Hmap3 & _).
    simpl. rewrite Hmap3, Hmap. reflexivity.
  - rewrite (@acceptRename_throws B O clock options path renamed s1 e Hr). reflexivity.
Qed.

(** What the body of the loop does to the set of accepted targets: it adds
    the target it accepts, if any. *)
Lemma visitBinding_renames (n : nat) (path : NodePath B) (st : VisitState B O)
    (x : string) :
  JsSet.has (renames (snd (visitBinding visitor clock W onProgress options n path st))) x
  = JsSet.has (renames st) x
    || existsb (String.eqb x) (acceptedTarget visitor clock W onProgress options n path st).
Proof.
  unfold acceptedTarget.
  destruct (hasVisited B (ast st) path (visited st)) eqn:Hv.
  { rewrite visitBinding_visited by exact Hv. cbn. now rewrite orb_false_r. }
  destruct (node_isIdentifier B (ast st) path) eqn:Hid.
  2:{ rewrite visitBinding_not_identifier by assumption. cbn. now rewrite orb_false_r. }
  cbn [negb].
  destruct (visitor (node_name B (ast st) path) (scopeToString B (ast st) path W)
              (oracle st)) as [[renamed|e] o] eqn:Hor.
  2:{ rewrite visitBinding_oracle_throws with (e := e) (o := o) by assumption.
      cbn. now rewrite orb_false_r. }
  destruct (String.eqb_spec renamed (node_name B (ast st) path)) as [Heq|Hne].
  - rewrite visitBinding_oracle_returns with (renamed := renamed) (o := o)
      by assumption.
    rewrite Heq, String.eqb_refl. simpl when. unfold bind, ret.
    destruct (@account_spec B O clock onProgress options n path
                (afterOracle st (node_name B (ast st) path)
                   (scopeToString B (ast st) path W) o))
      as (s2 & -> & _ & _ & _ & Hren & _).
    cbn [snd existsb]. rewrite Hren. cbn. now rewrite orb_false_r.
  - rewrite (@visitBinding_stores n path st renamed o Hv Hid Hor Hne).
    rewrite map_get_set_same. cbn [existsb]. rewrite orb_false_r.
    rewrite visitBinding_oracle_returns with (renamed := renamed) (o := o)
      by assumption.
    apply String.eqb_neq in Hne. rewrite Hne. simpl when.
    set (s1 := afterOracle st (node_name B (ast st) path)
                 (scopeToString B (ast st) path W) o).
    unfold bind.
    destruct (scope_rename B (ast s1) path (node_name B (ast s1) path)
                (resolveCollisions s1 path (toIdentifier B renamed))) as [a|e] eqn:Hr.
    + destruct (@acceptRename_returns B O clock options path renamed s1 a Hr)
        as (s2 & -> & _ & _ & _ & Hren & _).
      destruct (@account_spec B O clock onProgress options n path s2)
        as (s3 & -> & _ & _ & _ & Hren3 & _).
      cbn [snd]. rewrite Hren3, Hren. apply set_has_add.
    + rewrite (@acceptRename_throws B O clock options path renamed s1 e Hr).
      cbn [snd recordRename renames]. apply set_has_add.
Qed.

(** The set of accepted targets when the loop has gone through [pre]:
    the set it started from and the targets accepted on the way. *)
Lemma visitFrom_renames (n : nat) (pre : list (NodePath B)) (st0 st : VisitState B O)
    (x : string) :
  visitFrom visitor clock W onProgress options n pre st0 = (Returned tt, st) ->
  JsSet.has (renames st) x
  = JsSet.has (renames st0) x
    || existsb (String.eqb x)
         (acceptedTargets visitor clock W onProgress options n pre st0).
Proof.
  revert st0; induction pre as [|p pre IH]; intros st0 Hrun.
  - cbn in Hrun. injection Hrun as <-. cbn. now rewrite orb_false_r.
  - cbn [visitFrom acceptedTargets] in *. unfold bind in Hrun.
    pose proof (visitBinding_renames n p st0 x) as Hstep.
    destruct (visitBinding visitor clock W onProgress options n p st0)
      as [[[]|e] st1]; [|discriminate].
    cbn [snd] in Hstep.
    rewrite (IH st1 Hrun), Hstep, existsb_app. now rewrite orb_assoc.
Qed.

Lemma existsb_eqb_In (x : string) (l : list string) :
  existsb (String.eqb x) l = true <-> In x l.
Proof.
  rewrite existsb_exists. split.
  - intros (y & Hin & Heq). apply String.eqb_eq in Heq. now subst.
  - intros Hin. exists x. split; [exact Hin | apply String.eqb_refl].
Qed.

(** C3: when the sanitized proposal is taken (it is a rename target
    accepted earlier, one of the checkpoint the run started from or one
    accepted for a binding the loop has gone through, or it is a name bound
    in the binding's scope), the name stored for the binding is the
    sanitized proposal behind [k >= 1] underscores, where [k] is the least
    number of underscores that makes it differ from every target accepted
    earlier and every name bound in the scope.  [st0] is the state in which
    the loop is entered (line 46: the set of accepted targets holds the
    values of the rename map), [pre] are the bindings the loop has gone
    through. *)
Theorem collision_minimal_underscores (n : nat) (pre : list (NodePath B))
    (path : NodePath B) (st0 st : VisitState B O) (renamed : string) (o : O) :
  let name := node_name B (ast st) path in
  let proposal := toIdentifier B renamed in
  let accepted :=
    JsMap.values (renamesMap st0)
    ++ acceptedTargets visitor clock W onProgress options n pre st0 in
  let bound := scope_bindingNames B (ast st) path in
  renames st0 = JsSet.of_list (JsMap.values (renamesMap st0)) ->
  visitFrom visitor clock W onProgress options n pre st0 = (Returned tt, st) ->
  hasVisited B (ast st) path (visited st) = false ->
  node_isIdentifier B (ast st) path = true ->
  visitor name (scopeToString B (ast st) path W) (oracle st) = (Returned renamed, o) ->
  renamed <> name ->
  In proposal accepted \/ In proposal bound ->
  exists k,
    0 < k
    /\ JsMap.get
         (renamesMap (snd (visitBinding visitor clock W onProgress options n path st)))
         name
       = Some (JsString.underscores k proposal)
    /\ ~ In (JsString.underscores k proposal) accepted
    /\ ~ In (JsString.underscores k proposal) bound
    /\ forall j, j < k ->
         In (JsString.underscores j proposal) accepted
         \/ In (JsString.underscores j proposal) bound.
Proof.
  intros name proposal accepted bound Hstart Hpre Hv Hid Hor Hne Htaken.
  assert (Htake : forall c, isTaken st path c = true <-> In c accepted \/ In c bound).
  { intros c. unfold isTaken, scope_hasBinding.
    rewrite (@visitFrom_renames n pre st0 st c Hpre), Hstart, set_has_of_list,
      <- existsb_app.
    rewrite orb_true_iff, !existsb_eqb_In. reflexivity. }
  destruct (resolveCollisions_spec st path proposal) as (k & Hres & Hfree & Hbelow).
  exists k.
  assert (Hk : 0 < k).
  { destruct k as [|k]; [|lia]. apply Htake in Htaken.
    cbn [JsString.underscores] in Hfree. congruence. }
  split; [exact Hk|].
  split.
  - rewrite (@visitBinding_stores n path st renamed o Hv Hid Hor Hne).
    fold name. fold proposal. rewrite Hres. apply map_get_set_same.
  - assert (Hnot : ~ (In (JsString.underscores k proposal) accepted
                      \/ In (JsString.underscores k proposal) bound)).
    { intros H. apply Htake in H. congruence. }
    split; [tauto|]. split; [tauto|].
    intros j Hj. apply Htake, Hbelow, Hj.
Qed.

End CollisionSafety.

Lemma collision_minimal_underscores_witness :
  let B := Toy.babel Programs.twoFunctions in
  let first : NodePath B := Toy.Identifier 1 in
  let second : NodePath B := Toy.Identifier 3 in
  let st0 := Runs.freshState Programs.twoFunctions in
  let st := Cases.afterFirstParameter in
  let accepted :=
    JsMap.values (renamesMap st0)
    ++ acceptedTargets Runs.xOracle Toy.clock 1000 true (Runs.withManager 10) 4
         [first] st0 in
  accepted = ["x"]
  /\ JsMap.get
       (renamesMap (snd (visitBinding Runs.xOracle Toy.clock 1000 true
                           (Runs.withManager 10) 4 second st)))
       "a"
     = Some "_x"
  /\ exists k,
       0 < k
       /\ JsMap.get
            (renamesMap (snd (visitBinding Runs.xOracle Toy.clock 1000 true
                                (Runs.withManager 10) 4 second st)))
            (node_name B (ast st) second)
          = Some (JsString.underscores k (toIdentifier B "x"))
       /\ ~ In (JsString.underscores k (toIdentifier B "x")) accepted
       /\ ~ In (JsString.underscores k (toIdentifier B "x"))
              (scope_bindingNames B (ast st) second)
       /\ forall j, j < k ->
            In (JsString.underscores j (toIdentifier B "x")) accepted
            \/ In (JsString.underscores j (toIdentifier B "x"))
                 (scope_bindingNames B (ast st) second).
Proof.
  intros B first second st0 st accepted.
  assert (Haccepted : accepted = ["x"]) by (vm_compute; reflexivity).
  split; [exact Haccepted|].
  split; [vm_compute; reflexivity|].
  apply (@collision_minimal_underscores B nat Runs.xOracle Toy.clock 1000%Z true
           (Runs.withManager 10) 4 [first] second st0 st "x" 2).
  - reflexivity.
  - vm_compute; reflexivity.
  - vm_compute; reflexivity.
  - reflexivity.
  - vm_compute; reflexivity.
  - vm_compute; discriminate.
  - left. change (In (toIdentifier B "x") accepted). rewrite Haccepted.
    left. reflexivity.
Defined.

(* ====================================================================== *)
(** * Shards (lines 100 to 107) *)
(* ====================================================================== *)

Lemma writeEntry_In (file : string) (data : option PartialResult.t)
    (l : list (string * option PartialResult.t)) :
  In (file, data) (writeEntry file data l).
Proof.
  induction l as [|[n d] l IH]; simpl.
  - now left.
  - destruct (String.eqb_spec n file) as [->|]; [now left | now right].
Qed.

Lemma oracleNames_app (evs1 evs2 : list Event) :
  oracleNames (evs1 ++ evs2) = oracleNames evs1 ++ oracleNames evs2.
Proof.
  induction evs1 as [|ev evs1 IH]; [reflexivity|].
  destruct ev; simpl; rewrite ?IH; reflexivity.
Qed.

Lemma checkpointsWritten_app (evs1 evs2 : list Event) :
  checkpointsWritten (evs1 ++ evs2) = checkpointsWritten evs1 ++ checkpointsWritten evs2.
Proof.
  induction evs1 as [|ev evs1 IH]; [reflexivity|].
  destruct ev; simpl; rewrite ?IH; reflexivity.
Qed.

Section Shards.

Variable B : Babel.
Variable O : Type.
Variable visitor : Visitor O.
Variable clock : nat -> Z.
Variable W : Z.
Variable onProgress : bool.
Variable options : option VisitOptions.

(** C7, as the code has it by design: with a checkpoint manager, a
    visited binding whose proposal differs from its name and whose rename
    is applied gets one shard for that rename, written right after the
    rename, before anything else of this binding is recorded and before the
    oracle is asked about the next binding, provided the write succeeds
    (the name of the shard's file is one the file system takes; otherwise
    the failure is logged and nothing is written).  The shard holds the
    stored new name and a timestamp.  A binding whose name the oracle
    leaves unchanged gets no shard. *)
Theorem shard_for_accepted_rename (n : nat) (path : NodePath B)
    (st : VisitState B O) (renamed : string) (o : O) :
  let name := node_name B (ast st) path in
  let surroundingCode := scopeToString B (ast st) path W in
  let safeRenamed := resolveCollisions st path (toIdentifier B renamed) in
  let result := visitBinding visitor clock W onProgress options n path st in
  hasManager options = true ->
  hasVisited B (ast st) path (visited st) = false ->
  node_isIdentifier B (ast st) path = true ->
  visitor name surroundingCode (oracle st) = (Returned renamed, o) ->
  (renamed = name ->
     fst result = Returned tt
     /\ dirEntries (store (world (snd result))) = dirEntries (store (world st))
     /\ exists rest,
          trace (world (snd result))
          = trace (world st) ++ OracleCalled name surroundingCode :: rest
          /\ filter isShard rest = []
          /\ oracleNames rest = [])
  /\ (renamed <> name ->
      forall a, scope_rename B (ast st) path name safeRenamed = Returned a ->
        let file :=
          renameShardFile (node_name B a path) (clock (ticks (world st)))
            (clock (S (S (ticks (world st))))) in
        fst result = Returned tt
        /\ exists shard rest,
             PartialResult.newName shard = Some safeRenamed
             /\ PartialResult.timestamp shard = Some (clock (S (ticks (world st))))
             /\ filter isShard rest = []
             /\ oracleNames rest = []
             /\ if CheckpointManager.writable file then
                  trace (world (snd result))
                  = trace (world st)
                    ++ OracleCalled name surroundingCode
                       :: ShardWritten file shard :: rest
                  /\ In (file, Some shard) (dirEntries (store (world (snd result))))
                else
                  trace (world (snd result))
                  = trace (world st) ++ OracleCalled name surroundingCode :: rest
                  /\ dirEntries (store (world (snd result)))
                     = dirEntries (store (world st))).
Proof.
  intros name code safeRenamed result Hm Hv Hid Hor.
  unfold result.
  rewrite visitBinding_oracle_returns with (renamed := renamed) (o := o) by assumption.
  fold name. fold code.
  set (s1 := afterOracle st name code o).
  assert (Htail : forall (c : bool) (k : nat) (r : SerializedCheckpoint.t),
    let tail := (if onProgress then [ProgressReported k n] else [])
                ++ (if c then [CheckpointWritten r] else []) in
    filter isShard tail = [] /\ oracleNames tail = []).
  { intros c k r. destruct onProgress, c; split; reflexivity. }
  split.
  - intros ->. rewrite String.eqb_refl. simpl when. unfold bind, ret.
    destruct (@account_spec B O clock onProgress options n path s1)
      as (s2 & -> & _ & _ & _ & _ & _ & _ & _ & Hdir & _ & Htr & _).
    cbn [fst snd]. split; [reflexivity|]. split; [rewrite Hdir; reflexivity|].
    eexists. rewrite Htr. cbn [s1 afterOracle setOracle setWorld world trace emit].
    rewrite <- app_assoc. cbn [app].
    split; [reflexivity|]. apply Htail.
  - intros Hne a Hr. cbv zeta.
    set (file := renameShardFile (node_name B a path) (clock (ticks (world st)))
                   (clock (S (S (ticks (world st)))))).
    apply String.eqb_neq in Hne. rewrite Hne. simpl when.
    unfold bind.
    destruct (@acceptRename_returns B O clock options path renamed s1 a Hr)
      as (s2 & -> & _ & _ & _ & _ & _ & _ & _ & _ & _ & Hshard).
    rewrite Hm in Hshard. cbn zeta in Hshard.
    change (ticks (world s1)) with (ticks (world st)) in Hshard.
    fold file in Hshard.
    destruct (@account_spec B O clock onProgress options n path s2)
      as (s3 & -> & _ & _ & _ & _ & _ & _ & _ & Hdir3 & _ & Htr3 & _).
    cbn [fst snd]. split; [reflexivity|].
    exists (renameShard (node_name B a path)
              (resolveCollisions s1 path (toIdentifier B renamed))
              (clock (S (ticks (world st))))).
    match type of Htr3 with _ = _ ++ ?tail => exists tail end.
    split; [reflexivity|]. split; [reflexivity|].
    split; [apply Htail|]. split; [apply Htail|].
    destruct (CheckpointManager.writable file); destruct Hshard as [Htr2 Hdir2].
    + split.
      * rewrite Htr3, Htr2.
        cbn [s1 afterOracle setOracle setWorld world trace emit].
        rewrite <- !app_assoc. reflexivity.
      * rewrite Hdir3, Hdir2. apply writeEntry_In.
    + split.
      * rewrite Htr3, Htr2.
        cbn [s1 afterOracle setOracle setWorld world trace emit].
        rewrite <- !app_assoc. reflexivity.
      * rewrite Hdir3, Hdir2. reflexivity.
Qed.

End Shards.

Lemma shard_for_accepted_rename_witness :
  let B := Toy.babel Programs.threeVars in
  let result :=
    visitBinding Runs.namesOracle Toy.clock 1000 true (Runs.withManager 10) 3
      (Toy.Identifier 0 : NodePath B) (Runs.freshState Programs.threeVars) in
  fst result = Returned tt
  /\ exists shard rest,
       PartialResult.newName shard = Some "alpha"
       /\ PartialResult.timestamp shard = Some 1001%Z
       /\ filter isShard rest = []
       /\ oracleNames rest = []
       /\ trace (world (snd result))
          = OracleCalled "a" (Toy.generate Programs.threeVars)
            :: ShardWritten "partial_rename_1000_alpha_1002.json" shard :: rest
       /\ In ("partial_rename_1000_alpha_1002.json", Some shard)
            (dirEntries (store (world (snd result)))).
Proof.
  intros B result.
  destruct (proj2 (@shard_for_accepted_rename B nat Runs.namesOracle Toy.clock 1000%Z
                     true (Runs.withManager 10) 3 (Toy.Identifier 0)
                     (Runs.freshState Programs.threeVars) "alpha" 1
                     eq_refl eq_refl eq_refl eq_refl)
              ltac:(discriminate)
              (Toy.mkProgram Programs.threeVarsSource (Toy.nodes Programs.threeVars)
                 (map (Toy.renameBinding 0 "a" "alpha")
                    (Toy.bindings Programs.threeVars)))
              ltac:(vm_compute; reflexivity))
    as (Hret & shard & rest & Hname & Htime & Hshards & Hnames & Hwritten).
  match type of Hwritten with
  | if ?c then _ else _ =>
      assert (Hw : c = true) by (vm_compute; reflexivity); rewrite Hw in Hwritten
  end.
  destruct Hwritten as [Htrace Hin].
  split; [exact Hret|].
  exists shard, rest.
  split; [rewrite Hname; vm_compute; reflexivity|].
  split; [rewrite Htime; vm_compute; reflexivity|].
  split; [exact Hshards|]. split; [exact Hnames|].
  split.
  - fold result in Htrace. rewrite Htrace. vm_compute. reflexivity.
  - exact Hin.
Defined.

(** C7 as stated fails.  [c] of [var a=1,b=a+1,c=b;] is visited, the
    oracle answers [c], the body returns, and no shard has been written.
    And when the oracle proposes a name of 250 characters for [a], the
    rename is applied and stored and no shard is written: the name of the
    shard's file is longer than the file system takes. *)
Lemma shard_for_every_binding_counterexample :
  let B := Toy.babel Programs.threeVars in
  let result :=
    visitBinding Runs.namesOracle Toy.clock 1000 true (Runs.withManager 10) 3
      (Toy.Identifier 2 : NodePath B) (Runs.freshState Programs.threeVars) in
  let long :=
    visitBinding Cases.longOracle Toy.clock 1000 true (Runs.withManager 10) 3
      (Toy.Identifier 0 : NodePath B) (Runs.freshState Programs.threeVars) in
  (fst result = Returned tt
   /\ trace (world (snd result))
      = [OracleCalled "c" (Toy.generate Programs.threeVars); ProgressReported 1 3]
   /\ processedIdentifiers (snd result) = ["c"]
   /\ dirEntries (store (world (snd result))) = []
   /\ ~ exists file data, In (ShardWritten file data) (trace (world (snd result))))
  /\ (fst long = Returned tt
      /\ JsMap.get (renamesMap (snd long)) "a" = Some Cases.longProposal
      /\ processedIdentifiers (snd long) = [Cases.longProposal]
      /\ dirEntries (store (world (snd long))) = []
      /\ ~ exists file data, In (ShardWritten file data) (trace (world (snd long)))).
Proof.
  intros B result long.
  assert (Hresult : trace (world (snd result))
                    = [OracleCalled "c" (Toy.generate Programs.threeVars);
                       ProgressReported 1 3]) by (vm_compute; reflexivity).
  assert (Hlong : trace (world (snd long))
                  = [OracleCalled "a" (Toy.generate Programs.threeVars);
                     ProgressReported 1 3]) by (vm_compute; reflexivity).
  split.
  - split; [vm_compute; reflexivity|]. split; [exact Hresult|].
    split; [vm_compute; reflexivity|]. split; [vm_compute; reflexivity|].
    intros (file & data & Hin). rewrite Hresult in Hin.
    destruct Hin as [H|[H|[]]]; discriminate.
  - split; [vm_compute; reflexivity|]. split; [vm_compute; reflexivity|].
    split; [vm_compute; reflexivity|]. split; [vm_compute; reflexivity|].
    intros (file & data & Hin). rewrite Hlong in Hin.
    destruct Hin as [H|[H|[]]]; discriminate.
Qed.
(* ====================================================================== *)
(** * The periodic checkpoint (lines 116 to 126) *)
(* ====================================================================== *)

(** The run does not depend on the save interval of the options: the
    function reads it and never uses it. *)
Lemma saveInterval_unused (B : Babel) (O : Type) (visitor : Visitor O)
    (clock : nat -> Z) (W : Z) (onProgress : bool)
    (manager : option CheckpointManager.t) (interval1 interval2 : option nat)
    (code : string) (o : O) (w : World) :
  visitAllIdentifiersWithCheckpoint B visitor clock W onProgress
    (Some (mkVisitOptions manager interval1)) code o w
  = visitAllIdentifiersWithCheckpoint B visitor clock W onProgress
      (Some (mkVisitOptions manager interval2)) code o w.
Proof. reflexivity. Qed.

(** C5, at a failing input: the local plugin passes [saveInterval: 10],
    and on a program of five bindings the orchestrator writes a checkpoint
    after the fifth, with identifier index 5: the test of line 117 is
    [processedCount % 5 === 0], whatever the interval. *)
Theorem periodic_checkpoint_every_five :
  let w := snd (snd Runs.fiveVarsLocalRun) in
  fst Runs.fiveVarsLocalRun = Returned (Toy.generate Programs.fiveVars)
  /\ oracleNames (trace w) = ["a"; "b"; "c"; "d"; "e"]
  /\ checkpointsWritten (trace w)
     = [SerializedCheckpoint.make ["a"; "b"; "c"; "d"; "e"] [] 0 5 1000].
Proof. repeat split. Qed.

(* ====================================================================== *)
(** * The loop and its [catch] (lines 70 to 141) *)
(* ====================================================================== *)

Section Loop.

Variable B : Babel.
Variable O : Type.
Variable visitor : Visitor O.
Variable clock : nat -> Z.
Variable W : Z.
Variable onProgress : bool.
Variable options : option VisitOptions.

Abbreviation body := (visitBinding visitor clock W onProgress options).
Abbreviation loop := (visitFrom visitor clock W onProgress options).

Lemma visitFrom_app (n : nat) (l1 l2 : list (NodePath B)) (st : VisitState B O) :
  loop n (l1 ++ l2) st
  = match loop n l1 st with
    | (Returned _, st1) => loop n l2 st1
    | (Thrown e, st1) => (Thrown e, st1)
    end.
Proof.
  revert st; induction l1 as [|p l1 IH]; intros st; [reflexivity|].
  cbn [app visitFrom]. unfold bind.
  destruct (body n p st) as [[[]|e] st1]; [apply IH | reflexivity].
Qed.

Lemma visitFrom_throws_at (n : nat) (pre post : list (NodePath B))
    (path : NodePath B) (st0 st st' : VisitState B O) (e : JsError) :
  loop n pre st0 = (Returned tt, st) ->
  body n path st = (Thrown e, st') ->
  loop n (pre ++ path :: post) st0 = (Thrown e, st').
Proof.
  intros Hpre Hbody. rewrite visitFrom_app, Hpre.
  cbn [visitFrom]. unfold bind. now rewrite Hbody.
Qed.

(** X17: when the oracle throws at a binding, the [catch] block writes the
    record of the state in which that binding was reached and throws the
    same error again: the processed set, the rename map and the count are
    those of the bindings before it. *)
Lemma visitLoop_oracle_failure (scopes pre post : list (NodePath B))
    (startIndex : nat) (path : NodePath B) (st0 st : VisitState B O)
    (e : JsError) (o : O) :
  hasManager options = true ->
  skipn startIndex scopes = pre ++ path :: post ->
  loop (length scopes) pre st0 = (Returned tt, st) ->
  hasVisited B (ast st) path (visited st) = false ->
  node_isIdentifier B (ast st) path = true ->
  visitor (node_name B (ast st) path) (scopeToString B (ast st) path W) (oracle st)
  = (Thrown e, o) ->
  exists st',
    visitLoop visitor clock W onProgress options scopes startIndex st0 = (Thrown e, st')
    /\ checkpointFile (store (world st'))
       = Some (progressRecord st (clock (ticks (world st))))
    /\ processedIdentifiers st' = processedIdentifiers st
    /\ renamesMap st' = renamesMap st
    /\ processedCount st' = processedCount st.
Proof.
  intros Hm Hskip Hpre Hv Hid Hor.
  unfold visitLoop, tryCatch. rewrite Hskip.
  erewrite visitFrom_throws_at;
    [| exact Hpre | apply visitBinding_oracle_throws; eassumption].
  rewrite Hm. simpl when. unfold bind.
  match goal with |- context [saveProgress clock ?s] =>
    destruct (saveProgress_spec clock s)
      as (st' & -> & _ & Hp & Hr & _ & _ & Hc & _ & _ & Hf & _)
  end.
  exists st'. split; [reflexivity|]. rewrite Hf, Hp, Hr, Hc.
  repeat split; reflexivity.
Qed.

(** When [scope.rename] throws at a binding, the record the [catch] block
    writes already has the pair of that binding in its rename map. *)
Lemma visitLoop_rename_failure (scopes pre post : list (NodePath B))
    (startIndex : nat) (path : NodePath B) (st0 st : VisitState B O)
    (renamed : string) (e : JsError) (o : O) :
  let name := node_name B (ast st) path in
  let safeRenamed := resolveCollisions st path (toIdentifier B renamed) in
  hasManager options = true ->
  skipn startIndex scopes = pre ++ path :: post ->
  loop (length scopes) pre st0 = (Returned tt, st) ->
  hasVisited B (ast st) path (visited st) = false ->
  node_isIdentifier B (ast st) path = true ->
  visitor name (scopeToString B (ast st) path W) (oracle st) = (Returned renamed, o) ->
  renamed <> name ->
  scope_rename B (ast st) path name safeRenamed = Thrown e ->
  exists st',
    visitLoop visitor clock W onProgress options scopes startIndex st0 = (Thrown e, st')
    /\ SerializedCheckpoint.renames
         (match checkpointFile (store (world st')) with
          | Some data => data
          | None => SerializedCheckpoint.make [] [] 0 0 0
          end)
       = JsMap.set (renamesMap st) name safeRenamed
    /\ processedIdentifiers st' = processedIdentifiers st
    /\ processedCount st' = processedCount st.
Proof.
  intros name safeRenamed Hm Hskip Hpre Hv Hid Hor Hne Hr.
  assert (Hbody : body (length scopes) path st
                  = (Thrown e, recordRename name safeRenamed
                                 (afterOracle st name (scopeToString B (ast st) path W) o))).
  { rewrite visitBinding_oracle_returns with (renamed := renamed) (o := o) by assumption.
    fold name. apply String.eqb_neq in Hne. rewrite Hne. simpl when. unfold bind.
    rewrite acceptRename_throws with (e := e) by exact Hr. reflexivity. }
  unfold visitLoop, tryCatch. rewrite Hskip.
  erewrite visitFrom_throws_at; [| exact Hpre | exact Hbody].
  rewrite Hm. simpl when. unfold bind.
  match goal with |- context [saveProgress clock ?s] =>
    destruct (saveProgress_spec clock s)
      as (st' & -> & _ & Hp & Hrm & _ & _ & Hc & _ & _ & Hf & _)
  end.
  exists st'. split; [reflexivity|]. rewrite Hf, Hp, Hc.
  repeat split; reflexivity.
Qed.

End Loop.

(** C6, at a failing input: on [var a=1,b=2;] the oracle answers for both
    bindings and the rename of [b] throws.  The error is thrown on, and the
    checkpoint written on the way has the processed set and the index of
    the one binding done before, and a rename map that already holds the
    pair of the failing binding [b]. *)
Theorem error_checkpoint_holds_failing_rename :
  fst Runs.lockedRun = Thrown "cannot rename"
  /\ checkpointFile (store (exit_world (snd Runs.lockedRun)))
     = Some (SerializedCheckpoint.make ["alpha"]
               [("a", "alpha"); ("b", "beta")] 0 1 1003)
  /\ oracleNames (trace (exit_world (snd Runs.lockedRun))) = ["a"; "b"].
Proof. repeat split. Qed.

(** The oracle's failure, on [var a=1,b=a+1,c=b;]: the record is that of
    the one binding done before. *)
Example error_checkpoint_oracle_failure :
  fst Runs.oracleFailureRun = Thrown "oracle failure"
  /\ checkpointFile (store (exit_world (snd Runs.oracleFailureRun)))
     = Some (SerializedCheckpoint.make ["alpha"] [("a", "alpha")] 0 1 1003).
Proof. repeat split. Qed.

(* ====================================================================== *)
(** * What every run keeps *)
(* ====================================================================== *)

Section Invariants.

Variable B : Babel.
Variable O : Type.
Variable visitor : Visitor O.
Variable clock : nat -> Z.
Variable W : Z.
Variable onProgress : bool.
Variable options : option VisitOptions.

Abbreviation State := (VisitState B O).

Lemma movedOn_refl (st : State) : movedOn st st.
Proof.
  exists []. rewrite app_nil_r. simpl.
  repeat split; try tauto. constructor.
Qed.

Lemma movedOn_trans (st1 st2 st3 : State) :
  movedOn st1 st2 -> movedOn st2 st3 -> movedOn st1 st3.
Proof.
  intros (evs1 & Ht1 & Hc1 & Hv1 & Hn1 & Hg1 & Hh1)
         (evs2 & Ht2 & Hc2 & Hv2 & Hn2 & Hg2 & Hh2).
  exists (evs1 ++ evs2).
  split; [rewrite Ht2, Ht1; symmetry; apply app_assoc|].
  split; [rewrite checkpointsWritten_app; apply Forall_app; split; assumption|].
  split; [intros x Hx; apply Hv2, Hv1, Hx|].
  split.
  { intros name Hin. rewrite oracleNames_app in Hin. apply in_app_or in Hin.
    destruct Hin as [Hin|Hin]; [now apply Hn1|].
    specialize (Hn2 name Hin).
    destruct (JsSet.has (visited st1) name) eqn:E; [|reflexivity].
    apply Hv1 in E. congruence. }
  split.
  { intros k Hk. rewrite oracleNames_app in Hk.
    rewrite Hg2, Hg1; [reflexivity| |]; intros Hin; apply Hk, in_or_app; tauto. }
  intros k Hk. apply Hh2, Hh1, Hk.
Qed.

(** A step that only adds events that are neither oracle calls nor
    checkpoints with another file index, and leaves the visited set and the
    rename map alone or larger. *)
Lemma movedOn_quiet (st st' : State) (evs : list Event) :
  trace (world st') = trace (world st) ++ evs ->
  oracleNames evs = [] ->
  Forall (fun data => SerializedCheckpoint.currentFileIndex data = 0)
    (checkpointsWritten evs) ->
  (forall x, JsSet.has (visited st) x = true -> JsSet.has (visited st') x = true) ->
  renamesMap st' = renamesMap st ->
  movedOn st st'.
Proof.
  intros Ht Hn Hc Hv Hm. exists evs. rewrite Hn, Hm.
  repeat split; try assumption; try tauto. intros name [].
Qed.

(** The oracle is asked about a name that is not visited, and the rename
    map is then left alone or set at that name. *)
Lemma movedOn_asked (st st' : State) (name code : string) (evs : list Event) :
  JsSet.has (visited st) name = false ->
  trace (world st') = trace (world st) ++ OracleCalled name code :: evs ->
  oracleNames evs = [] ->
  checkpointsWritten evs = [] ->
  visited st' = visited st ->
  (renamesMap st' = renamesMap st
   \/ exists v, renamesMap st' = JsMap.set (renamesMap st) name v) ->
  movedOn st st'.
Proof.
  intros Hnv Ht Hn Hc Hv Hm. exists (OracleCalled name code :: evs).
  simpl. rewrite Hn, Hc, Hv.
  split; [exact Ht|]. split; [constructor|]. split; [tauto|].
  split; [intros x [<-|[]]; exact Hnv|].
  split.
  - intros k Hk. destruct Hm as [->|[v ->]]; [reflexivity|].
    apply map_get_set_other. intros ->. apply Hk. now left.
  - intros k Hk. destruct Hm as [->|[v ->]]; [exact Hk|].
    now apply map_has_set.
Qed.

Lemma account_movedOn (n : nat) (path : NodePath B) (st : State) :
  movedOn st (snd (account clock onProgress options n path st)).
Proof.
  destruct (account_spec clock onProgress options n path st)
    as (st' & -> & _ & _ & Hm & _ & Hv & _ & _ & _ & _ & Ht & _).
  cbn [snd]. eapply movedOn_quiet; [exact Ht | | | | exact Hm].
  - destruct onProgress, (hasManager options && (S (processedCount st) mod 5 =? 0)%nat);
      reflexivity.
  - destruct onProgress, (hasManager options && (S (processedCount st) mod 5 =? 0)%nat);
      cbn [app checkpointsWritten]; repeat constructor.
  - intros x Hx. rewrite Hv. now apply set_has_add_mono.
Qed.

Lemma saveProgress_movedOn (st : State) :
  movedOn st (snd (saveProgress clock st)).
Proof.
  destruct (saveProgress_spec clock st)
    as (st' & -> & _ & _ & Hm & _ & Hv & _ & _ & Ht & _).
  cbn [snd]. eapply movedOn_quiet; [exact Ht | reflexivity | | | exact Hm].
  - repeat constructor.
  - intros x Hx. now rewrite Hv.
Qed.

Lemma visitBinding_movedOn (n : nat) (path : NodePath B) (st : State) :
  movedOn st (snd (visitBinding visitor clock W onProgress options n path st)).
Proof.
  destruct (hasVisited B (ast st) path (visited st)) eqn:Hv.
  { rewrite visitBinding_visited by exact Hv. apply movedOn_refl. }
  destruct (node_isIdentifier B (ast st) path) eqn:Hid.
  2:{ rewrite visitBinding_not_identifier by assumption. apply movedOn_refl. }
  set (name := node_name B (ast st) path).
  set (code := scopeToString B (ast st) path W).
  destruct (visitor name code (oracle st)) as [[renamed|e] o] eqn:Hor.
  2:{ rewrite visitBinding_oracle_throws with (e := e) (o := o) by assumption.
      cbn [snd]. eapply movedOn_asked with (evs := []);
        try reflexivity; [exact Hv | now left]. }
  rewrite visitBinding_oracle_returns with (renamed := renamed) (o := o) by assumption.
  fold name. fold code.
  set (s1 := afterOracle st name code o).
  destruct (String.eqb renamed name) eqn:Heq; simpl when; unfold bind.
  - unfold ret.
    eapply movedOn_trans; [|apply account_movedOn].
    eapply movedOn_asked with (evs := []); try reflexivity; [exact Hv | now left].
  - destruct (scope_rename B (ast s1) path (node_name B (ast s1) path)
                (resolveCollisions s1 path (toIdentifier B renamed))) as [a|e] eqn:Hr.
    + destruct (@acceptRename_returns B O clock options path renamed s1 a Hr)
        as (s2 & -> & _ & _ & Hm2 & _ & Hv2 & _ & _ & _ & _ & Hw2).
      eapply movedOn_trans; [|apply account_movedOn].
      destruct (hasManager options).
      * cbn zeta in Hw2.
        destruct (CheckpointManager.writable _); destruct Hw2 as [Ht2 _].
        -- eapply movedOn_asked with (name := name) (code := code);
             [exact Hv | | | | exact Hv2 | right; eexists; exact Hm2].
           ++ rewrite Ht2. cbn [s1 afterOracle setOracle setWorld world trace emit].
              rewrite <- app_assoc. reflexivity.
           ++ reflexivity.
           ++ reflexivity.
        -- eapply movedOn_asked with (name := name) (code := code) (evs := []);
             [exact Hv | | reflexivity | reflexivity | exact Hv2
              | right; eexists; exact Hm2].
           rewrite Ht2. reflexivity.
      * eapply movedOn_asked with (name := name) (code := code) (evs := []);
          [exact Hv | | reflexivity | reflexivity | exact Hv2
           | right; eexists; exact Hm2].
        rewrite Hw2. reflexivity.
    + rewrite (@acceptRename_throws B O clock options path renamed s1 e Hr).
      cbn [snd].
      eapply movedOn_asked with (name := name) (code := code) (evs := []);
        [exact Hv | reflexivity | reflexivity | reflexivity | reflexivity
         | right; eexists; reflexivity].
Qed.

Lemma visitFrom_movedOn (n : nat) (l : list (NodePath B)) (st : State) :
  movedOn st (snd (visitFrom visitor clock W onProgress options n l st)).
Proof.
  revert st; induction l as [|p l IH]; intros st; [apply movedOn_refl|].
  cbn [visitFrom]. unfold bind.
  pose proof (visitBinding_movedOn n p st) as Hp.
  destruct (visitBinding visitor clock W onProgress options n p st) as [[[]|e] st1].
  - eapply movedOn_trans; [exact Hp | apply IH].
  - exact Hp.
Qed.

Lemma visitLoop_movedOn (scopes : list (NodePath B)) (startIndex : nat) (st : State) :
  movedOn st (snd (visitLoop visitor clock W onProgress options scopes startIndex st)).
Proof.
  unfold visitLoop, tryCatch.
  pose proof (visitFrom_movedOn (length scopes) (skipn startIndex scopes) st) as Hl.
  destruct (visitFrom visitor clock W onProgress options (length scopes)
              (skipn startIndex scopes) st) as [[[]|e] st1]; [exact Hl|].
  cbn [snd] in Hl. unfold bind, when.
  destruct (hasManager options).
  - pose proof (saveProgress_movedOn st1) as Hs.
    destruct (saveProgress clock st1) as [[[]|e'] st2]; cbn [snd] in *;
      eapply movedOn_trans; eassumption.
  - exact Hl.
Qed.

Lemma applyRename_keeps (path : NodePath B) (oldName newName : string) (st : State) :
  let st' := snd (applyRename path oldName newName st) in
  world st' = world st /\ renamesMap st' = renamesMap st
  /\ visited st' = visited st.
Proof.
  unfold applyRename.
  destruct (scope_rename B (ast st) path oldName newName); repeat split.
Qed.

Lemma reapplyRenames_keeps (scopes : list (NodePath B))
    (entries : list (string * string)) (st : State) :
  let st' := snd (reapplyRenames scopes entries st) in
  world st' = world st /\ renamesMap st' = renamesMap st
  /\ visited st' = visited st.
Proof.
  revert st; induction entries as [|[originalName newName] entries IH]; intros st.
  - repeat split.
  - cbn [reapplyRenames]. unfold bind.
    assert (H1 : let st1 := snd (reapplyOne scopes (originalName, newName) st) in
                 world st1 = world st /\ renamesMap st1 = renamesMap st
                 /\ visited st1 = visited st).
    { unfold reapplyOne, bind, get, getState. cbn [fst snd].
      destruct (JsArray.find _ scopes) as [scopePath|]; [|repeat split].
      destruct (scope_hasBinding B (ast st) scopePath originalName); [|repeat split].
      apply applyRename_keeps. }
    destruct (reapplyOne scopes (originalName, newName) st) as [[[]|e] st1];
      cbn [snd] in *; [|exact H1].
    destruct H1 as (Hw & Hm & Hv). specialize (IH st1). cbn zeta in IH.
    rewrite <- Hw, <- Hm, <- Hv. exact IH.
Qed.

Lemma reapplyRenames_movedOn (scopes : list (NodePath B))
    (entries : list (string * string)) (st : State) :
  movedOn st (snd (reapplyRenames scopes entries st)).
Proof.
  destruct (reapplyRenames_keeps scopes entries st) as (Hw & Hm & Hv).
  eapply movedOn_quiet with (evs := []); [| reflexivity | constructor | | exact Hm].
  - rewrite Hw. symmetry. apply app_nil_r.
  - intros x Hx. now rewrite Hv.
Qed.

Lemma finish_movedOn (st : State) :
  movedOn st (snd (finish onProgress options st)).
Proof.
  unfold finish, bind, get, getState, when, onWorld, modify, throw, ret.
  destruct onProgress, (transformFromAstAsync B _) as [[code|]|e],
    (hasManager options); cbn [fst snd];
    (eapply movedOn_quiet;
     [ cbn [world trace emit setWorld CheckpointManager.clearCheckpoint withStore];
       first [ rewrite <- app_assoc; reflexivity
             | reflexivity
             | symmetry; apply app_nil_r ]
     | reflexivity | constructor | intros x Hx; exact Hx | reflexivity ]).
Qed.

(** The whole of [visitAllIdentifiersWithCheckpoint], from the state the
    loaded checkpoint (or its absence) gives. *)
Lemma visitAll_movedOn (code : string) (o : O) (w : World) :
  let checkpoint :=
    if hasManager options then CheckpointManager.loadCheckpoint w else None in
  let processed0 :=
    match checkpoint with
    | Some c => CheckpointData.processedIdentifiers c
    | None => JsSet.empty
    end in
  let renames0 :=
    match checkpoint with
    | Some c => CheckpointData.renames c
    | None => JsMap.empty
    end in
  let result :=
    visitAllIdentifiersWithCheckpoint B visitor clock W onProgress options code o w in
  exists evs,
    trace (exit_world (snd result)) = trace w ++ evs
    /\ Forall (fun data => SerializedCheckpoint.currentFileIndex data = 0)
         (checkpointsWritten evs)
    /\ (forall name, In name (oracleNames evs) -> JsSet.has processed0 name = false)
    /\ (forall k, ~ In k (oracleNames evs) ->
          JsMap.get (exit_renamesMap (snd result)) k = JsMap.get renames0 k)
    /\ (forall k, JsMap.has renames0 k = true ->
          JsMap.has (exit_renamesMap (snd result)) k = true).
Proof.
  intros checkpoint processed0 renames0 result.
  assert (Hearly : forall (r : Outcome string) (n : nat),
    exists evs,
      trace (exit_world (mkExit processed0 renames0 n o w)) = trace w ++ evs
      /\ Forall (fun data => SerializedCheckpoint.currentFileIndex data = 0)
           (checkpointsWritten evs)
      /\ (forall name, In name (oracleNames evs) -> JsSet.has processed0 name = false)
      /\ (forall k, ~ In k (oracleNames evs) ->
            JsMap.get (exit_renamesMap (mkExit processed0 renames0 n o w)) k
            = JsMap.get renames0 k)
      /\ (forall k, JsMap.has renames0 k = true ->
            JsMap.has (exit_renamesMap (mkExit processed0 renames0 n o w)) k = true)).
  { intros r n. exists []. cbn. rewrite app_nil_r.
    repeat split; try tauto. constructor. }
  unfold result, visitAllIdentifiersWithCheckpoint.
  fold checkpoint. fold processed0. fold renames0.
  destruct (parseAsync B code) as [[ast0|]|e];
    [| apply (Hearly (Thrown "Failed to parse code")) | apply (Hearly (Thrown e))].
  set (startIndex := match checkpoint with
                     | Some c => CheckpointData.currentIdentifierIndex c
                     | None => 0
                     end).
  set (st0 := @mkVisitState B O ast0 processed0 renames0
                (JsSet.of_list (JsMap.values renames0)) (JsSet.of_list processed0)
                startIndex o w).
  set (pre := when _ _).
  assert (Hpre : forall st, movedOn st (snd (pre st))).
  { intros st. unfold pre, when.
    destruct (match checkpoint with Some _ => _ | None => false end);
      [apply reapplyRenames_movedOn | apply movedOn_refl]. }
  assert (Hrun : movedOn st0
    (snd (bind pre (fun _ =>
            bind (visitLoop visitor clock W onProgress options (findScopes B ast0)
                    startIndex)
                 (fun _ => finish onProgress options)) st0))).
  { unfold bind. specialize (Hpre st0).
    destruct (pre st0) as [[[]|e] st1]; cbn [snd] in *; [|exact Hpre].
    pose proof (visitLoop_movedOn (findScopes B ast0) startIndex st1) as Hloop.
    destruct (visitLoop visitor clock W onProgress options (findScopes B ast0)
                startIndex st1) as [[[]|e] st2]; cbn [snd] in *.
    - eapply movedOn_trans; [exact Hpre|].
      eapply movedOn_trans; [exact Hloop | apply finish_movedOn].
    - eapply movedOn_trans; eassumption. }
  destruct (bind pre _ st0) as [r st]. cbn [snd] in *.
  destruct Hrun as (evs & Ht & Hc & _ & Hn & Hg & Hh).
  exists evs. cbn [exitOf exit_world exit_renamesMap].
  split; [exact Ht|]. split; [exact Hc|].
  split; [|split; [exact Hg | exact Hh]].
  intros name Hin. specialize (Hn name Hin).
  cbn [st0 visited] in Hn. rewrite set_has_of_list in Hn. exact Hn.
Qed.

End Invariants.

(* ====================================================================== *)
(** * Checkpoints of the orchestrator, and resuming from one *)
(* ====================================================================== *)

(** C10: every checkpoint record a run of the orchestrator writes, at the
    periodic save and in the [catch] block alike, has [currentFileIndex] 0
    (the function is not told which file it works on), and a driver that
    finds such a record in the checkpoint file starts at file index 0,
    whatever its options. *)
Theorem checkpoints_record_file_zero (B : Babel) (O : Type) (visitor : Visitor O)
    (clock : nat -> Z) (W : Z) (onProgress : bool) (options : option VisitOptions)
    (code : string) (o : O) (w : World) :
  exists evs,
    trace (exit_world
             (snd (visitAllIdentifiersWithCheckpoint B visitor clock W onProgress
                     options code o w)))
    = trace w ++ evs
    /\ Forall
         (fun data =>
            SerializedCheckpoint.currentFileIndex data = 0
            /\ forall outputDir driverOptions entries mappings t tr,
                 driverStartIndex outputDir driverOptions
                   (mkWorld (mkStore (Some data) entries mappings) t tr) = 0)
         (checkpointsWritten evs).
Proof.
  destruct (visitAll_movedOn B visitor clock W onProgress options code o w)
    as (evs & Ht & Hc & _).
  exists evs. split; [exact Ht|].
  eapply Forall_impl; [|exact Hc].
  intros data Hdata. split; [exact Hdata|].
  intros outputDir driverOptions entries mappings t tr.
  unfold driverStartIndex, CheckpointManager.loadCheckpoint. cbn.
  rewrite Hdata. now destruct (_ && _).
Qed.

(** In a run of the driver over two files, the oracle fails in the second
    file (index 1): the record the orchestrator writes in its [catch] block
    has file index 0; the driver's own records, written after the first file
    and after the failure, have index 1. *)
Example file_index_in_second_file :
  fst Runs.twoFilesRun = Thrown "oracle failure"
  /\ map (fun data => (SerializedCheckpoint.currentFileIndex data,
                       SerializedCheckpoint.currentIdentifierIndex data))
       (checkpointsWritten (trace (d_world (snd Runs.twoFilesRun))))
     = [(0, 5); (1, 0); (0, 2); (1, 0)].
Proof. split; vm_compute; reflexivity. Qed.

Section Resume.

Variable B : Babel.
Variable O : Type.
Variable visitor : Visitor O.
Variable clock : nat -> Z.
Variable W : Z.
Variable onProgress : bool.
Variable options : option VisitOptions.

(** C2, as the code has it: in a run resumed from a checkpoint the oracle
    is never asked about a name that is in the checkpoint's processed set,
    and the rename map at the end of the run has every key of the
    checkpoint's rename map, with the checkpoint's value at every key the
    oracle is not asked about during the run. *)
Theorem resume_from_checkpoint (code : string) (o : O) (w : World)
    (checkpoint : CheckpointData.t) :
  hasManager options = true ->
  CheckpointManager.loadCheckpoint w = Some checkpoint ->
  let result :=
    visitAllIdentifiersWithCheckpoint B visitor clock W onProgress options code o w in
  exists evs,
    trace (exit_world (snd result)) = trace w ++ evs
    /\ (forall name, In name (oracleNames evs) ->
          JsSet.has (CheckpointData.processedIdentifiers checkpoint) name = false)
    /\ (forall k v, JsMap.get (CheckpointData.renames checkpoint) k = Some v ->
          JsMap.has (exit_renamesMap (snd result)) k = true
          /\ (~ In k (oracleNames evs) ->
              JsMap.get (exit_renamesMap (snd result)) k = Some v)).
Proof.
  intros Hm Hload result.
  destruct (visitAll_movedOn B visitor clock W onProgress options code o w)
    as (evs & Ht & _ & Hn & Hg & Hh).
  rewrite Hm, Hload in Hn, Hg, Hh.
  exists evs. split; [exact Ht|]. split; [exact Hn|].
  intros k v Hk. split.
  - apply Hh. unfold JsMap.has. now rewrite Hk.
  - intros Hnot. unfold result. rewrite Hg by exact Hnot. exact Hk.
Qed.

End Resume.

Lemma resume_from_checkpoint_witness :
  exists evs,
    trace (exit_world (snd Runs.resumedRun))
    = trace (exit_world (snd Runs.interruptedRun)) ++ evs
    /\ (forall name, In name (oracleNames evs) ->
          JsSet.has (CheckpointData.processedIdentifiers Runs.interruptedCheckpoint) name
          = false)
    /\ (forall k v,
          JsMap.get (CheckpointData.renames Runs.interruptedCheckpoint) k = Some v ->
          JsMap.has (exit_renamesMap (snd Runs.resumedRun)) k = true
          /\ (~ In k (oracleNames evs) ->
              JsMap.get (exit_renamesMap (snd Runs.resumedRun)) k = Some v)).
Proof.
  apply (@resume_from_checkpoint (Toy.babel Programs.twoFunctions) nat Runs.yOracle
           Toy.clock 1000%Z true (Runs.withManager 5) Programs.twoFunctionsSource 0
           (exit_world (snd Runs.interruptedRun)) Runs.interruptedCheckpoint).
  - reflexivity.
  - vm_compute; reflexivity.
Defined.

(** C2 as stated fails: the first run on the two functions stores [a -> x]
    for the parameter of [f] and is interrupted at the parameter of [g];
    the checkpoint holds the map [a -> x].  The resumed run asks the oracle
    about the second [a] (it is not in the processed set [x]) and stores
    [a -> y] under the same key: the final map does not contain the pair
    [a -> x] of the checkpoint. *)
Lemma resume_superset_counterexample :
  fst Runs.interruptedRun = Thrown "network error"
  /\ CheckpointManager.loadCheckpoint (exit_world (snd Runs.interruptedRun))
     = Some Runs.interruptedCheckpoint
  /\ (exists code, fst Runs.resumedRun = Returned code)
  /\ JsMap.get (CheckpointData.renames Runs.interruptedCheckpoint) "a" = Some "x"
  /\ JsMap.get (exit_renamesMap (snd Runs.resumedRun)) "a" = Some "y"
  /\ ~ (forall k v,
          JsMap.get (CheckpointData.renames Runs.interruptedCheckpoint) k = Some v ->
          JsMap.get (exit_renamesMap (snd Runs.resumedRun)) k = Some v).
Proof.
  split; [reflexivity|]. split; [reflexivity|].
  split; [eexists; vm_compute; reflexivity|].
  split; [reflexivity|]. split; [vm_compute; reflexivity|].
  intros H. specialize (H "a" "x" eq_refl). vm_compute in H. discriminate H.
Qed.

(* ====================================================================== *)
(** * The end of a whole run ([unminifyWithCheckpoint]) *)
(* ====================================================================== *)

Section Completion.

Variable B : Babel.
Variable O : Type.
Variable clock : nat -> Z.
Variable openaiVisitor : Visitor O.
Variable geminiVisitor : Visitor O.
Variable defineFilename : string -> O -> Outcome string * O.
Variable unminifyVariableName : string -> Visitor O.
Variable webcrack :
  string -> string -> list (string * string)
  -> Outcome (list string) * list (string * string).
Variable outputDir : string.
Variable plugins : list (Plugin O).
Variable options : UnminifyOptions.

(** What [completeRun] does to the store, with a checkpoint manager. *)
Lemma completeRun_spec (st : DriverState O) :
  theEnableCheckpoint options = true ->
  exists st',
    completeRun outputDir options st = (Returned tt, st')
    /\ d_files st' = d_files st
    /\ d_oracle st' = d_oracle st
    /\ checkpointFile (store (d_world st')) = None
    /\ dirEntries (store (d_world st')) = dirEntries (store (d_world st))
    /\ mappingsFile (store (d_world st'))
       = (let mergedRenames := CheckpointManager.mergePartialResults (d_world st) in
          if (0 <? JsMap.size mergedRenames)%nat
          then Some (JsMap.entries mergedRenames)
          else mappingsFile (store (d_world st))).
Proof.
  intros Hen.
  unfold completeRun, driverHasManager, driverManager. rewrite Hen.
  unfold bind, when, onDriverWorld, modify, getState, ret. cbn [fst snd d_world].
  change (CheckpointManager.mergePartialResults
            (CheckpointManager.clearCheckpoint (d_world st)))
    with (CheckpointManager.mergePartialResults (d_world st)).
  destruct (0 <? JsMap.size (CheckpointManager.mergePartialResults (d_world st)))%nat;
    (eexists; split; [reflexivity|]); cbn; repeat split; reflexivity.
Qed.

(** C8, as the code has it: when a whole run with checkpointing completes,
    the checkpoint file is gone, every shard file is still where it was
    when the last file was done, and the mapping file holds the merged
    mapping if that is not empty and is otherwise left as it was. *)
Theorem completion_keeps_shards (filename : string) (st st' : DriverState O) :
  theEnableCheckpoint options = true ->
  unminifyWithCheckpoint B clock openaiVisitor geminiVisitor defineFilename
    unminifyVariableName webcrack outputDir plugins options filename st
  = (Returned tt, st') ->
  exists extractedFiles st0 st1,
    processFiles B clock openaiVisitor geminiVisitor defineFilename
      unminifyVariableName outputDir plugins options
      (driverStartIndex outputDir options (d_world st0))
      (skipn (driverStartIndex outputDir options (d_world st0)) extractedFiles) st0
    = (Returned tt, st1)
    /\ completeRun outputDir options st1 = (Returned tt, st')
    /\ checkpointFile (store (d_world st')) = None
    /\ dirEntries (store (d_world st')) = dirEntries (store (d_world st1))
    /\ mappingsFile (store (d_world st'))
       = (let mergedRenames := CheckpointManager.mergePartialResults (d_world st1) in
          if (0 <? JsMap.size mergedRenames)%nat
          then Some (JsMap.entries mergedRenames)
          else mappingsFile (store (d_world st1))).
Proof.
  intros Hen Hrun.
  unfold unminifyWithCheckpoint in Hrun. unfold bind at 1 in Hrun.
  destruct (readFile filename st) as [[bundledCode|e] s0]; [|discriminate].
  unfold bind at 1 in Hrun.
  destruct (webcrack bundledCode outputDir (d_files s0)) as [[extractedFiles|e] files];
    [|discriminate].
  unfold bind at 1 in Hrun. unfold getState at 1 in Hrun.
  unfold bind at 1 in Hrun.
  destruct (processFiles _ _ _ _ _ _ _ _ _ _ _ _) as [[[]|e] st1] eqn:Hfiles;
    [|discriminate].
  exists extractedFiles, (mkDriverState files (d_oracle s0) (d_world s0)), st1.
  destruct (completeRun_spec st1 Hen) as (st2 & Hc & _ & _ & H1 & H2 & H3).
  rewrite Hc in Hrun. injection Hrun as <-.
  split; [exact Hfiles|].
  repeat split; assumption.
Qed.

End Completion.

Lemma completion_keeps_shards_witness :
  exists extractedFiles st0 st1,
    processFiles (Toy.babel Programs.threeVars) Toy.clock
      Runs.namesOracle Runs.namesOracle
      (fun _ calls => (Returned "vars.js", S calls)) (fun _ => Runs.namesOracle)
      "out" [Runs.openaiPlugin] Runs.checkpointing
      (driverStartIndex "out" Runs.checkpointing (d_world st0))
      (skipn (driverStartIndex "out" Runs.checkpointing (d_world st0)) extractedFiles)
      st0
    = (Returned tt, st1)
    /\ completeRun "out" Runs.checkpointing st1 = (Returned tt, snd Runs.driverRun)
    /\ checkpointFile (store (d_world (snd Runs.driverRun))) = None
    /\ dirEntries (store (d_world (snd Runs.driverRun)))
       = dirEntries (store (d_world st1))
    /\ mappingsFile (store (d_world (snd Runs.driverRun)))
       = (let mergedRenames := CheckpointManager.mergePartialResults (d_world st1) in
          if (0 <? JsMap.size mergedRenames)%nat
          then Some (JsMap.entries mergedRenames)
          else mappingsFile (store (d_world st1))).
Proof.
  apply (@completion_keeps_shards (Toy.babel Programs.threeVars) nat Toy.clock
           Runs.namesOracle Runs.namesOracle
           (fun _ calls => (Returned "vars.js", S calls)) (fun _ => Runs.namesOracle)
           Runs.unpack "out" [Runs.openaiPlugin] Runs.checkpointing "bundle.js"
           (mkDriverState Runs.bundleFiles 0 Toy.freshWorld) (snd Runs.driverRun)).
  - reflexivity.
  - vm_compute; reflexivity.
Defined.

(** C8 as stated fails: the whole run on the bundle completes, the
    checkpoint file is gone, and the two shards written for the renames of
    [a] and [b] are still in the checkpoint directory; no mapping file has
    been written. *)
Lemma completion_removes_shards_counterexample :
  fst Runs.driverRun = Returned tt
  /\ checkpointFile (store (d_world (snd Runs.driverRun))) = None
  /\ map snd (dirEntries (store (d_world (snd Runs.driverRun))))
     = [Some (renameShard "alpha" "alpha" 1001); Some (renameShard "beta" "beta" 1004)]
  /\ dirEntries (store (d_world (snd Runs.driverRun))) <> []
  /\ mappingsFile (store (d_world (snd Runs.driverRun))) = None.
Proof.
  split; [vm_compute; reflexivity|]. split; [vm_compute; reflexivity|].
  split; [vm_compute; reflexivity|].
  split; [vm_compute; discriminate | vm_compute; reflexivity].
Qed.

(* ====================================================================== *)
(** * The checkpoint file: what is saved is what is loaded *)
(* ====================================================================== *)

Section RoundTrip.

Lemma set_add_fresh (s : JsSet.t) (x : string) :
  ~ In x s -> JsSet.add s x = s ++ [x].
Proof.
  intros Hx. unfold JsSet.add.
  destruct (JsSet.has s x) eqn:E; [|reflexivity].
  apply set_has_In in E. contradiction.
Qed.

Lemma set_fold_add_nodup (l acc : list string) :
  NoDup (acc ++ l) -> fold_left JsSet.add l acc = acc ++ l.
Proof.
  revert acc; induction l as [|x l IH]; intros acc Hnd; simpl.
  - now rewrite app_nil_r.
  - assert (Hx : ~ In x acc).
    { apply NoDup_remove_2 in Hnd. intros Hin. apply Hnd, in_or_app. now left. }
    rewrite set_add_fresh by exact Hx.
    rewrite IH; rewrite <- app_assoc; [reflexivity | exact Hnd].
Qed.

Lemma set_of_list_nodup (l : list string) : NoDup l -> JsSet.of_list l = l.
Proof. intros H. unfold JsSet.of_list. now apply (set_fold_add_nodup l []). Qed.

Lemma set_add_NoDup (s : JsSet.t) (x : string) : NoDup s -> NoDup (JsSet.add s x).
Proof.
  intros Hs. unfold JsSet.add. destruct (JsSet.has s x) eqn:E; [exact Hs|].
  apply NoDup_app; [exact Hs | repeat constructor; intros [] | ].
  intros y Hy [<-|[]]. apply set_has_In in Hy. congruence.
Qed.

Lemma set_of_list_NoDup (l : list string) : NoDup (JsSet.of_list l).
Proof.
  unfold JsSet.of_list.
  assert (H : forall acc, NoDup acc -> NoDup (fold_left JsSet.add l acc)).
  { induction l as [|x l IH]; intros acc Hacc; simpl; [exact Hacc|].
    apply IH, set_add_NoDup, Hacc. }
  apply H. constructor.
Qed.

Lemma map_set_fresh (m : JsMap.t) (k v : string) :
  ~ In k (map fst m) -> JsMap.set m k v = m ++ [(k, v)].
Proof.
  induction m as [|[k' v'] m IH]; intros Hk; simpl in *; [reflexivity|].
  destruct (String.eqb_spec k' k) as [->|_]; [tauto|].
  rewrite IH by tauto. reflexivity.
Qed.

Lemma map_set_keys (m : JsMap.t) (k v : string) :
  map fst (JsMap.set m k v)
  = if JsMap.has m k then map fst m else map fst m ++ [k].
Proof.
  unfold JsMap.has.
  induction m as [|[k' v'] m IH]; simpl; [reflexivity|].
  destruct (String.eqb_spec k' k) as [->|Hne]; simpl; [reflexivity|].
  rewrite IH. now destruct (JsMap.get m k).
Qed.

Lemma map_has_In (m : JsMap.t) (k : string) :
  JsMap.has m k = true <-> In k (map fst m).
Proof.
  unfold JsMap.has.
  induction m as [|[k' v'] m IH]; simpl; [split; [discriminate | tauto]|].
  destruct (String.eqb_spec k' k) as [->|Hne]; [tauto|].
  rewrite IH. split; [tauto | intros [H|H]; [congruence | exact H]].
Qed.

Lemma map_set_NoDup (m : JsMap.t) (k v : string) :
  NoDup (map fst m) -> NoDup (map fst (JsMap.set m k v)).
Proof.
  intros Hm. rewrite map_set_keys.
  destruct (JsMap.has m k) eqn:E; [exact Hm|].
  apply NoDup_app; [exact Hm | repeat constructor; intros [] |].
  intros y Hy [<-|[]]. apply map_has_In in Hy. congruence.
Qed.

Lemma map_fold_set_NoDup (l : list (string * string)) (m : JsMap.t) :
  NoDup (map fst m) ->
  NoDup (map fst (fold_left (fun m kv => JsMap.set m (fst kv) (snd kv)) l m)).
Proof.
  revert m; induction l as [|[k v] l IH]; intros m Hm; simpl; [exact Hm|].
  apply IH, map_set_NoDup, Hm.
Qed.

Lemma map_of_entries_NoDup (l : list (string * string)) :
  NoDup (map fst (JsMap.of_entries l)).
Proof. unfold JsMap.of_entries. apply map_fold_set_NoDup. constructor. Qed.

Lemma map_fold_set_nodup (l : list (string * string)) (acc : JsMap.t) :
  NoDup (map fst (acc ++ l)) ->
  fold_left (fun m kv => JsMap.set m (fst kv) (snd kv)) l acc = acc ++ l.
Proof.
  revert acc; induction l as [|[k v] l IH]; intros acc Hnd; simpl.
  - now rewrite app_nil_r.
  - assert (Hk : ~ In k (map fst acc)).
    { rewrite map_app in Hnd. simpl in Hnd. apply NoDup_remove_2 in Hnd.
      intros Hin. apply Hnd, in_or_app. now left. }
    rewrite map_set_fresh by exact Hk.
    rewrite IH; rewrite <- app_assoc; [reflexivity | exact Hnd].
Qed.

Lemma map_of_entries_nodup (l : list (string * string)) :
  NoDup (map fst l) -> JsMap.of_entries l = l.
Proof. intros H. unfold JsMap.of_entries. now apply (map_fold_set_nodup l []). Qed.

(** What [loadCheckpoint] returns for a record without repeated elements
    and keys. *)
Lemma loadCheckpoint_of_record (data : SerializedCheckpoint.t)
    (entries : list (string * option PartialResult.t))
    (mappings : option (list (string * string))) (t : nat) (tr : list Event) :
  NoDup (SerializedCheckpoint.processedIdentifiers data) ->
  NoDup (map fst (SerializedCheckpoint.renames data)) ->
  CheckpointManager.loadCheckpoint (mkWorld (mkStore (Some data) entries mappings) t tr)
  = Some (recordAsData data).
Proof.
  intros Hp Hr. unfold CheckpointManager.loadCheckpoint, recordAsData.
  cbn -[JsSet.of_list JsMap.of_entries].
  now rewrite set_of_list_nodup, map_of_entries_nodup.
Qed.

(** X1: [loadCheckpoint] after [saveCheckpoint] gives back the data that
    was saved (set, map, both indices, timestamp), for a set and a map as
    JavaScript has them: no element and no key twice.  The shards and the
    mapping file are as they were. *)
Theorem checkpoint_round_trip (data : CheckpointData.t) (w : World) :
  NoDup (CheckpointData.processedIdentifiers data) ->
  NoDup (map fst (CheckpointData.renames data)) ->
  CheckpointManager.loadCheckpoint (CheckpointManager.saveCheckpoint data w) = Some data
  /\ CheckpointManager.hasCheckpoint (CheckpointManager.saveCheckpoint data w) = true
  /\ dirEntries (store (CheckpointManager.saveCheckpoint data w)) = dirEntries (store w)
  /\ mappingsFile (store (CheckpointManager.saveCheckpoint data w))
     = mappingsFile (store w).
Proof.
  intros Hp Hr. destruct data as [p r fi ii ts]. cbn in Hp, Hr.
  unfold CheckpointManager.loadCheckpoint, CheckpointManager.saveCheckpoint.
  cbn -[JsSet.of_list JsMap.of_entries].
  unfold JsMap.entries. rewrite set_of_list_nodup, map_of_entries_nodup by assumption.
  repeat split.
Qed.

End RoundTrip.

Lemma checkpoint_round_trip_witness :
  CheckpointManager.loadCheckpoint
    (CheckpointManager.saveCheckpoint Runs.testData Toy.freshWorld)
  = Some Runs.testData
  /\ CheckpointManager.hasCheckpoint
       (CheckpointManager.saveCheckpoint Runs.testData Toy.freshWorld) = true
  /\ dirEntries (store (CheckpointManager.saveCheckpoint Runs.testData Toy.freshWorld))
     = dirEntries (store Toy.freshWorld)
  /\ mappingsFile (store (CheckpointManager.saveCheckpoint Runs.testData Toy.freshWorld))
     = mappingsFile (store Toy.freshWorld).
Proof.
  apply (@checkpoint_round_trip Runs.testData Toy.freshWorld).
  - repeat constructor; simpl; intuition discriminate.
  - repeat constructor; simpl; intuition discriminate.
Defined.

(* ====================================================================== *)
(** * The shard files: saving, loading, merging *)
(* ====================================================================== *)

Section ShardFiles.

Variable clock : nat -> Z.



Lemma writeEntry_twice (file : string) (d1 d2 : option PartialResult.t)
    (l : list (string * option PartialResult.t)) :
  writeEntry file d2 (writeEntry file d1 l) = writeEntry file d2 l.
Proof.
  induction l as [|[n d] l IH]; simpl.
  - now rewrite String.eqb_refl.
  - destruct (String.eqb_spec n file) as [->|Hne]; simpl.
    + now rewrite String.eqb_refl.
    + destruct (String.eqb_spec n file); [contradiction | now rewrite IH].
Qed.

Lemma parseAll_unreadable (l : list (string * option PartialResult.t)) (n : string) :
  In (n, None) l -> CheckpointManager.parseAll l = None.
Proof.
  induction l as [|[n' [r|]] l IH]; simpl; [tauto | | reflexivity].
  intros [H|H]; [discriminate|]. now rewrite IH.
Qed.


Lemma insert_by_perm (A : Type) (cmp : A -> A -> Z) (x : A) (l : list A) :
  Permutation (JsArray.insert cmp x l) (x :: l).
Proof.
  induction l as [|y l IH]; simpl; [reflexivity|].
  destruct (cmp x y <=? 0)%Z; [reflexivity|].
  rewrite IH. apply perm_swap.
Qed.

Lemma sort_by_perm (A : Type) (cmp : A -> A -> Z) (l : list A) :
  Permutation (JsArray.sort cmp l) l.
Proof.
  induction l as [|x l IH]; simpl; [reflexivity|].
  rewrite insert_by_perm. now constructor.
Qed.

Lemma readdir_In (l : list (string * option PartialResult.t))
    (e : string * option PartialResult.t) :
  In e (CheckpointManager.readdir l) <-> In e l.
Proof.
  unfold CheckpointManager.readdir. split; apply Permutation_in.
  - apply sort_by_perm.
  - symmetry. apply sort_by_perm.
Qed.

Lemma savePartialResults_entries (filename : string) (data : PartialResult.t)
    (w : World) :
  dirEntries (store (CheckpointManager.savePartialResults clock filename data w))
  = (let file := CheckpointManager.resultsFile filename (clock (ticks w)) in
     if CheckpointManager.writable file
     then writeEntry file (Some data) (dirEntries (store w))
     else dirEntries (store w)).
Proof.
  unfold CheckpointManager.savePartialResults, CheckpointManager.dateNow,
    CheckpointManager.ensureCheckpointDir.
  cbv zeta. now destruct (CheckpointManager.writable _).
Qed.



(** X3: the name of a shard file is the label's base name and the clock's
    reading; when the clock reads the same twice, a second shard with the
    same label replaces the first one, which is lost. *)
Theorem shard_overwritten_within_clock_tick (label1 label2 : string)
    (data1 data2 : PartialResult.t) (w : World) :
  clock (S (ticks w)) = clock (ticks w) ->
  basename label1 = basename label2 ->
  dirEntries (store (CheckpointManager.savePartialResults clock label2 data2
                       (CheckpointManager.savePartialResults clock label1 data1 w)))
  = dirEntries (store (CheckpointManager.savePartialResults clock label2 data2 w)).
Proof.
  intros Hclock Hlabel.
  rewrite !savePartialResults_entries. cbv zeta.
  assert (Hticks : ticks (CheckpointManager.savePartialResults clock label1 data1 w)
                   = S (ticks w)).
  { unfold CheckpointManager.savePartialResults, CheckpointManager.dateNow,
      CheckpointManager.ensureCheckpointDir.
    cbv zeta. now destruct (CheckpointManager.writable _). }
  assert (Hfile : CheckpointManager.resultsFile label1 (clock (ticks w))
                  = CheckpointManager.resultsFile label2 (clock (ticks w))).
  { unfold CheckpointManager.resultsFile. now rewrite Hlabel. }
  rewrite Hticks, Hclock, Hfile.
  destruct (CheckpointManager.writable _); [apply writeEntry_twice | reflexivity].
Qed.

End ShardFiles.


Lemma shard_overwritten_within_clock_tick_witness :
  dirEntries
    (store (CheckpointManager.savePartialResults Cases.stoppedClock "rename_1000_a"
              (renameShard "y" "y" 1000)
              (CheckpointManager.savePartialResults Cases.stoppedClock "rename_1000_a"
                 (renameShard "x" "x" 1000) Toy.freshWorld)))
  = dirEntries
      (store (CheckpointManager.savePartialResults Cases.stoppedClock "rename_1000_a"
                (renameShard "y" "y" 1000) Toy.freshWorld)).
Proof.
  apply (@shard_overwritten_within_clock_tick Cases.stoppedClock "rename_1000_a"
           "rename_1000_a" (renameShard "x" "x" 1000) (renameShard "y" "y" 1000)
           Toy.freshWorld).
  - reflexivity.
  - reflexivity.
Defined.

Section Merging.

(** X4: one unreadable file named [partial_...] makes [loadPartialResults]
    return the empty list, and the merged mapping empty, whatever the other
    shards hold. *)
Theorem unreadable_shard_hides_all (w : World) (n : string) :
  In (n, None) (dirEntries (store w)) ->
  JsString.startsWith "partial_" n = true ->
  CheckpointManager.loadPartialResults w = []
  /\ CheckpointManager.mergePartialResults w = JsMap.empty.
Proof.
  intros Hin Hp.
  assert (Hload : CheckpointManager.loadPartialResults w = []).
  { unfold CheckpointManager.loadPartialResults.
    rewrite (@parseAll_unreadable _ n); [reflexivity|].
    apply filter_In. split; [apply readdir_In; exact Hin | exact Hp]. }
  split; [exact Hload|].
  unfold CheckpointManager.mergePartialResults. now rewrite Hload.
Qed.

Lemma merge_as_fold (rs : list PartialResult.t) (m : JsMap.t) :
  fold_left CheckpointManager.mergeResult rs m
  = fold_left (fun m kv => JsMap.set m (fst kv) (snd kv)) (shardPairs rs) m.
Proof.
  revert m; induction rs as [|r rs IH]; intros m; [reflexivity|].
  cbn [fold_left shardPairs flat_map]. rewrite fold_left_app, IH.
  unfold CheckpointManager.mergeResult.
  now destruct (PartialResult.renames r).
Qed.

Lemma fold_set_lastValue (pairs : list (string * string)) (m : JsMap.t) (k : string) :
  JsMap.get (fold_left (fun m kv => JsMap.set m (fst kv) (snd kv)) pairs m) k
  = match lastValue k pairs with
    | Some v => Some v
    | None => JsMap.get m k
    end.
Proof.
  revert m; induction pairs as [|[k' v'] pairs IH]; intros m; [reflexivity|].
  cbn [fold_left lastValue fst snd]. rewrite IH.
  destruct (lastValue k pairs); [reflexivity|].
  destruct (String.eqb_spec k' k) as [->|Hne].
  - apply map_get_set_same.
  - apply map_get_set_other. congruence.
Qed.

(** X5: the merged mapping is the map built from the pairs of all loaded
    shards in their order: no key twice, and the value of a key is that of
    the last pair with the key (none when no shard has the key). *)
Theorem merge_is_last_pair (w : World) :
  CheckpointManager.mergePartialResults w
  = JsMap.of_entries (shardPairs (CheckpointManager.loadPartialResults w))
  /\ NoDup (map fst (CheckpointManager.mergePartialResults w))
  /\ forall k,
       JsMap.get (CheckpointManager.mergePartialResults w) k
       = lastValue k (shardPairs (CheckpointManager.loadPartialResults w)).
Proof.
  unfold CheckpointManager.mergePartialResults.
  rewrite merge_as_fold. split; [reflexivity|]. split.
  - apply map_fold_set_NoDup. constructor.
  - intros k. rewrite fold_set_lastValue.
    now destruct (lastValue k _).
Qed.

End Merging.

Lemma unreadable_shard_hides_all_witness :
  CheckpointManager.loadPartialResults Cases.corruptWorld = []
  /\ CheckpointManager.mergePartialResults Cases.corruptWorld = JsMap.empty.
Proof.
  apply (@unreadable_shard_hides_all Cases.corruptWorld "partial_file2.js_1001.json").
  - right. left. reflexivity.
  - reflexivity.
Defined.

(* ====================================================================== *)
(** * The other branches of [scopeToString] *)
(* ====================================================================== *)

Lemma substring_whole (s : string) (n : nat) :
  String.length s <= n -> substring 0 n s = s.
Proof.
  revert n; induction s as [|c s IH]; intros n Hn.
  - now destruct n.
  - destruct n as [|n]; simpl in *; [lia|]. rewrite IH by lia. reflexivity.
Qed.

Lemma substring_nothing (s : string) (n : nat) : substring n 0 s = EmptyString.
Proof.
  revert n; induction s as [|c s IH]; intros n.
  - now destruct n.
  - destruct n as [|n]; simpl; [reflexivity | apply IH].
Qed.

Lemma length_slice_le (s : string) (b e : Z) :
  String.length (JsString.slice s b e) <= String.length s.
Proof. unfold JsString.slice. rewrite length_substring. lia. Qed.

Section OtherBranches.

Variable B : Babel.

(** X6: for a binding whose surrounding path (the one
    [closestSurroundingContextPath] returns) is not the program, the
    context is the first [W] characters of that path's code, all of it when
    it is shorter, wherever in it the binding is. *)
Theorem scopeToString_inner_scope (ast : Ast B) (path : NodePath B) (W : Z) :
  surroundingPathIsProgram B ast path = false ->
  (0 <= W)%Z ->
  scopeToString B ast path W
  = substring 0 (Z.to_nat W) (surroundingPathCode B ast path).
Proof.
  intros Hprog HW. unfold scopeToString.
  change (path_toString B ast (closestSurroundingContextPath B ast path))
    with (surroundingPathCode B ast path).
  change (path_isProgram B ast (closestSurroundingContextPath B ast path))
    with (surroundingPathIsProgram B ast path).
  set (code := surroundingPathCode B ast path).
  destruct (Z.ltb_spec (Z.of_nat (String.length code)) W) as [Hlt|Hge].
  - symmetry. apply substring_whole. lia.
  - rewrite Hprog. unfold JsString.slice.
    destruct (Z.ltb_spec 0 0); [lia|].
    destruct (Z.ltb_spec W 0); [lia|].
    f_equal; lia.
Qed.

(** X7: the context is never longer than the code of the surrounding
    path. *)
Theorem scopeToString_within_scope (ast : Ast B) (path : NodePath B) (W : Z) :
  String.length (scopeToString B ast path W)
  <= String.length (surroundingPathCode B ast path).
Proof.
  unfold scopeToString.
  change (path_toString B ast (closestSurroundingContextPath B ast path))
    with (surroundingPathCode B ast path).
  set (code := surroundingPathCode B ast path).
  destruct (_ <? W)%Z; [lia|].
  destruct (path_isProgram B ast _); [|apply length_slice_le].
  destruct (_ <? W)%Z; [apply length_slice_le|].
  destruct (_ >? _)%Z; [apply length_slice_le | apply length_slice_le].
Qed.

(** X8: for a binding whose surrounding path is the program and a window
    size [W > 0]: when the binding's end offset is at least [W/2]
    ([W <= 2 * end]), its start offset is at least one below [W/2]
    ([2 * start + 2 <= W]), and the code has at least [W + (end - start)]
    characters, the context is the empty string.  The start of the slice,
    [start - W/2], is then negative, [slice] counts it from the end of the
    code, and it lands at or behind the end of the slice. *)
Theorem scopeToString_empty_near_start (ast : Ast B) (path : NodePath B) (W : Z) :
  surroundingPathIsProgram B ast path = true ->
  (0 < W)%Z ->
  (W <= 2 * spanEnd B ast path)%Z ->
  (2 * spanStart B ast path + 2 <= W)%Z ->
  (spanEnd B ast path - spanStart B ast path + W
   <= Z.of_nat (String.length (surroundingPathCode B ast path)))%Z ->
  scopeToString B ast path W = EmptyString.
Proof.
  intros Hprog HW Hend Hstart Hlen. unfold scopeToString.
  change (path_toString B ast (closestSurroundingContextPath B ast path))
    with (surroundingPathCode B ast path).
  change (path_isProgram B ast (closestSurroundingContextPath B ast path))
    with (surroundingPathIsProgram B ast path).
  set (code := surroundingPathCode B ast path) in *.
  set (len := Z.of_nat (String.length code)) in *.
  change (match node_start B ast path with Some s => s | None => 0%Z end)
    with (spanStart B ast path).
  change (match node_end B ast path with Some e => e | None => len end)
    with (spanEnd B ast path).
  set (start := spanStart B ast path) in *.
  set (end_ := spanEnd B ast path) in *.
  destruct (Z.ltb_spec len W); [lia|]. rewrite Hprog.
  destruct (Z.ltb_spec (2 * end_) W); [lia|].
  destruct (Z.gtb_spec (2 * start) (2 * len - W)); [lia|].
  assert (Hb : (Z.quot (2 * start - W) 2 = - ((W - 2 * start) / 2))%Z).
  { replace (2 * start - W)%Z with (- (W - 2 * start))%Z by lia.
    rewrite Z.quot_opp_l by lia. rewrite Z.quot_div_nonneg by lia. reflexivity. }
  assert (He : (Z.quot (2 * end_ + W) 2 = (2 * end_ + W) / 2)%Z)
    by (apply Z.quot_div_nonneg; lia).
  pose proof (Z_div_mod_eq_full (W - 2 * start) 2) as E1.
  pose proof (Z.mod_pos_bound (W - 2 * start) 2 ltac:(lia)) as B1.
  pose proof (Z_div_mod_eq_full (2 * end_ + W) 2) as E2.
  pose proof (Z.mod_pos_bound (2 * end_ + W) 2 ltac:(lia)) as B2.
  unfold JsString.slice. fold len. rewrite Hb, He.
  destruct (Z.ltb_spec (- ((W - 2 * start) / 2)) 0); [|lia].
  destruct (Z.ltb_spec ((2 * end_ + W) / 2) 0); [lia|].
  match goal with
  | |- substring _ ?m _ = _ => replace m with 0%nat by lia
  end.
  apply substring_nothing.
Qed.

End OtherBranches.

Lemma scopeToString_inner_scope_witness :
  let B := Toy.babel Programs.twoFunctions in
  scopeToString B Programs.twoFunctions (Toy.Identifier 0) 10
  = substring 0 (Z.to_nat 10)
      (surroundingPathCode B Programs.twoFunctions (Toy.Identifier 0)).
Proof.
  apply (@scopeToString_inner_scope (Toy.babel Programs.twoFunctions)
           Programs.twoFunctions (Toy.Identifier 0) 10%Z).
  - reflexivity.
  - lia.
Defined.

Lemma scopeToString_empty_near_start_witness :
  let B := Toy.babel Cases.longName in
  scopeToString B Cases.longName (Toy.Identifier 0) 10 = EmptyString.
Proof.
  apply (@scopeToString_empty_near_start (Toy.babel Cases.longName)
           Cases.longName (Toy.Identifier 0) 10%Z).
  - vm_compute; reflexivity.
  - lia.
  - vm_compute; discriminate.
  - vm_compute; discriminate.
  - vm_compute; discriminate.
Defined.

(* ====================================================================== *)
(** * Reasoning about a whole run, step by step *)
(* ====================================================================== *)

Section RunInduction.

Variable B : Babel.
Variable O : Type.
Variable visitor : Visitor O.
Variable clock : nat -> Z.
Variable W : Z.
Variable onProgress : bool.
Variable options : option VisitOptions.

Abbreviation State := (VisitState B O).

Lemma visitAll_parsed (code : string) (o : O) (w : World) (ast0 : Ast B) :
  parseAsync B code = Returned (Some ast0) ->
  visitAllIdentifiersWithCheckpoint B visitor clock W onProgress options code o w
  = (fst (afterParse visitor clock W onProgress options ast0 w
            (initialState B options ast0 o w)),
     exitOf (snd (afterParse visitor clock W onProgress options ast0 w
                    (initialState B options ast0 o w)))).
Proof.
  intros Hp. unfold visitAllIdentifiersWithCheckpoint. rewrite Hp.
  change (bind (when _ _) _ _)
    with (afterParse visitor clock W onProgress options ast0 w
            (initialState B options ast0 o w)).
  now destruct (afterParse _ _ _ _ _ _ _ _).
Qed.

Lemma visitAll_not_parsed (code : string) (o : O) (w : World) :
  (forall ast0, parseAsync B code <> Returned (Some ast0)) ->
  snd (visitAllIdentifiersWithCheckpoint B visitor clock W onProgress options code o w)
  = earlyExit options o w
  /\ exists e,
       fst (visitAllIdentifiersWithCheckpoint B visitor clock W onProgress options
              code o w) = Thrown e.
Proof.
  intros Hp. unfold visitAllIdentifiersWithCheckpoint.
  destruct (parseAsync B code) as [[ast0|]|e].
  - now destruct (Hp ast0).
  - split; [reflexivity | eexists; reflexivity].
  - split; [reflexivity | eexists; reflexivity].
Qed.

(** A relation between states that holds across every step of the run
    holds from the state in which the loop is entered to the state in which
    the function is left. *)
Variable R : State -> State -> Prop.

Hypothesis R_refl : forall st, R st st.
Hypothesis R_trans : forall st1 st2 st3, R st1 st2 -> R st2 st3 -> R st1 st3.
Hypothesis R_oracle :
  forall (st : State) (path : NodePath B) (r : Outcome string) (o : O),
    hasVisited B (ast st) path (visited st) = false ->
    visitor (node_name B (ast st) path) (scopeToString B (ast st) path W) (oracle st)
    = (r, o) ->
    R st (afterOracle st (node_name B (ast st) path)
            (scopeToString B (ast st) path W) o).
Hypothesis R_accept :
  forall (path : NodePath B) (renamed : string) (st : State),
    R st (snd (acceptRename clock options path renamed st)).
Hypothesis R_account :
  forall (n : nat) (path : NodePath B) (st : State),
    R st (snd (account clock onProgress options n path st)).
Hypothesis R_save :
  hasManager options = true -> forall st, R st (snd (saveProgress clock st)).
Hypothesis R_rename :
  forall (path : NodePath B) (oldName newName : string) (st : State),
    R st (snd (applyRename path oldName newName st)).
Hypothesis R_finish : forall st, R st (snd (finish onProgress options st)).

Lemma visitBinding_related (n : nat) (path : NodePath B) (st : State) :
  R st (snd (visitBinding visitor clock W onProgress options n path st)).
Proof.
  destruct (hasVisited B (ast st) path (visited st)) eqn:Hv.
  { rewrite visitBinding_visited by exact Hv. apply R_refl. }
  destruct (node_isIdentifier B (ast st) path) eqn:Hid.
  2:{ rewrite visitBinding_not_identifier by assumption. apply R_refl. }
  destruct (visitor (node_name B (ast st) path) (scopeToString B (ast st) path W)
              (oracle st)) as [[renamed|e] o] eqn:Hor.
  2:{ rewrite visitBinding_oracle_throws with (e := e) (o := o) by assumption.
      cbn [snd]. eapply R_oracle; eassumption. }
  rewrite visitBinding_oracle_returns with (renamed := renamed) (o := o) by assumption.
  pose proof (R_oracle st path Hv Hor) as H1.
  set (s1 := afterOracle st _ _ o) in *.
  destruct (String.eqb renamed (node_name B (ast st) path)); simpl when; unfold bind.
  - unfold ret. eapply R_trans; [exact H1 | apply R_account].
  - pose proof (R_accept path renamed s1) as H2.
    destruct (acceptRename clock options path renamed s1) as [[[]|e] s2];
      cbn [snd] in *.
    + eapply R_trans; [exact H1|]. eapply R_trans; [exact H2 | apply R_account].
    + eapply R_trans; eassumption.
Qed.

Lemma visitFrom_related (n : nat) (l : list (NodePath B)) (st : State) :
  R st (snd (visitFrom visitor clock W onProgress options n l st)).
Proof.
  revert st; induction l as [|p l IH]; intros st; [apply R_refl|].
  cbn [visitFrom]. unfold bind.
  pose proof (visitBinding_related n p st) as Hp.
  destruct (visitBinding visitor clock W onProgress options n p st) as [[[]|e] st1].
  - eapply R_trans; [exact Hp | apply IH].
  - exact Hp.
Qed.

Lemma visitLoop_related (scopes : list (NodePath B)) (startIndex : nat) (st : State) :
  R st (snd (visitLoop visitor clock W onProgress options scopes startIndex st)).
Proof.
  unfold visitLoop, tryCatch.
  pose proof (visitFrom_related (length scopes) (skipn startIndex scopes) st) as Hl.
  destruct (visitFrom visitor clock W onProgress options (length scopes)
              (skipn startIndex scopes) st) as [[[]|e] st1]; [exact Hl|].
  cbn [snd] in Hl. unfold bind, when.
  pose proof R_save as Hsave.
  destruct (hasManager options); [|exact Hl].
  pose proof (Hsave eq_refl st1) as Hs.
  destruct (saveProgress clock st1) as [[[]|e'] st2]; cbn [snd] in *;
    eapply R_trans; eassumption.
Qed.

Lemma reapplyRenames_related (scopes : list (NodePath B))
    (entries : list (string * string)) (st : State) :
  R st (snd (reapplyRenames scopes entries st)).
Proof.
  revert st; induction entries as [|[originalName newName] entries IH]; intros st.
  - apply R_refl.
  - cbn [reapplyRenames]. unfold bind.
    assert (H1 : R st (snd (reapplyOne scopes (originalName, newName) st))).
    { unfold reapplyOne, bind, get, getState. cbn [fst snd].
      destruct (JsArray.find _ scopes) as [scopePath|]; [|apply R_refl].
      destruct (scope_hasBinding B (ast st) scopePath originalName); [|apply R_refl].
      apply R_rename. }
    destruct (reapplyOne scopes (originalName, newName) st) as [[[]|e] st1];
      cbn [snd] in *; [|exact H1].
    eapply R_trans; [exact H1 | apply IH].
Qed.

Lemma afterParse_related (ast0 : Ast B) (w : World) (st : State) :
  R st (snd (afterParse visitor clock W onProgress options ast0 w st)).
Proof.
  unfold afterParse, bind.
  set (pre := when _ _).
  assert (Hpre : R st (snd (pre st))).
  { unfold pre, when. destruct (match loadedCheckpoint options w with
                                | Some _ => _ | None => false end);
      [apply reapplyRenames_related | apply R_refl]. }
  destruct (pre st) as [[[]|e] st1]; cbn [snd] in *; [|exact Hpre].
  pose proof (visitLoop_related (findScopes B ast0) (loadedIndex options w) st1)
    as Hloop.
  destruct (visitLoop _ _ _ _ _ _ _ st1) as [[[]|e] st2]; cbn [snd] in *.
  - eapply R_trans; [exact Hpre|].
    eapply R_trans; [exact Hloop | apply R_finish].
  - eapply R_trans; eassumption.
Qed.

End RunInduction.


(* ====================================================================== *)
(** * A run without a checkpoint manager *)
(* ====================================================================== *)

Section WithoutManager.

Variable B : Babel.
Variable O : Type.
Variable visitor : Visitor O.
Variable clock : nat -> Z.
Variable W : Z.
Variable onProgress : bool.
Variable options : option VisitOptions.

Lemma undisturbed_same_world (st st' : VisitState B O) :
  world st' = world st -> undisturbed st st'.
Proof.
  intros H. unfold undisturbed. rewrite H.
  split; [reflexivity|]. split; [reflexivity|].
  exists []. now rewrite app_nil_r.
Qed.

Lemma undisturbed_trans (st1 st2 st3 : VisitState B O) :
  undisturbed st1 st2 -> undisturbed st2 st3 -> undisturbed st1 st3.
Proof.
  intros (Hs1 & Ht1 & evs1 & He1 & Hq1) (Hs2 & Ht2 & evs2 & He2 & Hq2).
  split; [congruence|]. split; [congruence|].
  exists (evs1 ++ evs2). split.
  - rewrite He2, He1. symmetry. apply app_assoc.
  - rewrite forallb_app, Hq1, Hq2. reflexivity.
Qed.

Lemma undisturbed_emit (st st' : VisitState B O) (evs : list Event) :
  store (world st') = store (world st) ->
  ticks (world st') = ticks (world st) ->
  trace (world st') = trace (world st) ++ evs ->
  forallb offDisk evs = true ->
  undisturbed st st'.
Proof. intros Hs Ht He Hq. repeat split; try assumption. now exists evs. Qed.

Hypothesis no_manager : hasManager options = false.

Lemma acceptRename_undisturbed (path : NodePath B) (renamed : string)
    (st : VisitState B O) :
  undisturbed st (snd (acceptRename clock options path renamed st)).
Proof.
  destruct (scope_rename B (ast st) path (node_name B (ast st) path)
              (resolveCollisions st path (toIdentifier B renamed))) as [a|e] eqn:Hr.
  - destruct (@acceptRename_returns B O clock options path renamed st a Hr)
      as (st' & -> & _ & _ & _ & _ & _ & _ & _ & _ & _ & Hw).
    cbn zeta in Hw. rewrite no_manager in Hw.
    apply undisturbed_same_world. exact Hw.
  - rewrite (@acceptRename_throws B O clock options path renamed st e Hr).
    apply undisturbed_same_world. reflexivity.
Qed.

Lemma account_undisturbed (n : nat) (path : NodePath B) (st : VisitState B O) :
  undisturbed st (snd (account clock onProgress options n path st)).
Proof.
  unfold account, bind, get, getState, modify, when, onWorld.
  rewrite no_manager. cbn.
  destruct onProgress; cbn.
  - eapply undisturbed_emit with (evs := [ProgressReported _ _]); reflexivity.
  - apply undisturbed_same_world. reflexivity.
Qed.

Lemma finish_undisturbed (st : VisitState B O) :
  undisturbed st (snd (finish onProgress options st)).
Proof.
  unfold finish, bind, get, getState, modify, when, onWorld, throw, ret.
  rewrite no_manager.
  destruct onProgress; cbn;
    destruct (transformFromAstAsync B (ast st)) as [[code|]|e]; cbn;
    try (apply undisturbed_same_world; reflexivity);
    eapply undisturbed_emit with (evs := [ProgressDone]); reflexivity.
Qed.

Lemma afterParse_undisturbed (ast0 : Ast B) (w : World) (st : VisitState B O) :
  undisturbed st (snd (afterParse visitor clock W onProgress options ast0 w st)).
Proof.
  apply afterParse_related with (R := @undisturbed B O).
  - intros s. now apply undisturbed_same_world.
  - apply undisturbed_trans.
  - intros s path r o _ _.
    eapply undisturbed_emit with (evs := [OracleCalled _ _]); reflexivity.
  - apply acceptRename_undisturbed.
  - apply account_undisturbed.
  - rewrite no_manager. discriminate.
  - intros path oldName newName s. apply undisturbed_same_world.
    unfold applyRename.
    now destruct (scope_rename B (ast s) path oldName newName).
  - apply finish_undisturbed.
Qed.

Lemma run_undisturbed (code : string) (o : O) (w : World) :
  let exit :=
    snd (visitAllIdentifiersWithCheckpoint B visitor clock W onProgress options
           code o w) in
  store (exit_world exit) = store w
  /\ ticks (exit_world exit) = ticks w
  /\ exists evs,
       trace (exit_world exit) = trace w ++ evs /\ forallb offDisk evs = true.
Proof.
  intros exit. subst exit.
  destruct (parseAsync B code) as [[ast0|]|e] eqn:Hp.
  - rewrite visitAll_parsed with (ast0 := ast0) by exact Hp.
    cbn [snd].
    exact (afterParse_undisturbed ast0 w (initialState B options ast0 o w)).
  - unfold visitAllIdentifiersWithCheckpoint. rewrite Hp. cbn.
    repeat split. exists []. now rewrite app_nil_r.
  - unfold visitAllIdentifiersWithCheckpoint. rewrite Hp. cbn.
    repeat split. exists []. now rewrite app_nil_r.
Qed.

End WithoutManager.

(** X9: a run that is given no checkpoint manager leaves the checkpoint
    directory and the clock alone: the files are as they were, the clock
    was not read, and the only things that happened are oracle calls and
    progress reports. *)
Theorem run_without_manager_leaves_files (B : Babel) (O : Type)
    (visitor : Visitor O) (clock : nat -> Z) (W : Z) (onProgress : bool)
    (options : option VisitOptions) (code : string) (o : O) (w : World) :
  hasManager options = false ->
  let exit :=
    snd (visitAllIdentifiersWithCheckpoint B visitor clock W onProgress options
           code o w) in
  store (exit_world exit) = store w
  /\ ticks (exit_world exit) = ticks w
  /\ exists evs,
       trace (exit_world exit) = trace w ++ evs /\ forallb offDisk evs = true.
Proof.
  intros Hm. exact (@run_undisturbed B O visitor clock W onProgress options Hm code o w).
Qed.

Lemma run_without_manager_leaves_files_witness :
  let B := Toy.babel Programs.threeVars in
  let exit :=
    snd (visitAllIdentifiersWithCheckpoint B Runs.namesOracle Toy.clock 1000 true
           None Programs.threeVarsSource 0 Toy.freshWorld) in
  hasManager None = false
  /\ store (exit_world exit) = store Toy.freshWorld
  /\ ticks (exit_world exit) = ticks Toy.freshWorld.
Proof.
  intros B exit.
  assert (Hm : hasManager None = false) by reflexivity.
  destruct (@run_without_manager_leaves_files B nat Runs.namesOracle Toy.clock 1000
              true None Programs.threeVarsSource 0 Toy.freshWorld Hm)
    as (Hs & Ht & _).
  split; [exact Hm|]. split; [exact Hs | exact Ht].
Defined.

(** X10: [visitAllIdentifiers], the entry point without options, never
    writes a checkpoint or a shard and never clears one: whatever the
    checkpoint directory holds, it holds afterwards. *)
Theorem visitAllIdentifiers_leaves_files (B : Babel) (O : Type)
    (visitor : Visitor O) (clock : nat -> Z) (W : Z) (onProgress : bool)
    (code : string) (o : O) (w : World) :
  store (exit_world (snd (visitAllIdentifiers B visitor clock W onProgress code o w)))
  = store w
  /\ CheckpointManager.loadCheckpoint
       (exit_world (snd (visitAllIdentifiers B visitor clock W onProgress code o w)))
     = CheckpointManager.loadCheckpoint w
  /\ CheckpointManager.mergePartialResults
       (exit_world (snd (visitAllIdentifiers B visitor clock W onProgress code o w)))
     = CheckpointManager.mergePartialResults w.
Proof.
  unfold visitAllIdentifiers.
  destruct (@run_undisturbed B O visitor clock W onProgress None eq_refl code o w)
    as (Hs & _).
  unfold CheckpointManager.loadCheckpoint, CheckpointManager.mergePartialResults,
    CheckpointManager.loadPartialResults.
  rewrite Hs. repeat split.
Qed.


(* ====================================================================== *)
(** * The new names of a run *)
(* ====================================================================== *)

Section DistinctTargets.

Variable B : Babel.
Variable O : Type.
Variable visitor : Visitor O.
Variable clock : nat -> Z.
Variable W : Z.
Variable onProgress : bool.
Variable options : option VisitOptions.

Lemma map_set_values_In (m : JsMap.t) (k v x : string) :
  In x (JsMap.values (JsMap.set m k v)) -> x = v \/ In x (JsMap.values m).
Proof.
  unfold JsMap.values.
  induction m as [|[k' v'] m IH]; simpl.
  - intros [<-|[]]. now left.
  - destruct (String.eqb k' k); simpl.
    + intros [<-|H]; [now left | right; now right].
    + intros [<-|H]; [right; now left|].
      destruct (IH H) as [->|H']; [now left | right; now right].
Qed.

Lemma map_set_values_NoDup (m : JsMap.t) (k v : string) :
  NoDup (JsMap.values m) -> ~ In v (JsMap.values m) ->
  NoDup (JsMap.values (JsMap.set m k v)).
Proof.
  unfold JsMap.values.
  induction m as [|[k' v'] m IH]; simpl; intros Hnd Hv.
  - constructor; [intros [] | constructor].
  - apply NoDup_cons_iff in Hnd. destruct Hnd as [Hv' Hnd].
    destruct (String.eqb k' k); simpl.
    + constructor; [tauto | exact Hnd].
    + constructor; [|apply IH; tauto].
      intros Hin. apply map_set_values_In in Hin. destruct Hin as [->|Hin]; tauto.
Qed.

Lemma recordRename_distinct (st : VisitState B O) (path : NodePath B) (s name : string) :
  distinctTargets st ->
  distinctTargets (recordRename name (resolveCollisions st path s) st).
Proof.
  intros [Hnd Hsub].
  destruct (resolveCollisions_spec st path s) as (k & -> & Hfree & _).
  apply Bool.orb_false_iff in Hfree. destruct Hfree as [Hfree _].
  unfold distinctTargets, recordRename. cbn [renamesMap renames].
  split.
  - apply map_set_values_NoDup; [exact Hnd|].
    intros Hin. apply Hsub in Hin. congruence.
  - intros v Hin. apply map_set_values_In in Hin.
    rewrite set_has_add. destruct Hin as [->|Hin].
    + rewrite String.eqb_refl. apply Bool.orb_true_r.
    + rewrite (Hsub v Hin). reflexivity.
Qed.

Lemma distinctTargets_same (st st' : VisitState B O) :
  renamesMap st' = renamesMap st -> renames st' = renames st ->
  distinctTargets st -> distinctTargets st'.
Proof. unfold distinctTargets. intros -> ->. tauto. Qed.

Lemma afterParse_distinct (ast0 : Ast B) (w : World) (st : VisitState B O) :
  distinctTargets st ->
  distinctTargets (snd (afterParse visitor clock W onProgress options ast0 w st)).
Proof.
  apply afterParse_related
    with (R := fun s s' : VisitState B O => distinctTargets s -> distinctTargets s').
  - tauto.
  - intros s1 s2 s3 H1 H2 H. apply H2, H1, H.
  - intros s path r o _ _. now apply distinctTargets_same.
  - intros path renamed s Hs.
    destruct (scope_rename B (ast s) path (node_name B (ast s) path)
                (resolveCollisions s path (toIdentifier B renamed))) as [a|e] eqn:Hr.
    + destruct (@acceptRename_returns B O clock options path renamed s a Hr)
        as (s' & -> & _ & _ & Hmap & Hren & _).
      cbn [snd].
      pose proof (@recordRename_distinct s path (toIdentifier B renamed)
                    (node_name B (ast s) path) Hs) as Hd.
      revert Hd. apply distinctTargets_same; [exact Hmap | exact Hren].
    + rewrite (@acceptRename_throws B O clock options path renamed s e Hr).
      cbn [snd]. now apply recordRename_distinct.
  - intros n path s.
    destruct (@account_spec B O clock onProgress options n path s)
      as (s' & -> & _ & _ & Hmap & Hren & _).
    cbn [snd]. now apply distinctTargets_same.
  - intros _ s.
    destruct (@saveProgress_spec B O clock s) as (s' & -> & _ & _ & Hmap & Hren & _).
    cbn [snd]. now apply distinctTargets_same.
  - intros path oldName newName s. unfold applyRename.
    destruct (scope_rename B (ast s) path oldName newName); cbn [snd];
      now apply distinctTargets_same.
  - intros s. unfold finish, bind, get, getState, modify, when, onWorld, throw, ret.
    destruct onProgress, (hasManager options); cbn;
      destruct (transformFromAstAsync B (ast s)) as [[code|]|e]; cbn;
      now apply distinctTargets_same.
Qed.

(** X11: the new names of a run are pairwise distinct.  When the rename
    map of the checkpoint the run starts from gives no new name to two
    keys (as is the case without a checkpoint), the rename map the run
    ends with, returning or throwing, gives no new name to two keys
    either. *)
Theorem new_names_pairwise_distinct (code : string) (o : O) (w : World) :
  NoDup (JsMap.values (loadedRenames options w)) ->
  NoDup (JsMap.values
           (exit_renamesMap
              (snd (visitAllIdentifiersWithCheckpoint B visitor clock W onProgress
                      options code o w)))).
Proof.
  intros Hnd.
  destruct (parseAsync B code) as [[ast0|]|e] eqn:Hp.
  - rewrite visitAll_parsed with (ast0 := ast0) by exact Hp. cbn [snd].
    apply afterParse_distinct.
    split; [exact Hnd|].
    intros v Hin. cbn [initialState renames renamesMap] in *.
    rewrite set_has_of_list. apply existsb_exists.
    exists v. split; [exact Hin | apply String.eqb_refl].
  - unfold visitAllIdentifiersWithCheckpoint. rewrite Hp. exact Hnd.
  - unfold visitAllIdentifiersWithCheckpoint. rewrite Hp. exact Hnd.
Qed.

End DistinctTargets.

Lemma new_names_pairwise_distinct_witness :
  let B := Toy.babel Programs.twoFunctions in
  let w := exit_world (snd Runs.interruptedRun) in
  JsMap.values (loadedRenames (Runs.withManager 5) w) = ["x"]
  /\ NoDup (JsMap.values
              (exit_renamesMap
                 (snd (visitAllIdentifiersWithCheckpoint B Runs.yOracle Toy.clock 1000
                         true (Runs.withManager 5) Programs.twoFunctionsSource 0 w)))).
Proof.
  intros B w.
  assert (Hv : JsMap.values (loadedRenames (Runs.withManager 5) w) = ["x"])
    by (vm_compute; reflexivity).
  split; [exact Hv|].
  apply (@new_names_pairwise_distinct B nat Runs.yOracle Toy.clock 1000 true
           (Runs.withManager 5) Programs.twoFunctionsSource 0 w).
  rewrite Hv. constructor; [intros [] | constructor].
Defined.


(* ====================================================================== *)
(** * The checkpoint of a failed loop *)
(* ====================================================================== *)

Section FailedLoop.

Variable B : Babel.
Variable O : Type.
Variable visitor : Visitor O.
Variable clock : nat -> Z.
Variable W : Z.
Variable onProgress : bool.
Variable options : option VisitOptions.

Lemma wellFormed_same (st st' : VisitState B O) :
  processedIdentifiers st' = processedIdentifiers st ->
  renamesMap st' = renamesMap st ->
  wellFormed st -> wellFormed st'.
Proof. unfold wellFormed. intros -> ->. tauto. Qed.

Lemma visitFrom_wellFormed (n : nat) (l : list (NodePath B)) (st : VisitState B O) :
  wellFormed st ->
  wellFormed (snd (visitFrom visitor clock W onProgress options n l st)).
Proof.
  apply visitFrom_related
    with (R := fun s s' : VisitState B O => wellFormed s -> wellFormed s').
  - tauto.
  - intros s1 s2 s3 H1 H2 H. apply H2, H1, H.
  - intros s path r o _ _. now apply wellFormed_same.
  - intros path renamed s [Hp Hk].
    assert (Hrec : wellFormed
                     (recordRename (node_name B (ast s) path)
                        (resolveCollisions s path (toIdentifier B renamed)) s)).
    { split; [exact Hp|]. cbn [recordRename renamesMap]. now apply map_set_NoDup. }
    destruct (scope_rename B (ast s) path (node_name B (ast s) path)
                (resolveCollisions s path (toIdentifier B renamed))) as [a|e] eqn:Hr.
    + destruct (@acceptRename_returns B O clock options path renamed s a Hr)
        as (s' & -> & _ & Hproc & Hmap & _).
      cbn [snd]. revert Hrec. apply wellFormed_same; [exact Hproc | exact Hmap].
    + rewrite (@acceptRename_throws B O clock options path renamed s e Hr).
      exact Hrec.
  - intros n' path s [Hp Hk].
    destruct (@account_spec B O clock onProgress options n' path s)
      as (s' & -> & _ & Hproc & Hmap & _).
    cbn [snd]. split; [rewrite Hproc; now apply set_add_NoDup | now rewrite Hmap].
Qed.

(** X12: when the loop fails in a run with a checkpoint manager, the
    checkpoint the [catch] block leaves is the bookkeeping of the failed
    run: what the next run loads from it as processed set, rename map and
    start index are the processed set, the rename map and the count the
    failed run ended with. *)
Theorem failed_loop_checkpoint_is_bookkeeping (scopes : list (NodePath B))
    (startIndex : nat) (st st' : VisitState B O) (e : JsError) :
  hasManager options = true ->
  wellFormed st ->
  visitLoop visitor clock W onProgress options scopes startIndex st = (Thrown e, st') ->
  loadedProcessed options (world st') = processedIdentifiers st'
  /\ loadedRenames options (world st') = renamesMap st'
  /\ loadedIndex options (world st') = processedCount st'.
Proof.
  intros Hm Hwf Hloop.
  unfold visitLoop, tryCatch in Hloop.
  pose proof (visitFrom_wellFormed (length scopes) (skipn startIndex scopes) Hwf)
    as Hwf1.
  destruct (visitFrom visitor clock W onProgress options (length scopes)
              (skipn startIndex scopes) st) as [[[]|e1] st1]; [discriminate|].
  cbn [snd] in Hwf1. unfold bind, when in Hloop. rewrite Hm in Hloop.
  destruct (@saveProgress_spec B O clock st1)
    as (st2 & Hsave & _ & Hproc & Hmap & _ & _ & Hcount & _ & _ & Hfile & _).
  rewrite Hsave in Hloop. unfold throw in Hloop. injection Hloop as _ <-.
  unfold loadedProcessed, loadedRenames, loadedIndex, loadedCheckpoint,
    CheckpointManager.loadCheckpoint.
  rewrite Hm, Hfile, Hproc, Hmap, Hcount.
  destruct Hwf1 as [Hp Hk].
  cbn -[JsSet.of_list JsMap.of_entries].
  rewrite set_of_list_nodup by exact Hp.
  unfold JsMap.entries. rewrite map_of_entries_nodup by exact Hk.
  repeat split.
Qed.

End FailedLoop.

Lemma failed_loop_checkpoint_is_bookkeeping_witness :
  let B := Toy.babel Programs.lockedVars in
  let st := Runs.freshState Programs.lockedVars in
  let run :=
    visitLoop Runs.namesOracle Toy.clock 1000 true (Runs.withManager 5)
      (findScopes B Programs.lockedVars) 0 st in
  fst run = Thrown "cannot rename"
  /\ loadedRenames (Runs.withManager 5) (world (snd run)) = renamesMap (snd run)
  /\ renamesMap (snd run) = [("a", "alpha"); ("b", "beta")].
Proof.
  intros B st run.
  assert (Hrun : visitLoop Runs.namesOracle Toy.clock 1000 true (Runs.withManager 5)
                   (findScopes B Programs.lockedVars) 0 st
                 = (Thrown "cannot rename", snd run)) by (vm_compute; reflexivity).
  assert (Hwf : wellFormed st) by (split; constructor).
  destruct (@failed_loop_checkpoint_is_bookkeeping B nat Runs.namesOracle Toy.clock
              1000 true (Runs.withManager 5) (findScopes B Programs.lockedVars) 0
              st (snd run) "cannot rename" eq_refl Hwf Hrun) as (_ & Hr & _).
  split; [vm_compute; reflexivity|]. split; [exact Hr | vm_compute; reflexivity].
Defined.


(* ====================================================================== *)
(** * How often the oracle is asked, and what is reported *)
(* ====================================================================== *)

Section Counting.

Variable B : Babel.
Variable O : Type.
Variable visitor : Visitor O.
Variable clock : nat -> Z.
Variable W : Z.
Variable onProgress : bool.
Variable options : option VisitOptions.

Lemma spent_step (st st' : VisitState B O) (evs : list Event) (calls counted : nat) :
  trace (world st') = trace (world st) ++ evs ->
  length (oracleNames evs) <= calls ->
  processedCount st' <= processedCount st + counted ->
  Forall progressWithin evs ->
  spent calls counted st st'.
Proof. intros. exists evs. tauto. Qed.

Lemma spent_nothing (st st' : VisitState B O) :
  world st' = world st -> processedCount st' = processedCount st ->
  spent 0 0 st st'.
Proof.
  intros Hw Hc. apply spent_step with (evs := []).
  - rewrite Hw. symmetry. apply app_nil_r.
  - apply Nat.le_refl.
  - rewrite Hc. lia.
  - constructor.
Qed.

Lemma spent_trans (st1 st2 st3 : VisitState B O) (c1 c2 k1 k2 : nat) :
  spent c1 k1 st1 st2 -> spent c2 k2 st2 st3 -> spent (c1 + c2) (k1 + k2) st1 st3.
Proof.
  intros (evs1 & He1 & Hc1 & Hk1 & Hp1) (evs2 & He2 & Hc2 & Hk2 & Hp2).
  apply spent_step with (evs := evs1 ++ evs2).
  - rewrite He2, He1. symmetry. apply app_assoc.
  - rewrite oracleNames_app, length_app. lia.
  - lia.
  - apply Forall_app. tauto.
Qed.

Lemma spent_weaken (st st' : VisitState B O) (c k c' k' : nat) :
  c <= c' -> k <= k' -> spent c k st st' -> spent c' k' st st'.
Proof.
  intros Hc Hk (evs & He & Hc1 & Hk1 & Hp).
  apply spent_step with (evs := evs); try assumption; lia.
Qed.

Lemma acceptRename_spent (path : NodePath B) (renamed : string) (st : VisitState B O) :
  spent 0 0 st (snd (acceptRename clock options path renamed st)).
Proof.
  destruct (scope_rename B (ast st) path (node_name B (ast st) path)
              (resolveCollisions st path (toIdentifier B renamed))) as [a|e] eqn:Hr.
  - destruct (@acceptRename_returns B O clock options path renamed st a Hr)
      as (st' & -> & _ & _ & _ & _ & _ & Hc & _ & _ & _ & Hw).
    cbn zeta in Hw. cbn [snd].
    destruct (hasManager options).
    + destruct (CheckpointManager.writable _); destruct Hw as [Ht _].
      * eapply spent_step;
          [exact Ht | apply Nat.le_refl | rewrite Hc; lia | repeat constructor].
      * apply spent_step with (evs := []);
          [rewrite Ht; symmetry; apply app_nil_r | apply Nat.le_refl
          | rewrite Hc; lia | constructor].
    + now apply spent_nothing.
  - rewrite (@acceptRename_throws B O clock options path renamed st e Hr).
    now apply spent_nothing.
Qed.

Lemma account_spent (n : nat) (path : NodePath B) (st : VisitState B O) :
  processedCount st < n ->
  spent 0 1 st (snd (account clock onProgress options n path st)).
Proof.
  intros Hlt.
  destruct (@account_spec B O clock onProgress options n path st)
    as (st' & -> & _ & _ & _ & _ & _ & Hc & _ & _ & _ & Ht & _).
  cbn [snd]. eapply spent_step; [exact Ht | | rewrite Hc; lia |].
  - rewrite !oracleNames_app.
    destruct onProgress, (hasManager options && _); apply Nat.le_refl.
  - apply Forall_app. split.
    + destruct onProgress; repeat constructor. exact Hlt.
    + destruct (hasManager options && _); repeat constructor.
Qed.

Lemma visitBinding_spent (n : nat) (path : NodePath B) (st : VisitState B O) :
  processedCount st < n ->
  spent 1 1 st (snd (visitBinding visitor clock W onProgress options n path st)).
Proof.
  intros Hlt.
  destruct (hasVisited B (ast st) path (visited st)) eqn:Hv.
  { rewrite visitBinding_visited by exact Hv.
    apply spent_weaken with (c := 0) (k := 0); [lia | lia | now apply spent_nothing]. }
  destruct (node_isIdentifier B (ast st) path) eqn:Hid.
  2:{ rewrite visitBinding_not_identifier by assumption.
      apply spent_weaken with (c := 0) (k := 0); [lia | lia | now apply spent_nothing]. }
  destruct (visitor (node_name B (ast st) path) (scopeToString B (ast st) path W)
              (oracle st)) as [[renamed|e] o] eqn:Hor.
  2:{ rewrite visitBinding_oracle_throws with (e := e) (o := o) by assumption.
      cbn [snd]. eapply spent_step;
        [reflexivity | apply Nat.le_refl | cbn; lia | repeat constructor]. }
  rewrite visitBinding_oracle_returns with (renamed := renamed) (o := o) by assumption.
  set (s1 := afterOracle st _ _ o).
  assert (H1 : spent 1 0 st s1).
  { eapply spent_step;
      [reflexivity | apply Nat.le_refl | cbn; lia | repeat constructor]. }
  assert (Hc1 : processedCount s1 = processedCount st) by reflexivity.
  destruct (String.eqb renamed (node_name B (ast st) path)); simpl when; unfold bind.
  - unfold ret.
    apply (@spent_trans st s1 _ 1 0 0 1 H1). apply account_spent. now rewrite Hc1.
  - pose proof (acceptRename_spent path renamed s1) as H2.
    destruct (acceptRename clock options path renamed s1) as [[[]|e] s2];
      cbn [snd] in *.
    + apply (@spent_trans st s1 _ 1 0 0 1 H1).
      apply (@spent_trans s1 s2 _ 0 0 0 1 H2).
      apply account_spent.
      destruct H2 as (_ & _ & _ & Hk & _). lia.
    + apply spent_weaken with (c := 1 + 0) (k := 0 + 0); [lia | lia |].
      eapply spent_trans; eassumption.
Qed.

Lemma visitFrom_spent (n : nat) (l : list (NodePath B)) (st : VisitState B O) :
  l = [] \/ processedCount st + length l <= n ->
  spent (length l) (length l) st
    (snd (visitFrom visitor clock W onProgress options n l st)).
Proof.
  revert st; induction l as [|p l IH]; intros st Hn.
  - now apply spent_nothing.
  - destruct Hn as [Hn|Hn]; [discriminate|]. cbn [length] in Hn.
    cbn [visitFrom]. unfold bind.
    assert (Hlt : processedCount st < n) by lia.
    pose proof (@visitBinding_spent n p st Hlt) as Hp.
    destruct (visitBinding visitor clock W onProgress options n p st) as [[[]|e] st1];
      cbn [snd] in *.
    + change (length (p :: l)) with (1 + length l).
      eapply spent_trans; [exact Hp|]. apply IH. right.
      destruct Hp as (_ & _ & _ & Hk & _). lia.
    + apply spent_weaken with (c := 1) (k := 1); [cbn; lia | cbn; lia | exact Hp].
Qed.

Lemma visitLoop_spent (scopes : list (NodePath B)) (startIndex : nat)
    (st : VisitState B O) :
  processedCount st = startIndex ->
  spent (length scopes - startIndex) (length scopes - startIndex) st
    (snd (visitLoop visitor clock W onProgress options scopes startIndex st)).
Proof.
  intros Hc. unfold visitLoop, tryCatch.
  assert (Hn : skipn startIndex scopes = []
               \/ processedCount st + length (skipn startIndex scopes)
                  <= length scopes).
  { destruct (Nat.le_gt_cases startIndex (length scopes)) as [Hle|Hgt].
    - right. rewrite length_skipn. lia.
    - left. apply skipn_all2. lia. }
  pose proof (@visitFrom_spent (length scopes) (skipn startIndex scopes) st Hn) as Hl.
  rewrite length_skipn in Hl.
  destruct (visitFrom visitor clock W onProgress options (length scopes)
              (skipn startIndex scopes) st) as [[[]|e] st1]; [exact Hl|].
  cbn [snd] in Hl. unfold bind, when.
  destruct (hasManager options); [|exact Hl].
  destruct (@saveProgress_spec B O clock st1)
    as (st2 & -> & _ & _ & _ & _ & _ & Hc2 & _ & Ht & _).
  unfold throw. cbn [snd].
  rewrite <- (Nat.add_0_r (length scopes - startIndex)).
  eapply spent_trans; [exact Hl|].
  eapply spent_step;
    [exact Ht | apply Nat.le_refl | rewrite Hc2; lia | repeat constructor].
Qed.

Lemma finish_spent (st : VisitState B O) :
  spent 0 0 st (snd (finish onProgress options st)).
Proof.
  unfold finish, bind, get, getState, modify, when, onWorld, throw, ret.
  destruct onProgress, (hasManager options); cbn;
    destruct (transformFromAstAsync B (ast st)) as [[code|]|e]; cbn;
    try (now apply spent_nothing);
    (eapply spent_step;
     [cbn; rewrite <- ?app_assoc; reflexivity | apply Nat.le_refl | cbn; lia
     | repeat constructor]).
Qed.

Lemma afterParse_spent (ast0 : Ast B) (o : O) (w : World) :
  let n := length (findScopes B ast0) - loadedIndex options w in
  spent n n (initialState B options ast0 o w)
    (snd (afterParse visitor clock W onProgress options ast0 w
            (initialState B options ast0 o w))).
Proof.
  intros n. unfold afterParse, bind.
  set (st := initialState B options ast0 o w).
  set (pre := when _ _).
  assert (Hpre : world (snd (pre st)) = world st
                 /\ processedCount (snd (pre st)) = processedCount st).
  { unfold pre, when.
    destruct (match loadedCheckpoint options w with
              | Some _ => _ | None => false end); [|now split].
    apply reapplyRenames_related
      with (R := fun s s' : VisitState B O =>
                   world s' = world s /\ processedCount s' = processedCount s).
    - now split.
    - intros s1 s2 s3 [H1 H2] [H3 H4]. split; congruence.
    - intros path oldName newName s. unfold applyRename.
      now destruct (scope_rename B (ast s) path oldName newName). }
  destruct Hpre as [Hw0 Hc0].
  destruct (pre st) as [[[]|e] st1]; cbn [snd] in *.
  2:{ apply spent_weaken with (c := 0) (k := 0); [lia | lia | now apply spent_nothing]. }
  assert (H0 : spent 0 0 st st1) by now apply spent_nothing.
  assert (Hidx : processedCount st1 = loadedIndex options w) by (now rewrite Hc0).
  pose proof (@visitLoop_spent (findScopes B ast0) (loadedIndex options w) st1 Hidx)
    as Hloop. fold n in Hloop.
  destruct (visitLoop visitor clock W onProgress options (findScopes B ast0)
              (loadedIndex options w) st1) as [[[]|e] st2]; cbn [snd] in *.
  - rewrite <- (Nat.add_0_r n).
    eapply spent_trans; [|apply finish_spent].
    apply (@spent_trans st st1 st2 0 n 0 n H0 Hloop).
  - apply (@spent_trans st st1 st2 0 n 0 n H0 Hloop).
Qed.

(** X13: the oracle is asked at most once for each binding from the start
    index on: the number of its calls in a run is at most the number of
    binding identifiers minus the index the run starts from. *)
Theorem oracle_asked_once_per_binding (code : string) (o : O) (w : World)
    (ast0 : Ast B) :
  parseAsync B code = Returned (Some ast0) ->
  exists evs,
    trace (exit_world
             (snd (visitAllIdentifiersWithCheckpoint B visitor clock W onProgress
                     options code o w)))
    = trace w ++ evs
    /\ length (oracleNames evs)
       <= length (bindingIdentifiers B ast0) - loadedIndex options w.
Proof.
  intros Hp.
  rewrite visitAll_parsed with (ast0 := ast0) by exact Hp. cbn [snd].
  destruct (afterParse_spent ast0 o w) as (evs & Ht & Hc & _).
  exists evs. split; [exact Ht|].
  assert (Hlen : length (findScopes B ast0) = length (bindingIdentifiers B ast0)).
  { rewrite findScopes_sort. apply Permutation_length, sort_perm. }
  rewrite <- Hlen. exact Hc.
Qed.

(** X14: no progress report exceeds the whole: in every call of the
    progress callback during a run, the count of processed bindings is at
    most the number of bindings, also when the run resumes from a
    checkpoint whose index is beyond the end. *)
Theorem progress_at_most_whole (code : string) (o : O) (w : World) :
  exists evs,
    trace (exit_world
             (snd (visitAllIdentifiersWithCheckpoint B visitor clock W onProgress
                     options code o w)))
    = trace w ++ evs
    /\ Forall progressWithin evs.
Proof.
  destruct (parseAsync B code) as [[ast0|]|e] eqn:Hp.
  - rewrite visitAll_parsed with (ast0 := ast0) by exact Hp. cbn [snd].
    destruct (afterParse_spent ast0 o w) as (evs & Ht & _ & _ & Hprog).
    exists evs. split; assumption.
  - unfold visitAllIdentifiersWithCheckpoint. rewrite Hp.
    exists []. split; [symmetry; apply app_nil_r | constructor].
  - unfold visitAllIdentifiersWithCheckpoint. rewrite Hp.
    exists []. split; [symmetry; apply app_nil_r | constructor].
Qed.

End Counting.

Lemma oracle_asked_once_per_binding_witness :
  let B := Toy.babel Programs.twoFunctions in
  let w := exit_world (snd Runs.interruptedRun) in
  parseAsync B Programs.twoFunctionsSource = Returned (Some Programs.twoFunctions)
  /\ exists evs,
       trace (exit_world
                (snd (visitAllIdentifiersWithCheckpoint B Runs.yOracle Toy.clock 1000
                        true (Runs.withManager 5) Programs.twoFunctionsSource 0 w)))
       = trace w ++ evs
       /\ length (oracleNames evs)
          <= length (bindingIdentifiers B Programs.twoFunctions)
             - loadedIndex (Runs.withManager 5) w.
Proof.
  intros B w.
  assert (Hp : parseAsync B Programs.twoFunctionsSource
               = Returned (Some Programs.twoFunctions)) by (vm_compute; reflexivity).
  split; [exact Hp|].
  exact (@oracle_asked_once_per_binding B nat Runs.yOracle Toy.clock 1000 true
           (Runs.withManager 5) Programs.twoFunctionsSource 0 w Programs.twoFunctions
           Hp).
Defined.


(* ====================================================================== *)
(** * How a run ends *)
(* ====================================================================== *)

Section Endings.

Variable B : Babel.
Variable O : Type.
Variable visitor : Visitor O.
Variable clock : nat -> Z.
Variable W : Z.
Variable onProgress : bool.
Variable options : option VisitOptions.

Lemma afterParse_returns (ast0 : Ast B) (w : World) (st st' : VisitState B O)
    (out : string) :
  afterParse visitor clock W onProgress options ast0 w st = (Returned out, st') ->
  exists st2, finish onProgress options st2 = (Returned out, st').
Proof.
  unfold afterParse, bind. intros H.
  destruct (when _ _ st) as [[[]|e] st1]; [|discriminate].
  destruct (visitLoop _ _ _ _ _ _ _ st1) as [[[]|e] st2]; [|discriminate].
  now exists st2.
Qed.

Lemma finish_returns (st st' : VisitState B O) (out : string) :
  finish onProgress options st = (Returned out, st') ->
  transformFromAstAsync B (ast st) = Returned (Some out)
  /\ world st'
     = (if hasManager options then CheckpointManager.clearCheckpoint else fun w => w)
         ((if onProgress then emit ProgressDone else fun w => w) (world st)).
Proof.
  unfold finish, bind, get, getState, modify, when, onWorld, throw, ret.
  destruct onProgress, (hasManager options); cbn;
    destruct (transformFromAstAsync B (ast st)) as [[code|]|e]; cbn;
    intros H; try discriminate; injection H as <- <-; split; reflexivity.
Qed.

(** X15: a run with a checkpoint manager that returns leaves no checkpoint:
    the checkpoint file is gone, clearing it was the last thing the run
    did, and a next run finds nothing to resume from.  The code it returns
    is the one generated from the AST as the run left it. *)
Theorem returned_run_leaves_no_checkpoint (code out : string) (o : O) (w : World) :
  hasManager options = true ->
  fst (visitAllIdentifiersWithCheckpoint B visitor clock W onProgress options code o w)
  = Returned out ->
  let exit :=
    snd (visitAllIdentifiersWithCheckpoint B visitor clock W onProgress options
           code o w) in
  CheckpointManager.hasCheckpoint (exit_world exit) = false
  /\ loadedCheckpoint options (exit_world exit) = None
  /\ exists evs, trace (exit_world exit) = evs ++ [CheckpointCleared].
Proof.
  intros Hm Hret exit. subst exit.
  destruct (parseAsync B code) as [[ast0|]|e] eqn:Hp.
  2,3: unfold visitAllIdentifiersWithCheckpoint in Hret; rewrite Hp in Hret;
       discriminate.
  rewrite visitAll_parsed with (ast0 := ast0) in * by exact Hp.
  cbn [fst snd] in *.
  destruct (afterParse visitor clock W onProgress options ast0 w
              (initialState B options ast0 o w)) as [r st'] eqn:Hrun.
  cbn [fst snd] in *. subst r.
  destruct (afterParse_returns _ _ _ Hrun) as (st2 & Hfin).
  destruct (finish_returns _ Hfin) as (_ & Hw).
  rewrite Hm in Hw.
  unfold loadedCheckpoint, CheckpointManager.hasCheckpoint,
    CheckpointManager.loadCheckpoint.
  cbn [exitOf exit_world]. rewrite Hw, Hm.
  repeat split. eexists. reflexivity.
Qed.

(** What the function does when a rename of the checkpoint cannot be
    applied again. *)
Lemma reapplyRenames_sameBookkeeping (scopes : list (NodePath B))
    (entries : list (string * string)) (st : VisitState B O) :
  sameBookkeeping st (snd (reapplyRenames scopes entries st)).
Proof.
  apply reapplyRenames_related with (R := @sameBookkeeping B O).
  - intros s. repeat split.
  - intros s1 s2 s3 (H1 & H2 & H3 & H4 & H5) (H6 & H7 & H8 & H9 & H10).
    repeat split; congruence.
  - intros path oldName newName s. unfold applyRename.
    destruct (scope_rename B (ast s) path oldName newName); repeat split.
Qed.

(** X16: when a rename of the checkpoint cannot be applied again (the
    rename throws), the run ends there with that error: the oracle is not
    asked, nothing is written, the checkpoint stays as it is, and the
    bookkeeping is the one loaded. *)
Theorem failed_reapply_ends_run (code : string) (o : O) (w : World) (ast0 : Ast B)
    (e : JsError) :
  parseAsync B code = Returned (Some ast0) ->
  fst (reapplyRenames (findScopes B ast0) (JsMap.entries (loadedRenames options w))
         (initialState B options ast0 o w))
  = Thrown e ->
  visitAllIdentifiersWithCheckpoint B visitor clock W onProgress options code o w
  = (Thrown e, earlyExit options o w).
Proof.
  intros Hp Hre.
  rewrite visitAll_parsed with (ast0 := ast0) by exact Hp.
  unfold afterParse, bind.
  assert (Hcond : match loadedCheckpoint options w with
                  | Some _ => (0 <? JsMap.size (loadedRenames options w))%nat
                  | None => false
                  end = true).
  { unfold loadedRenames in *.
    destruct (loadedCheckpoint options w) as [c|]; [|discriminate].
    unfold JsMap.size, JsMap.entries in *.
    destruct (CheckpointData.renames c); [discriminate | reflexivity]. }
  rewrite Hcond. simpl when.
  pose proof (reapplyRenames_sameBookkeeping (findScopes B ast0)
                (JsMap.entries (loadedRenames options w))
                (initialState B options ast0 o w)) as (Hw & Ho & Hproc & Hmap & Hc).
  destruct (reapplyRenames (findScopes B ast0) (JsMap.entries (loadedRenames options w))
              (initialState B options ast0 o w)) as [[[]|e'] st1];
    cbn [fst snd] in *; [discriminate|].
  injection Hre as ->.
  unfold exitOf, earlyExit. rewrite Hw, Ho, Hproc, Hmap, Hc. reflexivity.
Qed.

End Endings.

Lemma returned_run_leaves_no_checkpoint_witness :
  let B := Toy.babel Programs.threeVars in
  let run :=
    visitAllIdentifiersWithCheckpoint B Runs.namesOracle Toy.clock 1000 true
      (Runs.withManager 10) Programs.threeVarsSource 0 Toy.freshWorld in
  fst run = Returned (Toy.generate
                        (Programs.declaration Programs.threeVarsSource Programs.threeVarsText
                           [("alpha", (4, 5)%Z); ("beta", (8, 9)%Z); ("c", (14, 15)%Z)]
                           []))
  /\ CheckpointManager.hasCheckpoint (exit_world (snd run)) = false.
Proof.
  intros B run.
  assert (Hret : fst run
                 = Returned (Toy.generate
                               (Programs.declaration Programs.threeVarsSource Programs.threeVarsText
                                  [("alpha", (4, 5)%Z); ("beta", (8, 9)%Z);
                                   ("c", (14, 15)%Z)] [])))
    by (vm_compute; reflexivity).
  split; [exact Hret|].
  destruct (@returned_run_leaves_no_checkpoint B nat Runs.namesOracle Toy.clock 1000
              true (Runs.withManager 10) Programs.threeVarsSource _ 0 Toy.freshWorld
              eq_refl Hret) as (Hno & _).
  exact Hno.
Defined.

Lemma failed_reapply_ends_run_witness :
  let B := Toy.babel Programs.lockedVars in
  let w := exit_world (snd Runs.lockedRun) in
  JsMap.entries (loadedRenames (Runs.withManager 5) w) = [("a", "alpha"); ("b", "beta")]
  /\ visitAllIdentifiersWithCheckpoint B Runs.namesOracle Toy.clock 1000 true
       (Runs.withManager 5) Programs.lockedSource 0 w
     = (Thrown "cannot rename", earlyExit (Runs.withManager 5) 0 w).
Proof.
  intros B w. split; [vm_compute; reflexivity|].
  apply (@failed_reapply_ends_run B nat Runs.namesOracle Toy.clock 1000 true
           (Runs.withManager 5) Programs.lockedSource 0 w Programs.lockedVars
           "cannot rename").
  - vm_compute; reflexivity.
  - vm_compute; reflexivity.
Defined.

Lemma visitLoop_oracle_failure_witness :
  let B := Toy.babel Programs.threeVars in
  let a : NodePath B := Toy.Identifier 0 in
  let b : NodePath B := Toy.Identifier 1 in
  let c : NodePath B := Toy.Identifier 2 in
  exists st',
    visitLoop Cases.aOnlyOracle Toy.clock 1000 true (Runs.withManager 5) [a; b; c] 0
      (Runs.freshState Programs.threeVars)
    = (Thrown "oracle failure", st')
    /\ checkpointFile (store (world st'))
       = Some (progressRecord Cases.afterFirstBinding
                 (Toy.clock (ticks (world Cases.afterFirstBinding))))
    /\ processedIdentifiers st' = processedIdentifiers Cases.afterFirstBinding
    /\ renamesMap st' = renamesMap Cases.afterFirstBinding
    /\ processedCount st' = processedCount Cases.afterFirstBinding.
Proof.
  intros B a b c.
  apply (@visitLoop_oracle_failure B nat Cases.aOnlyOracle Toy.clock 1000 true
           (Runs.withManager 5) [a; b; c] [a] [c] 0 b
           (Runs.freshState Programs.threeVars) Cases.afterFirstBinding
           "oracle failure" 2).
  - reflexivity.
  - reflexivity.
  - vm_compute; reflexivity.
  - vm_compute; reflexivity.
  - vm_compute; reflexivity.
  - vm_compute; reflexivity.
Defined.


(* ====================================================================== *)
(** * The driver, file by file *)
(* ====================================================================== *)

Section Files.

Lemma lookupFile_storeFile_same (path content : string) (files : list (string * string)) :
  lookupFile path (storeFile path content files) = Some content.
Proof.
  induction files as [|[p c] files IH]; simpl.
  - now rewrite String.eqb_refl.
  - destruct (String.eqb p path) eqn:E; simpl; rewrite E; [reflexivity | exact IH].
Qed.

Lemma lookupFile_storeFile_other (path other content : string)
    (files : list (string * string)) :
  other <> path ->
  lookupFile other (storeFile path content files) = lookupFile other files.
Proof.
  intros Hne. induction files as [|[p c] files IH]; simpl.
  - apply String.eqb_neq in Hne. rewrite String.eqb_sym. now rewrite Hne.
  - destruct (String.eqb_spec p path) as [->|Hp]; simpl.
    + destruct (String.eqb_spec path other) as [->|_]; [now destruct Hne | reflexivity].
    + now rewrite IH.
Qed.

End Files.

Section DriverSteps.

Variable B : Babel.
Variable O : Type.
Variable clock : nat -> Z.
Variable openaiVisitor : Visitor O.
Variable geminiVisitor : Visitor O.
Variable defineFilename : string -> O -> Outcome string * O.
Variable unminifyVariableName : string -> Visitor O.
Variable webcrack :
  string -> string -> list (string * string)
  -> Outcome (list string) * list (string * string).
Variable outputDir : string.
Variable plugins : list (Plugin O).
Variable options : UnminifyOptions.

Abbreviation dispatch :=
  (dispatchPlugin B clock openaiVisitor geminiVisitor defineFilename
     unminifyVariableName outputDir options).
Abbreviation stage :=
  (pluginWithCheckpoint B clock openaiVisitor geminiVisitor defineFilename
     unminifyVariableName outputDir options).
Abbreviation chainOf :=
  (runChain B clock openaiVisitor geminiVisitor defineFilename
     unminifyVariableName outputDir options).
Abbreviation fileStep :=
  (processFile B clock openaiVisitor geminiVisitor defineFilename
     unminifyVariableName outputDir plugins options).
Abbreviation fileLoop :=
  (processFiles B clock openaiVisitor geminiVisitor defineFilename
     unminifyVariableName outputDir plugins options).

(** No stage touches the files of the bundle. *)
Lemma dispatch_files (plugin : Plugin O) (code : string) (st : DriverState O) :
  d_files (snd (dispatch plugin code st)) = d_files st.
Proof.
  unfold dispatchPlugin, runStage, runPlain.
  destruct (driverManager outputDir options), (plugin_config plugin);
    repeat match goal with
           | |- context [if ?b then _ else _] => destruct b
           end;
    match goal with
    | |- d_files (snd (let (_, _) := ?x in _)) = _ => now destruct x
    end.
Qed.

Lemma stage_files (i : nat) (plugin : Plugin O) (code : string) (st : DriverState O) :
  d_files (snd (stage i plugin code st)) = d_files st.
Proof.
  unfold pluginWithCheckpoint, tryCatch.
  pose proof (dispatch_files plugin code st) as H.
  destruct (dispatch plugin code st) as [[out|e] st1]; cbn [snd] in *; [exact H|].
  unfold bind, when, saveFileCheckpoint, driverNow, onDriverWorld, modify, throw.
  now destruct (driverHasManager outputDir options).
Qed.

Lemma chain_files (i : nat) (chain : list (Plugin O)) (code : string)
    (st : DriverState O) :
  d_files (snd (chainOf i chain code st)) = d_files st.
Proof.
  revert code st; induction chain as [|plugin chain IH]; intros code st; [reflexivity|].
  cbn [runChain]. unfold bind.
  pose proof (stage_files i plugin code st) as H.
  destruct (stage i plugin code st) as [[out|e] st1]; cbn [snd] in *; [|exact H].
  now rewrite IH.
Qed.

(** A chain that throws has thrown in a stage, whose [catch] block saved
    the file-level checkpoint. *)
Lemma stage_throws (i : nat) (plugin : Plugin O) (code : string)
    (st st' : DriverState O) (e : JsError) :
  theEnableCheckpoint options = true ->
  stage i plugin code st = (Thrown e, st') ->
  exists t,
    checkpointFile (store (d_world st')) = Some (SerializedCheckpoint.make [] [] i 0 t).
Proof.
  intros Hen. unfold pluginWithCheckpoint, tryCatch, driverHasManager, driverManager.
  rewrite Hen.
  destruct (dispatch plugin code st) as [[out|e1] st1]; [discriminate|].
  unfold bind, when, saveFileCheckpoint, driverNow, onDriverWorld, modify, throw.
  cbn. intros H. injection H as _ <-. eexists. reflexivity.
Qed.

Lemma chain_throws (i : nat) (chain : list (Plugin O)) (code : string)
    (st st' : DriverState O) (e : JsError) :
  theEnableCheckpoint options = true ->
  chainOf i chain code st = (Thrown e, st') ->
  exists t,
    checkpointFile (store (d_world st')) = Some (SerializedCheckpoint.make [] [] i 0 t).
Proof.
  intros Hen. revert code st; induction chain as [|plugin chain IH]; intros code st.
  - discriminate.
  - cbn [runChain]. unfold bind.
    destruct (stage i plugin code st) as [[out|e1] st1] eqn:Hs.
    + apply IH.
    + intros H. injection H as <- <-. eapply stage_throws; eassumption.
Qed.

(** X18: when a stage of the chain throws while file [i] is processed, the
    checkpoint left behind is the file-level one: whatever a rename stage
    had saved about the identifiers of that file is replaced by an empty
    processed set, an empty rename map and identifier index 0, with file
    index [i], so a run that resumes starts at file [i] from its first
    identifier. *)
Theorem failed_stage_leaves_file_checkpoint (i : nat) (chain : list (Plugin O))
    (code : string) (st st' : DriverState O) (e : JsError) :
  theEnableCheckpoint options = true ->
  chainOf i chain code st = (Thrown e, st') ->
  (exists t,
     CheckpointManager.loadCheckpoint (d_world st')
     = Some (CheckpointData.make JsSet.empty JsMap.empty i 0 t))
  /\ forall (dir : string) (next : UnminifyOptions),
       theEnableCheckpoint next = true ->
       theResumeFromCheckpoint next = true ->
       driverStartIndex dir next (d_world st') = i.
Proof.
  intros Hen Hchain.
  destruct (@chain_throws i chain code st st' e Hen Hchain) as (t & Hfile).
  split.
  - exists t. unfold CheckpointManager.loadCheckpoint. rewrite Hfile. reflexivity.
  - intros dir next Hen' Hres.
    unfold driverStartIndex, driverHasManager, driverManager,
      CheckpointManager.loadCheckpoint.
    rewrite Hen', Hres, Hfile. reflexivity.
Qed.

(** X19: a file that is not blank and whose chain returns is rewritten
    with the output of the chain, and the checkpoint then names the next
    file, with an empty processed set and rename map. *)
Theorem processed_file_is_rewritten (i : nat) (filePath code out : string)
    (st st1 : DriverState O) :
  theEnableCheckpoint options = true ->
  lookupFile filePath (d_files st) = Some code ->
  JsString.trimIsEmpty code = false ->
  chainOf i plugins code st = (Returned out, st1) ->
  exists st2,
    fileStep i filePath st = (Returned tt, st2)
    /\ lookupFile filePath (d_files st2) = Some out
    /\ (forall other, other <> filePath ->
          lookupFile other (d_files st2) = lookupFile other (d_files st))
    /\ d_oracle st2 = d_oracle st1
    /\ CheckpointManager.loadCheckpoint (d_world st2)
       = Some (CheckpointData.make JsSet.empty JsMap.empty (S i) 0
                 (clock (ticks (d_world st1)))).
Proof.
  intros Hen Hfile Hblank Hchain.
  pose proof (chain_files i plugins code st) as Hfiles.
  rewrite Hchain in Hfiles. cbn [snd] in Hfiles.
  unfold processFile, readFile, bind, tryCatch. rewrite Hfile, Hblank, Hchain.
  unfold driverHasManager, driverManager. rewrite Hen.
  unfold writeFile, when, saveFileCheckpoint, driverNow, onDriverWorld, modify, bind.
  cbn. eexists. split; [reflexivity|]. cbn.
  split; [apply lookupFile_storeFile_same|].
  split; [|split; reflexivity].
  intros other Hne. rewrite Hfiles. now apply lookupFile_storeFile_other.
Qed.

(** Blank files. *)
Lemma fileStep_blank (i : nat) (filePath code : string) (st : DriverState O) :
  lookupFile filePath (d_files st) = Some code ->
  JsString.trimIsEmpty code = true ->
  fileStep i filePath st = (Returned tt, st).
Proof.
  intros Hfile Hblank. unfold processFile, readFile, bind.
  now rewrite Hfile, Hblank.
Qed.

(** X20: files that hold nothing but white space are skipped: no stage
    runs on them, they are not written, and no checkpoint is saved for
    them, so the file index of the checkpoint does not move past them. *)
Theorem blank_files_are_skipped (i : nat) (files : list string) (st : DriverState O) :
  Forall (fun filePath =>
            exists code, lookupFile filePath (d_files st) = Some code
                         /\ JsString.trimIsEmpty code = true) files ->
  fileLoop i files st = (Returned tt, st).
Proof.
  intros Hall. revert i; induction Hall as [|filePath files (code & Hf & Hb) _ IH];
    intros i; [reflexivity|].
  cbn [processFiles]. unfold bind.
  rewrite (@fileStep_blank i filePath code st Hf Hb). apply IH.
Qed.

(** What a file of the bundle holds after the loop, when the loop was not
    given its path. *)
Lemma fileStep_other (i : nat) (filePath other : string) (st : DriverState O) :
  other <> filePath ->
  lookupFile other (d_files (snd (fileStep i filePath st)))
  = lookupFile other (d_files st).
Proof.
  intros Hne. unfold processFile, readFile, bind.
  destruct (lookupFile filePath (d_files st)) as [code|]; [|reflexivity].
  destruct (JsString.trimIsEmpty code); [reflexivity|].
  unfold tryCatch, bind.
  pose proof (chain_files i plugins code st) as Hfiles.
  destruct (chainOf i plugins code st) as [[out|e] st1]; cbn [snd] in *.
  - unfold writeFile, when, saveFileCheckpoint, driverNow, onDriverWorld, modify, bind.
    destruct (driverHasManager outputDir options); cbn;
      rewrite Hfiles; now apply lookupFile_storeFile_other.
  - unfold throw. cbn. now rewrite Hfiles.
Qed.

(** X21: the loop over the files writes only the files it is given: a
    file whose path is not among them (every file before the index a
    resumed run starts from, when the paths differ) holds afterwards what
    it held before, whether the loop returns or throws. *)
Theorem loop_writes_only_its_files (i : nat) (files : list string) (other : string)
    (st : DriverState O) :
  ~ In other files ->
  lookupFile other (d_files (snd (fileLoop i files st)))
  = lookupFile other (d_files st).
Proof.
  revert i st; induction files as [|filePath files IH]; intros i st Hnot; [reflexivity|].
  cbn [processFiles]. unfold bind.
  assert (Hne : other <> filePath) by (intros ->; apply Hnot; now left).
  pose proof (@fileStep_other i filePath other st Hne) as Hstep.
  destruct (fileStep i filePath st) as [[[]|e] st1]; cbn [snd] in *; [|exact Hstep].
  rewrite IH; [exact Hstep|]. intros Hin. apply Hnot. now right.
Qed.

(** Without checkpointing. *)
Hypothesis disabled : theEnableCheckpoint options = false.

Lemma stage_world_disabled (i : nat) (plugin : Plugin O) (code : string)
    (st : DriverState O) :
  d_world (snd (stage i plugin code st)) = d_world st.
Proof.
  unfold pluginWithCheckpoint, tryCatch, dispatchPlugin, driverHasManager,
    driverManager.
  rewrite disabled. unfold runPlain.
  destruct (plugin_call plugin code (d_oracle st)) as [[out|e] o]; reflexivity.
Qed.

Lemma chain_world_disabled (i : nat) (chain : list (Plugin O)) (code : string)
    (st : DriverState O) :
  d_world (snd (chainOf i chain code st)) = d_world st.
Proof.
  revert code st; induction chain as [|plugin chain IH]; intros code st; [reflexivity|].
  cbn [runChain]. unfold bind.
  pose proof (stage_world_disabled i plugin code st) as H.
  destruct (stage i plugin code st) as [[out|e] st1]; cbn [snd] in *; [|exact H].
  now rewrite IH.
Qed.

Lemma fileStep_world_disabled (i : nat) (filePath : string) (st : DriverState O) :
  d_world (snd (fileStep i filePath st)) = d_world st.
Proof.
  unfold processFile, readFile, bind.
  destruct (lookupFile filePath (d_files st)) as [code|]; [|reflexivity].
  destruct (JsString.trimIsEmpty code); [reflexivity|].
  unfold tryCatch, bind.
  pose proof (chain_world_disabled i plugins code st) as Hw.
  destruct (chainOf i plugins code st) as [[out|e] st1]; cbn [snd] in *.
  - unfold writeFile, when, driverHasManager, driverManager, modify, bind.
    rewrite disabled. cbn. exact Hw.
  - exact Hw.
Qed.

Lemma fileLoop_world_disabled (i : nat) (files : list string) (st : DriverState O) :
  d_world (snd (fileLoop i files st)) = d_world st.
Proof.
  revert i st; induction files as [|filePath files IH]; intros i st; [reflexivity|].
  cbn [processFiles]. unfold bind.
  pose proof (fileStep_world_disabled i filePath st) as H.
  destruct (fileStep i filePath st) as [[[]|e] st1]; cbn [snd] in *; [|exact H].
  now rewrite IH.
Qed.

Lemma driver_world_disabled (filename : string) (st : DriverState O) :
  d_world
    (snd (unminifyWithCheckpoint B clock openaiVisitor geminiVisitor defineFilename
            unminifyVariableName webcrack outputDir plugins options filename st))
  = d_world st.
Proof.
  unfold unminifyWithCheckpoint, readFile, bind, getState.
  destruct (lookupFile filename (d_files st)) as [bundledCode|]; [|reflexivity].
  destruct (webcrack bundledCode outputDir (d_files st)) as [[extractedFiles|e] files];
    [|reflexivity].
  cbn [d_world].
  match goal with
  | |- context [fileLoop ?i ?l ?s] =>
      pose proof (fileLoop_world_disabled i l s) as Hloop;
      destruct (fileLoop i l s) as [[[]|e] st1]
  end; cbn [snd d_world] in *; [|exact Hloop].
  unfold completeRun, when, driverHasManager, driverManager. rewrite disabled.
  cbn. exact Hloop.
Qed.

End DriverSteps.

(** X22: with checkpointing disabled the driver leaves the checkpoint
    directory and the clock alone through the whole run, whatever the
    stages are and whether the run returns or throws: no checkpoint, no
    shard, no mapping file is written, and none is removed. *)
Theorem disabled_checkpointing_leaves_world (B : Babel) (O : Type) (clock : nat -> Z)
    (openaiVisitor geminiVisitor : Visitor O)
    (defineFilename : string -> O -> Outcome string * O)
    (unminifyVariableName : string -> Visitor O)
    (webcrack : string -> string -> list (string * string)
                -> Outcome (list string) * list (string * string))
    (outputDir : string) (plugins : list (Plugin O)) (options : UnminifyOptions)
    (filename : string) (st : DriverState O) :
  theEnableCheckpoint options = false ->
  d_world
    (snd (unminifyWithCheckpoint B clock openaiVisitor geminiVisitor defineFilename
            unminifyVariableName webcrack outputDir plugins options filename st))
  = d_world st.
Proof.
  intros Hdis. now apply driver_world_disabled.
Qed.


Lemma failed_stage_leaves_file_checkpoint_witness :
  let B := Toy.babel Programs.threeVars in
  let names := fun (_ : string) (calls : nat) => (Returned "vars.js", S calls) in
  let run :=
    runChain B Toy.clock Cases.aOnlyOracle Cases.aOnlyOracle names
      (fun _ => Cases.aOnlyOracle) "out" Runs.checkpointing 2 [Runs.openaiPlugin]
      Programs.threeVarsSource Cases.bundleState in
  fst run = Thrown "oracle failure"
  /\ driverStartIndex "out" Cases.resuming (d_world (snd run)) = 2.
Proof.
  intros B names run.
  assert (Hrun : run = (Thrown "oracle failure", snd run)) by (vm_compute; reflexivity).
  destruct (@failed_stage_leaves_file_checkpoint B nat Toy.clock Cases.aOnlyOracle
              Cases.aOnlyOracle names (fun _ => Cases.aOnlyOracle) "out"
              Runs.checkpointing 2 [Runs.openaiPlugin] Programs.threeVarsSource
              Cases.bundleState (snd run) "oracle failure" eq_refl Hrun)
    as (_ & Hidx).
  split; [rewrite Hrun; reflexivity|].
  apply Hidx; reflexivity.
Defined.

Lemma processed_file_is_rewritten_witness :
  let B := Toy.babel Programs.threeVars in
  let names := fun (_ : string) (calls : nat) => (Returned "vars.js", S calls) in
  exists st2,
    processFile B Toy.clock Runs.namesOracle Runs.namesOracle names
      (fun _ => Runs.namesOracle) "out" [Cases.upperPlugin] Runs.checkpointing 0
      "out/a.js" Cases.bundleState
    = (Returned tt, st2)
    /\ lookupFile "out/a.js" (d_files st2) = Some "var a=1,b=a+1,c=b;;".
Proof.
  intros B names.
  set (st1 := snd (runChain B Toy.clock Runs.namesOracle Runs.namesOracle names
                     (fun _ => Runs.namesOracle) "out" Runs.checkpointing 0
                     [Cases.upperPlugin] Programs.threeVarsSource Cases.bundleState)).
  destruct (@processed_file_is_rewritten B nat Toy.clock Runs.namesOracle
              Runs.namesOracle names (fun _ => Runs.namesOracle) "out"
              [Cases.upperPlugin] Runs.checkpointing 0 "out/a.js"
              Programs.threeVarsSource "var a=1,b=a+1,c=b;;" Cases.bundleState st1)
    as (st2 & Hstep & Hfile & _).
  - reflexivity.
  - vm_compute; reflexivity.
  - vm_compute; reflexivity.
  - vm_compute; reflexivity.
  - exists st2. split; [exact Hstep | exact Hfile].
Defined.

Lemma blank_files_are_skipped_witness :
  let B := Toy.babel Programs.threeVars in
  let names := fun (_ : string) (calls : nat) => (Returned "vars.js", S calls) in
  let st := mkDriverState Cases.blankFiles 0 Toy.freshWorld in
  processFiles B Toy.clock Runs.namesOracle Runs.namesOracle names
    (fun _ => Runs.namesOracle) "out" [Cases.failingPlugin] Runs.checkpointing 0
    ["out/a.js"; "out/b.js"; "out/c.js"] st
  = (Returned tt, st).
Proof.
  intros B names st.
  apply (@blank_files_are_skipped B nat Toy.clock Runs.namesOracle Runs.namesOracle
           names (fun _ => Runs.namesOracle) "out" [Cases.failingPlugin]
           Runs.checkpointing 0 ["out/a.js"; "out/b.js"; "out/c.js"] st).
  constructor; [exists "  "; split; reflexivity|].
  constructor; [exists ""; split; reflexivity|].
  constructor; [exists Cases.unicodeBlank; split; vm_compute; reflexivity|].
  constructor.
Defined.

Lemma loop_writes_only_its_files_witness :
  let B := Toy.babel Programs.threeVars in
  let names := fun (_ : string) (calls : nat) => (Returned "vars.js", S calls) in
  lookupFile "bundle.js"
    (d_files
       (snd (processFiles B Toy.clock Runs.namesOracle Runs.namesOracle names
               (fun _ => Runs.namesOracle) "out" [Cases.upperPlugin]
               Runs.checkpointing 0 ["out/a.js"] Cases.bundleState)))
  = lookupFile "bundle.js" (d_files Cases.bundleState).
Proof.
  intros B names.
  apply (@loop_writes_only_its_files B nat Toy.clock Runs.namesOracle Runs.namesOracle
           names (fun _ => Runs.namesOracle) "out" [Cases.upperPlugin]
           Runs.checkpointing 0 ["out/a.js"] "bundle.js" Cases.bundleState).
  intros [H|[]]. discriminate H.
Defined.

Lemma disabled_checkpointing_leaves_world_witness :
  let B := Toy.babel Programs.threeVars in
  let names := fun (_ : string) (calls : nat) => (Returned "vars.js", S calls) in
  d_world
    (snd (unminifyWithCheckpoint B Toy.clock Runs.namesOracle Runs.namesOracle names
            (fun _ => Runs.namesOracle) Runs.unpack "out"
            [Runs.openaiPlugin; Cases.upperPlugin] Cases.noCheckpointing "bundle.js"
            Cases.bundleState))
  = d_world Cases.bundleState.
Proof.
  intros B names.
  apply (@disabled_checkpointing_leaves_world B nat Toy.clock Runs.namesOracle
           Runs.namesOracle names (fun _ => Runs.namesOracle) Runs.unpack "out"
           [Runs.openaiPlugin; Cases.upperPlugin] Cases.noCheckpointing "bundle.js"
           Cases.bundleState).
  reflexivity.
Defined.


(* ====================================================================== *)
(** * What the processed set holds *)
(* ====================================================================== *)

Section ProcessedNames.

Variable B : Babel.
Variable O : Type.
Variable visitor : Visitor O.
Variable clock : nat -> Z.
Variable W : Z.
Variable onProgress : bool.
Variable options : option VisitOptions.

(** X23: when a binding is renamed, the name that goes into the processed
    set and into the visited set is the one the node has after the rename
    (the name is read again at lines 110 and 111), while the rename map is
    keyed by the name the node had before; the count goes up by one. *)
Theorem processed_set_holds_name_after_rename (n : nat) (path : NodePath B)
    (st : VisitState B O) (renamed : string) (o : O) (a : Ast B) :
  let name := node_name B (ast st) path in
  let safeRenamed := resolveCollisions st path (toIdentifier B renamed) in
  let result := visitBinding visitor clock W onProgress options n path st in
  hasVisited B (ast st) path (visited st) = false ->
  node_isIdentifier B (ast st) path = true ->
  visitor name (scopeToString B (ast st) path W) (oracle st) = (Returned renamed, o) ->
  renamed <> name ->
  scope_rename B (ast st) path name safeRenamed = Returned a ->
  fst result = Returned tt
  /\ ast (snd result) = a
  /\ processedIdentifiers (snd result)
     = JsSet.add (processedIdentifiers st) (node_name B a path)
  /\ visited (snd result) = JsSet.add (visited st) (node_name B a path)
  /\ processedCount (snd result) = S (processedCount st)
  /\ JsMap.get (renamesMap (snd result)) name = Some safeRenamed.
Proof.
  intros name safeRenamed result Hv Hid Hor Hne Hr. subst result.
  rewrite visitBinding_oracle_returns with (renamed := renamed) (o := o) by assumption.
  fold name. apply String.eqb_neq in Hne. rewrite Hne. simpl when.
  set (s1 := afterOracle st name (scopeToString B (ast st) path W) o).
  unfold bind.
  destruct (@acceptRename_returns B O clock options path renamed s1 a Hr)
    as (s2 & -> & Hast & Hproc & Hmap & _ & Hvis & Hcount & _).
  destruct (@account_spec B O clock onProgress options n path s2)
    as (s3 & -> & Hast3 & Hproc3 & Hmap3 & _ & Hvis3 & Hcount3 & _).
  cbn [fst snd].
  rewrite Hast3, Hproc3, Hvis3, Hcount3, Hmap3, Hast, Hproc, Hvis, Hcount, Hmap.
  repeat split. apply map_get_set_same.
Qed.

End ProcessedNames.

Lemma processed_set_holds_name_after_rename_witness :
  let B := Toy.babel Programs.threeVars in
  let a : NodePath B := Toy.Identifier 0 in
  let st := Runs.freshState Programs.threeVars in
  let result :=
    visitBinding Runs.namesOracle Toy.clock 1000 true (Runs.withManager 5) 3 a st in
  processedIdentifiers (snd result) = ["alpha"]
  /\ JsMap.get (renamesMap (snd result)) "a" = Some "alpha".
Proof.
  intros B a st result.
  destruct (@processed_set_holds_name_after_rename B nat Runs.namesOracle Toy.clock 1000
              true (Runs.withManager 5) 3 a st "alpha" 1
              (Programs.declaration Programs.threeVarsSource Programs.threeVarsText
                 [("alpha", (4, 5)%Z); ("b", (8, 9)%Z); ("c", (14, 15)%Z)] []))
    as (_ & _ & Hproc & _ & _ & Hmap).
  - reflexivity.
  - reflexivity.
  - reflexivity.
  - discriminate.
  - vm_compute; reflexivity.
  - split; [unfold result; rewrite Hproc; vm_compute; reflexivity | exact Hmap].
Defined.
